(** * Grounding and self-correction pipeline of the hotel assistant

    A shallow embedding of [app/services/hallucination_manager.py],
    [app/services/data_fusion_validator.py], the orchestration in
    [app/services/llm_engine.py] and the hotel search of
    [app/services/api_service.py], with the properties the specification
    states about them and further properties read off the code.

    Conventions of the embedding.
    - Python values of the JSON payloads are the inductive [pyval]; a
      dictionary is an association list in insertion order.
    - A Python call that may raise returns [result]: [Ok v] or [Raise e].
    - Strings are 8-bit [string]s; [lower], [strip], [len] and the regular
      expressions act on ASCII, so the model covers ASCII text.
    - Python floats are IEEE-754 binary64 values, the [spec_float] of the
      Standard Library with precision 53 and maximal exponent 1024.
    - A message built by an f-string is a constructor of [issue] carrying the
      interpolated values: the text is a function of the constructor.
    - Python (3.11 and later) does not write an integer of more than 4300
      digits: [str] and an f-string raise [ValueError] on one. The checkers,
      which a caller may hand any value, are modelled with that ([format]).
      [json.loads] refuses such an integer, so the values of a turn and of
      the hotel service, which are all decoded ones, hold none, and their
      code is modelled with the plain [str]. *)

From Stdlib Require Import ZArith List Bool Ascii String Lia.
From Stdlib Require Import Floats.SpecFloat.
From Stdlib Require Import Numbers.DecimalString.
Import ListNotations.

Local Open Scope string_scope.
Local Open Scope Z_scope.
Local Set Warnings "-register-all".

(** ** The Python runtime the code relies on *)

Module Py.

(** *** Exceptions and fallible computations *)

Inductive exn : Type :=
| AttributeError
| TypeError
| ValueError
| OverflowError
| KeyError.

Inductive result (A : Type) : Type :=
| Ok (a : A)
| Raise (e : exn).

Arguments Ok {A} a.
Arguments Raise {A} e.

Definition bind {A B : Type} (m : result A) (k : A -> result B) : result B :=
  match m with
  | Ok a => k a
  | Raise e => Raise e
  end.

Definition is_ok {A : Type} (m : result A) : bool :=
  match m with Ok _ => true | Raise _ => false end.

Fixpoint mapM {A B : Type} (f : A -> result B) (l : list A) : result (list B) :=
  match l with
  | [] => Ok []
  | x :: l' =>
      match f x with
      | Raise e => Raise e
      | Ok y =>
          match mapM f l' with
          | Raise e => Raise e
          | Ok ys => Ok (y :: ys)
          end
      end
  end.

(** *** Floats: binary64 *)

Definition float : Type := spec_float.

Definition prec : Z := 53.
Definition emax : Z := 1024.

Definition fsub (x y : float) : float := SFsub prec emax x y.
Definition fabs (x : float) : float := SFabs x.
Definition flt (x y : float) : bool := SFltb x y.
Definition fgt (x y : float) : bool := SFltb y x.
Definition feq (x y : float) : bool := SFeqb x y.

(** The magnitude [m * 10^e10] rounded to the nearest binary64 value, ties
    to even; [m] is not negative. *)
Definition float_of_decimal (m e10 : Z) : float :=
  match m with
  | Zpos p =>
      if 0 <=? e10
      then binary_normalize prec emax (m * 10 ^ e10) 0 false
      else SFdiv prec emax (S754_finite false p 0)
                           (S754_finite false (Z.to_pos (10 ^ (- e10))) 0)
  | _ => S754_zero false
  end.

(** [float(n)] for an [int]: the nearest float, or [OverflowError]. *)
Definition float_of_int (n : Z) : result float :=
  match binary_normalize prec emax n 0 false with
  | S754_infinity _ => Raise OverflowError
  | f => Ok f
  end.

Definition f0 : float := S754_zero false.
Definition f1 : float := Eval vm_compute in float_of_decimal 1 0.
Definition f5 : float := Eval vm_compute in float_of_decimal 5 0.
Definition f10 : float := Eval vm_compute in float_of_decimal 10 0.
Definition f10000 : float := Eval vm_compute in float_of_decimal 10000 0.
Definition f0_1 : float := Eval vm_compute in float_of_decimal 1 (-1).

(** *** Strings *)

Definition is_space (c : ascii) : bool :=
  let n := nat_of_ascii c in
  ((9 <=? n) && (n <=? 13) || (28 <=? n) && (n <=? 32))%nat.

Definition is_digit (c : ascii) : bool :=
  let n := nat_of_ascii c in ((48 <=? n) && (n <=? 57))%nat.

Definition digit_val (c : ascii) : option Z :=
  if is_digit c then Some (Z.of_nat (nat_of_ascii c) - 48) else None.

Definition lower_char (c : ascii) : ascii :=
  let n := nat_of_ascii c in
  if ((65 <=? n) && (n <=? 90))%nat then ascii_of_nat (n + 32) else c.

(** [s.lower()] *)
Fixpoint lower (s : string) : string :=
  match s with
  | EmptyString => EmptyString
  | String c s' => String (lower_char c) (lower s')
  end.

Fixpoint lstrip (s : string) : string :=
  match s with
  | EmptyString => EmptyString
  | String c s' => if is_space c then lstrip s' else s
  end.

Fixpoint rstrip (s : string) : string :=
  match s with
  | EmptyString => EmptyString
  | String c s' =>
      match rstrip s' with
      | EmptyString => if is_space c then EmptyString else String c EmptyString
      | r => String c r
      end
  end.

(** [s.strip()] *)
Definition strip (s : string) : string := rstrip (lstrip s).

Definition nonempty (s : string) : bool :=
  match s with EmptyString => false | _ => true end.

(** [len(s)] *)
Definition len (s : string) : Z := Z.of_nat (String.length s).

Fixpoint startswith (p s : string) : bool :=
  match p, s with
  | EmptyString, _ => true
  | String a p', String b s' => Ascii.eqb a b && startswith p' s'
  | String _ _, EmptyString => false
  end.

(** [needle in hay] *)
Fixpoint contains (needle hay : string) : bool :=
  startswith needle hay
  || match hay with
     | EmptyString => false
     | String _ hay' => contains needle hay'
     end.

(** [s.replace(old, "")] for a non-empty [old]: the occurrences are removed
    from left to right; [skip] counts the characters of an occurrence still
    to drop. *)
Fixpoint remove_from (old : string) (skip : nat) (s : string) : string :=
  match s with
  | EmptyString => EmptyString
  | String c s' =>
      match skip with
      | S k => remove_from old k s'
      | O =>
          if startswith old s
          then remove_from old (String.length old - 1) s'
          else String c (remove_from old 0 s')
      end
  end.

Definition remove (old s : string) : string := remove_from old 0 s.

Fixpoint take_while (p : ascii -> bool) (s : string) : string :=
  match s with
  | EmptyString => EmptyString
  | String c s' => if p c then String c (take_while p s') else EmptyString
  end.

Fixpoint drop_while (p : ascii -> bool) (s : string) : string :=
  match s with
  | EmptyString => EmptyString
  | String c s' => if p c then drop_while p s' else s
  end.

(** [", ".join(l)] *)
Fixpoint join (l : list string) : string :=
  match l with
  | [] => ""
  | [s] => s
  | s :: l' => s ++ ", " ++ join l'
  end.

(** *** [float(s)] for a string

    The grammar of the builtin: optional surrounding white space, an optional
    sign, then [inf], [infinity] or [nan] in any case, or a decimal number
    [digits [. [digits]] | . digits] with an optional exponent
    [e [sign] digits]; a single underscore may separate two digits. *)

Fixpoint digits_more (acc n : Z) (s : string) {struct s} : Z * Z * string :=
  match s with
  | String c s' =>
      match digit_val c with
      | Some d => digits_more (10 * acc + d) (n + 1) s'
      | None =>
          if Ascii.eqb c "_" then
            match s' with
            | String c2 s'' =>
                match digit_val c2 with
                | Some d => digits_more (10 * acc + d) (n + 1) s''
                | None => (acc, n, s)
                end
            | EmptyString => (acc, n, s)
            end
          else (acc, n, s)
      end
  | EmptyString => (acc, n, s)
  end.

(** A non-empty run of digits continuing the number [acc]: the new value, the
    count of digits read added to [n], and the rest of the string. *)
Definition digitpart (acc n : Z) (s : string) : option (Z * Z * string) :=
  match s with
  | String c s' =>
      match digit_val c with
      | Some d => Some (digits_more (10 * acc + d) (n + 1) s')
      | None => None
      end
  | EmptyString => None
  end.

(** The mantissa and the number of fraction digits, then the rest. *)
Definition parse_mantissa (s : string) : option (Z * Z * string) :=
  match digitpart 0 0 s with
  | Some (mi, _, String "." r) =>
      match digitpart mi 0 r with
      | Some res => Some res
      | None => Some (mi, 0, r)
      end
  | Some (mi, _, r) => Some (mi, 0, r)
  | None =>
      match s with
      | String "." r => digitpart 0 0 r
      | _ => None
      end
  end.

(** The exponent, [0] when there is none; the whole rest must be consumed. *)
Definition parse_exponent (s : string) : option Z :=
  match s with
  | EmptyString => Some 0
  | String c r =>
      if Ascii.eqb (lower_char c) "e" then
        let '(neg, r') :=
          match r with
          | String "-" r' => (true, r')
          | String "+" r' => (false, r')
          | _ => (false, r)
          end in
        match digitpart 0 0 r' with
        | Some (x, _, EmptyString) => Some (if neg then - x else x)
        | _ => None
        end
      else None
  end.

(** The value of an unsigned literal. *)
Definition parse_unsigned (s : string) : option float :=
  let l := lower s in
  if String.eqb l "inf" || String.eqb l "infinity" then Some (S754_infinity false)
  else if String.eqb l "nan" then Some S754_nan
  else
    match parse_mantissa s with
    | Some (m, nfrac, r) =>
        match parse_exponent r with
        | Some x => Some (float_of_decimal m (x - nfrac))
        | None => None
        end
    | None => None
    end.

(** [float(s)]: [None] stands for [ValueError]. *)
Definition float_of_str (s : string) : option float :=
  match strip s with
  | String "-" u => option_map SFopp (parse_unsigned u)
  | String "+" u => parse_unsigned u
  | u => parse_unsigned u
  end.

(** *** [repr] of a float: the shortest digits that read back as the float *)

Definition str_of_Z (n : Z) : string := NilZero.string_of_int (Z.to_int n).

Fixpoint zeros (n : nat) : string :=
  match n with
  | O => ""
  | S k => String "0" (zeros k)
  end.

(** [x = num / den], positive. [10^k <= x] *)
Definition pow10_le (k num den : Z) : bool :=
  if 0 <=? k then 10 ^ k * den <=? num else den <=? num * 10 ^ (- k).

(** The largest [k] at most [start] with [10^k <= x]. *)
Fixpoint decimal_exponent (fuel : nat) (k num den : Z) : Z :=
  match fuel with
  | O => k
  | S fuel' => if pow10_le k num den then k else decimal_exponent fuel' (k - 1) num den
  end.

(** The integer of [n] digits (or [10^n]) closest to [x * 10^(n-1-k)] among
    those that read back as [x], if one does. *)
Definition digits_at (x : float) (num den k : Z) (n : Z) : option Z :=
  let sh := n - 1 - k in
  let N := if 0 <=? sh then num * 10 ^ sh else num in
  let D := if 0 <=? sh then den else den * 10 ^ (- sh) in
  let lo := N / D in
  let r := N mod D in
  let hi := lo + 1 in
  let back d := SFeqb (float_of_decimal d (k - n + 1)) x in
  let lo_first := (2 * r <? D) || ((2 * r =? D) && Z.even lo) in
  let '(a, b) := if lo_first then (lo, hi) else (hi, lo) in
  if (r =? 0) then (if back lo then Some lo else None)
  else if back a then Some a
  else if back b then Some b
  else None.

Fixpoint shortest_digits (fuel : nat) (x : float) (num den k n : Z) : Z * Z :=
  match fuel with
  | O => (0, n)
  | S fuel' =>
      match digits_at x num den k n with
      | Some d => (d, n)
      | None => shortest_digits fuel' x num den k (n + 1)
      end
  end.

Fixpoint strip_zeros_rev (l : list ascii) : list ascii :=
  match l with
  | "0"%char :: l' => strip_zeros_rev l'
  | _ => l
  end.

Definition rstrip_zeros (s : string) : string :=
  match strip_zeros_rev (rev (list_ascii_of_string s)) with
  | [] => "0"
  | l => string_of_list_ascii (rev l)
  end.

(** The digits [ds] with the decimal point after [decpt] of them, as [repr]
    lays them out: exponent form when [decpt <= -4] or [decpt > 16]. *)
Definition layout (ds : string) (decpt : Z) : string :=
  let n := Z.of_nat (String.length ds) in
  if (decpt <=? -4) || (16 <? decpt) then
    let x := decpt - 1 in
    let xs := str_of_Z (Z.abs x) in
    let xs := if Z.abs x <? 10 then String "0" xs else xs in
    String.substring 0 1 ds
    ++ (if 1 <? n then "." ++ String.substring 1 (String.length ds - 1) ds else "")
    ++ "e" ++ (if x <? 0 then "-" else "+") ++ xs
  else if decpt <=? 0 then "0." ++ zeros (Z.to_nat (- decpt)) ++ ds
  else if n <=? decpt then ds ++ zeros (Z.to_nat (decpt - n)) ++ ".0"
  else String.substring 0 (Z.to_nat decpt) ds ++ "."
       ++ String.substring (Z.to_nat decpt) (String.length ds - Z.to_nat decpt) ds.

Definition repr_finite (m : positive) (e : Z) : string :=
  let x := S754_finite false m e in
  let num := if 0 <=? e then Zpos m * 2 ^ e else Zpos m in
  let den := if 0 <=? e then 1 else 2 ^ (- e) in
  let k := decimal_exponent 700 309 num den in
  let '(d, n) := shortest_digits 17 x num den k 1 in
  let ds := str_of_Z d in
  layout (rstrip_zeros ds) (Z.of_nat (String.length ds) + (k - n + 1)).

(** [repr(f)], which is also [str(f)]. *)
Definition repr_float (f : float) : string :=
  match f with
  | S754_nan => "nan"
  | S754_infinity s => if s then "-inf" else "inf"
  | S754_zero s => if s then "-0.0" else "0.0"
  | S754_finite s m e => (if s then "-" else "") ++ repr_finite m e
  end.

(** *** Values *)

Inductive pyval : Type :=
| PNone
| PBool (b : bool)
| PInt (n : Z)
| PFloat (f : float)
| PStr (s : string)
| PList (l : list pyval)
| PDict (d : list (string * pyval)).

Definition dict : Type := list (string * pyval).

Definition hex_digit (n : nat) : ascii :=
  ascii_of_nat (if (n <? 10)%nat then 48 + n else 87 + n).

Fixpoint escape (q : ascii) (s : string) : string :=
  match s with
  | EmptyString => EmptyString
  | String c s' =>
      let n := nat_of_ascii c in
      (if Ascii.eqb c "\" then "\\"
       else if Ascii.eqb c q then String "\" (String c "")
       else if (n =? 9)%nat then "\t"
       else if (n =? 10)%nat then "\n"
       else if (n =? 13)%nat then "\r"
       else if ((n <? 32) || (n =? 127))%nat
            then "\x" ++ String (hex_digit (n / 16)) (String (hex_digit (n mod 16)) "")
       else String c "")
      ++ escape q s'
  end.

Definition apostrophe : ascii := ascii_of_nat 39.
Definition quotation : ascii := ascii_of_nat 34.

(** [repr(s)]: single quotes, unless the string holds one and no double
    quote. *)
Definition repr_str (s : string) : string :=
  let q :=
    if contains (String apostrophe "") s && negb (contains (String quotation "") s)
    then quotation else apostrophe in
  String q (escape q s ++ String q "").

Fixpoint repr (v : pyval) : string :=
  match v with
  | PNone => "None"
  | PBool b => if b then "True" else "False"
  | PInt n => str_of_Z n
  | PFloat f => repr_float f
  | PStr s => repr_str s
  | PList l => "[" ++ join (map repr l) ++ "]"
  | PDict d =>
      "{" ++ join (map (fun kv => let '(k, x) := kv in repr_str k ++ ": " ++ repr x) d) ++ "}"
  end.

(** [str(v)] *)
Definition str (v : pyval) : string :=
  match v with
  | PStr s => s
  | _ => repr v
  end.

(** Python does not write an integer of more than 4300 digits: [str], [repr]
    and an f-string raise [ValueError] on one, alone or inside a list or a
    dictionary. *)
Definition max_str_digits : Z := 4300.

(** The least integer that is not written: [10 ^ 4300]. *)
Definition str_limit : Z := Eval vm_compute in 10 ^ max_str_digits.

Definition int_printable (n : Z) : bool := Z.abs n <? str_limit.

Arguments int_printable : simpl never.

Fixpoint printable (v : pyval) : bool :=
  match v with
  | PInt n => int_printable n
  | PList l => forallb printable l
  | PDict d => forallb (fun kv => let '(_, x) := kv in printable x) d
  | _ => true
  end.

(** [str(v)] and [f"{v}"] for a value of any type. *)
Definition format (v : pyval) : result string :=
  if printable v then Ok (str v) else Raise ValueError.

(** [bool(v)], the truth value tested by [if v] and [not v]. *)
Definition truthy (v : pyval) : bool :=
  match v with
  | PNone => false
  | PBool b => b
  | PInt n => negb (n =? 0)
  | PFloat f => negb (feq f f0)
  | PStr s => nonempty s
  | PList l => match l with [] => false | _ => true end
  | PDict d => match d with [] => false | _ => true end
  end.

Definition is_none (v : pyval) : bool :=
  match v with PNone => true | _ => false end.

Fixpoint lookup (k : string) (d : dict) : option pyval :=
  match d with
  | [] => None
  | (k', v) :: d' => if String.eqb k k' then Some v else lookup k d'
  end.

(** [v.get(k, default)]: only a dictionary has the method. *)
Definition get (v : pyval) (k : string) (default : pyval) : result pyval :=
  match v with
  | PDict d => Ok (match lookup k d with Some x => x | None => default end)
  | _ => Raise AttributeError
  end.

(** [v.get(k)] *)
Definition get1 (v : pyval) (k : string) : result pyval := get v k PNone.

(** A value used as a string receiver ([v.lower()], [v.strip()]): any other
    type lacks the method. *)
Definition as_str (v : pyval) : result string :=
  match v with
  | PStr s => Ok s
  | _ => Raise AttributeError
  end.

(** A value passed where the library demands a string ([str.join], [re]). *)
Definition expect_str (v : pyval) : result string :=
  match v with
  | PStr s => Ok s
  | _ => Raise TypeError
  end.

Fixpoint chars (s : string) : list pyval :=
  match s with
  | EmptyString => []
  | String c s' => PStr (String c "") :: chars s'
  end.

(** The elements [for x in v] visits. *)
Definition iter (v : pyval) : result (list pyval) :=
  match v with
  | PList l => Ok l
  | PStr s => Ok (chars s)
  | PDict d => Ok (map (fun kv => PStr (fst kv)) d)
  | _ => Raise TypeError
  end.

(** [len(v)] *)
Definition length (v : pyval) : result Z :=
  match v with
  | PList l => Ok (Z.of_nat (List.length l))
  | PStr s => Ok (len s)
  | PDict d => Ok (Z.of_nat (List.length d))
  | _ => Raise TypeError
  end.

(** [v[:n]] *)
Definition slice_to (n : nat) (v : pyval) : result pyval :=
  match v with
  | PList l => Ok (PList (firstn n l))
  | PStr s => Ok (PStr (String.substring 0 n s))
  | PDict _ => Raise KeyError
  | _ => Raise TypeError
  end.

(** [float(v)] *)
Definition to_float (v : pyval) : result float :=
  match v with
  | PBool b => Ok (if b then f1 else f0)
  | PInt n => float_of_int n
  | PFloat f => Ok f
  | PStr s =>
      match float_of_str s with
      | Some f => Ok f
      | None => Raise ValueError
      end
  | _ => Raise TypeError
  end.

(** [re.search(r'[\d.]+', s)], the matched text. *)
Definition is_numeric_char (c : ascii) : bool := is_digit c || Ascii.eqb c ".".

Definition search_number (s : string) : option string :=
  match take_while is_numeric_char (drop_while (fun c => negb (is_numeric_char c)) s) with
  | EmptyString => None
  | t => Some t
  end.

(** [re.search(pattern, text, re.IGNORECASE)] for a pattern of plain lower-case
    characters. *)
Definition search_ignorecase (pattern text : string) : bool :=
  contains pattern (lower text).

(** [re.findall(r'\$\d+', text)]; [inside] holds the match being read, in
    reverse. *)
Fixpoint findall_prices (inside : option (list ascii)) (s : string) : list string :=
  match s with
  | EmptyString =>
      match inside with
      | Some ((_ :: _ :: _) as m) => [string_of_list_ascii (rev m)]
      | _ => []
      end
  | String c s' =>
      match inside with
      | Some m =>
          if is_digit c then findall_prices (Some (c :: m)) s'
          else
            (match m with
             | _ :: _ :: _ => [string_of_list_ascii (rev m)]
             | _ => []
             end)
            ++ findall_prices (if Ascii.eqb c "$" then Some [c] else None) s'
      | None => findall_prices (if Ascii.eqb c "$" then Some [c] else None) s'
      end
  end.

(** [json.dumps(v)] with the default separators; a string is quoted with its
    quotes, backslashes and control characters escaped. *)
Fixpoint json_escape (s : string) : string :=
  match s with
  | EmptyString => EmptyString
  | String c s' =>
      let n := nat_of_ascii c in
      (if Ascii.eqb c "\" then "\\"
       else if Ascii.eqb c quotation then String "\" (String c "")
       else if (n =? 8)%nat then "\b"
       else if (n =? 9)%nat then "\t"
       else if (n =? 10)%nat then "\n"
       else if (n =? 12)%nat then "\f"
       else if (n =? 13)%nat then "\r"
       else if (n <? 32)%nat
            then "\u00" ++ String (hex_digit (n / 16)) (String (hex_digit (n mod 16)) "")
       else String c "")
      ++ json_escape s'
  end.

Definition json_str (s : string) : string :=
  String quotation (json_escape s ++ String quotation "").

Fixpoint json_dumps (v : pyval) : string :=
  match v with
  | PNone => "null"
  | PBool b => if b then "true" else "false"
  | PInt n => str_of_Z n
  | PFloat f =>
      match f with
      | S754_nan => "NaN"
      | S754_infinity s => if s then "-Infinity" else "Infinity"
      | _ => repr_float f
      end
  | PStr s => json_str s
  | PList l => "[" ++ join (map json_dumps l) ++ "]"
  | PDict d =>
      "{" ++ join (map (fun kv => let '(k, x) := kv in json_str k ++ ": " ++ json_dumps x) d)
          ++ "}"
  end.

(** [m[k] = v] on a dictionary: a present key keeps its place. *)
Fixpoint setitem (k : string) (v : pyval) (m : dict) : dict :=
  match m with
  | [] => [(k, v)]
  | (k', v') :: m' =>
      if String.eqb k k' then (k, v) :: m' else (k', v') :: setitem k v m'
  end.

(** [min(l)] and [max(l)] as the builtins scan a non-empty list. *)
Definition min_from (x : float) (l : list float) : float :=
  fold_left (fun cur item => if flt item cur then item else cur) l x.

Definition max_from (x : float) (l : list float) : float :=
  fold_left (fun cur item => if fgt item cur then item else cur) l x.

Declare Scope py_scope.
Delimit Scope py_scope with py.
Notation "x <- m ;; k" := (bind m (fun x => k))
  (at level 61, m at next level, right associativity) : py_scope.

End Py.

Import Py.
Local Open Scope py_scope.
Local Open Scope list_scope.

(** ** Issues

    One constructor per message the checkers and the fusion validator build;
    the arguments are the values the message interpolates. *)

Inductive issue : Type :=
(* verify_grounding *)
| Critical_no_api_results
| Count_mismatch (n_llm n_api : Z)
| Invalid_data_no_name
| Hallucinated_hotel (llm_name : string) (available_names : list string)
| Price_hallucination (llm_name : string) (llm_price api_price : pyval) (price_diff : float)
| Invalid_price_format (llm_name : string) (llm_price api_price : pyval)
| Rating_hallucination (llm_name : string) (llm_rating api_rating : pyval) (rating_diff : float)
(* check_consistency *)
| Duplicate_entries (names : list string)
| Missing_name_field (i : nat)
| Negative_price (name price : pyval)
| Invalid_rating (name rating : pyval)
(* check_plausibility *)
| Very_low_price (min_price : float)
| Very_high_price (max_price : float)
| Same_price (price : float)
| Same_rating (rating : float)
(* detect_misinformation_patterns *)
| Overconfident_language (pattern : string)
| Vague_claim (pattern : string)
| Prices_without_data (price_mentions : list string)
(* validate_fusion_quality *)
| Fusion_api_data_ignored
| Fusion_names_do_not_match
| Fusion_no_api_hotel_mentioned
| Fusion_no_meaningful_synthesis
| Fusion_warning_more_synthesis
| Fusion_price_modified (name api_price llm_price : pyval)
| Fusion_lacks_facts
| Fusion_lacks_reasoning.

(** The issue kinds of the specification. *)
Inductive kind : Type :=
| HallucinatedEntity
| CountMismatch
| PriceContradiction
| RatingContradiction
| MissingName
| DuplicateEntity
| InvalidRange
| ImplausibleValue
| SuspiciousUniformity
| UnsupportedOverconfidence
| UnsupportedSuperlative
| UnsupportedNumeric
| InvalidFormat.

(** The kind of a message of the four checkers; the fusion validator's
    messages have none. *)
Definition kind_of (i : issue) : option kind :=
  match i with
  | Critical_no_api_results => Some HallucinatedEntity
  | Count_mismatch _ _ => Some CountMismatch
  | Invalid_data_no_name => Some MissingName
  | Hallucinated_hotel _ _ => Some HallucinatedEntity
  | Price_hallucination _ _ _ _ => Some PriceContradiction
  | Invalid_price_format _ _ _ => Some InvalidFormat
  | Rating_hallucination _ _ _ _ => Some RatingContradiction
  | Duplicate_entries _ => Some DuplicateEntity
  | Missing_name_field _ => Some MissingName
  | Negative_price _ _ => Some InvalidRange
  | Invalid_rating _ _ => Some InvalidRange
  | Very_low_price _ => Some ImplausibleValue
  | Very_high_price _ => Some ImplausibleValue
  | Same_price _ => Some SuspiciousUniformity
  | Same_rating _ => Some SuspiciousUniformity
  | Overconfident_language _ => Some UnsupportedOverconfidence
  | Vague_claim _ => Some UnsupportedSuperlative
  | Prices_without_data _ => Some UnsupportedNumeric
  | _ => None
  end.

(** Severity as the specification defines it. *)
Definition critical_kind (k : kind) : bool :=
  match k with
  | HallucinatedEntity | PriceContradiction | RatingContradiction
  | CountMismatch | InvalidFormat => true
  | _ => false
  end.

Definition is_critical (i : issue) : bool :=
  match kind_of i with
  | Some k => critical_kind k
  | None => false
  end.

(** ** [HallucinationManager] *)

Module HallucinationManager.

(** [llm_claims.get("top_hotels", llm_claims.get("hotels", []))] *)
Definition claimed_hotels (llm_claims : pyval) : result pyval :=
  hotels <- get llm_claims "hotels" (PList []) ;;
  get llm_claims "top_hotels" hotels.

(** The name index over the API hotels: the loop of lines 58-62. *)
Fixpoint build_api_hotel_map (api_hotels : list pyval) (api_hotel_map : dict)
  : result dict :=
  match api_hotels with
  | [] => Ok api_hotel_map
  | ah :: rest =>
      name <- get ah "name" (PStr "") ;;
      name <- as_str name ;;
      let name_key := strip (lower name) in
      build_api_hotel_map rest
        (if nonempty name_key then setitem name_key ah api_hotel_map
         else api_hotel_map)
  end.

(** The test of line 84 on a claimed name and a name of the index. *)
Definition names_similar (name_key api_name : string) : bool :=
  (contains name_key api_name || contains api_name name_key)
  && (5 <? len name_key).

(** The fuzzy search of lines 82-87: the first similar entry of the index. *)
Fixpoint fuzzy_match (name_key : string) (items : dict) : option pyval :=
  match items with
  | [] => None
  | (api_name, api_hotel) :: rest =>
      if names_similar name_key api_name then Some api_hotel
      else fuzzy_match name_key rest
  end.

(** Heuristic 5, lines 101-121. *)
Definition check_price (llm_name : string) (lh match_ : pyval) : result (list issue) :=
  llm_price <- get1 lh "price" ;;
  api_price <- get1 match_ "price" ;;
  if negb (is_none llm_price) && negb (is_none api_price) then
    match (a <- to_float llm_price ;; b <- to_float api_price ;; Ok (a, b)) with
    | Ok (llm_price_float, api_price_float) =>
        let price_diff := fabs (fsub llm_price_float api_price_float) in
        if fgt price_diff f1 then
          (* the message writes the two prices as they were given; were
             that to raise [ValueError], the handler would take over and
             its message raise it again *)
          _ <- format llm_price ;;
          _ <- format api_price ;;
          Ok [Price_hallucination llm_name llm_price api_price price_diff]
        else Ok []
    | Raise ValueError | Raise TypeError =>
        _ <- format llm_price ;;
        _ <- format api_price ;;
        Ok [Invalid_price_format llm_name llm_price api_price]
    | Raise e => Raise e
    end
  else Ok [].

(** [str(rating).replace("star", "").replace("stars", "").strip()] *)
Definition normalize_rating (rating : pyval) : result string :=
  text <- format rating ;;
  Ok (strip (remove "stars" (remove "star" text))).

(** The number read from a rating: the first run of digits and dots of the
    normalized text, converted by [float]; [None] when the rating cannot be
    written, there is no run, or the conversion raises [ValueError]. *)
Definition rating_value (rating : pyval) : option float :=
  match normalize_rating rating with
  | Ok rating_str =>
      match search_number rating_str with
      | Some token => float_of_str token
      | None => None
      end
  | Raise _ => None
  end.

(** Heuristic 6, lines 127-153. *)
Definition check_rating (llm_name : string) (lh match_ : pyval) : result (list issue) :=
  llm_rating <- get1 lh "rating" ;;
  api_rating <- get1 match_ "rating" ;;
  if truthy llm_rating && truthy api_rating then
    match (llm_rating_str <- normalize_rating llm_rating ;;
           api_rating_str <- normalize_rating api_rating ;;
           Ok (llm_rating_str, api_rating_str)) with
    | Ok (llm_rating_str, api_rating_str) =>
        match search_number llm_rating_str, search_number api_rating_str with
        | Some llm_token, Some api_token =>
            match float_of_str llm_token, float_of_str api_token with
            | Some llm_rating_val, Some api_rating_val =>
                let rating_diff := fabs (fsub llm_rating_val api_rating_val) in
                Ok (if fgt rating_diff f0_1
                    then [Rating_hallucination llm_name llm_rating api_rating rating_diff]
                    else [])
            | _, _ => Ok []
            end
        | _, _ => Ok []
        end
    | Raise ValueError | Raise AttributeError => Ok []
    | Raise e => Raise e
    end
  else Ok [].

Definition field_checks (llm_name : string) (lh match_ : pyval) : result (list issue) :=
  price_issues <- check_price llm_name lh match_ ;;
  rating_issues <- check_rating llm_name lh match_ ;;
  Ok (price_issues ++ rating_issues).

(** The message of lines 90-95 for a claim without a match. *)
Definition report_hallucinated (api_hotels : pyval) (llm_name : string) : result (list issue) :=
  first3 <- slice_to 3 api_hotels ;;
  first3 <- iter first3 ;;
  available_names <- mapM (fun h => get1 h "name") first3 ;;
  names <- mapM expect_str available_names ;;
  Ok [Hallucinated_hotel llm_name names].

(** One turn of the loop of lines 64-153. *)
Definition verify_hotel (api_hotels : pyval) (api_hotel_map : dict) (lh : pyval)
  : result (list issue) :=
  name <- get lh "name" (PStr "") ;;
  name <- as_str name ;;
  let llm_name := strip name in
  if negb (nonempty llm_name) then Ok [Invalid_data_no_name]
  else
    let name_key := lower llm_name in
    let match_ :=
      match lookup name_key api_hotel_map with
      | Some ah => ah
      | None => PNone
      end in
    if negb (truthy match_) then
      match fuzzy_match name_key api_hotel_map with
      | Some api_hotel => field_checks llm_name lh api_hotel
      | None => report_hallucinated api_hotels llm_name
      end
    else field_checks llm_name lh match_.

Fixpoint verify_hotels (api_hotels : pyval) (api_hotel_map : dict)
  (llm_hotels : list pyval) : result (list issue) :=
  match llm_hotels with
  | [] => Ok []
  | lh :: rest =>
      found <- verify_hotel api_hotels api_hotel_map lh ;;
      more <- verify_hotels api_hotels api_hotel_map rest ;;
      Ok (found ++ more)
  end.

(** Heuristic 2, lines 50-54. *)
Definition count_validation (llm_hotels api_hotels : pyval) : result (list issue) :=
  if truthy llm_hotels then
    n_llm <- length llm_hotels ;;
    n_api <- length api_hotels ;;
    Ok (if n_api <? n_llm then [Count_mismatch n_llm n_api] else [])
  else Ok [].

Definition verify_grounding (api_data llm_claims : pyval) : result (list issue) :=
  llm_hotels <- claimed_hotels llm_claims ;;
  api_hotels <- get api_data "top_hotels" (PList []) ;;
  if negb (truthy api_hotels) then
    Ok (if truthy llm_hotels then [Critical_no_api_results] else [])
  else
    count_issues <- count_validation llm_hotels api_hotels ;;
    if truthy llm_hotels then
      ahs <- iter api_hotels ;;
      api_hotel_map <- build_api_hotel_map ahs [] ;;
      lhs <- iter llm_hotels ;;
      found <- verify_hotels api_hotels api_hotel_map lhs ;;
      Ok (count_issues ++ found)
    else Ok count_issues.

(** *** [check_consistency] *)

(** Line 237: the lower-cased names of the hotels that have a truthy name. *)
Fixpoint lowered_names (hotels : list pyval) : result (list string) :=
  match hotels with
  | [] => Ok []
  | h :: rest =>
      name <- get1 h "name" ;;
      if truthy name then
        name <- get h "name" (PStr "") ;;
        name <- as_str name ;;
        names <- lowered_names rest ;;
        Ok (lower name :: names)
      else lowered_names rest
  end.

(** [l.count(x)] *)
Definition count (x : string) (l : list string) : Z :=
  Z.of_nat (List.length (filter (String.eqb x) l)).

(** The distinct elements, each at its first place: the content of
    [set(duplicates)]. *)
Fixpoint distinct (l : list string) : list string :=
  match l with
  | [] => []
  | x :: l' => x :: filter (fun y => negb (String.eqb x y)) (distinct l')
  end.

(** Lines 246-250, from index [i] on. *)
Fixpoint missing_names (i : nat) (hotels : list pyval) : result (list issue) :=
  match hotels with
  | [] => Ok []
  | hotel :: rest =>
      name <- get1 hotel "name" ;;
      more <- missing_names (S i) rest ;;
      Ok ((if negb (truthy name) then [Missing_name_field i] else []) ++ more)
  end.

(** Lines 258-266 for one hotel. *)
Definition negative_price (hotel : pyval) : result (list issue) :=
  price <- get1 hotel "price" ;;
  if negb (is_none price) then
    match to_float price with
    | Ok p =>
        if flt p f0 then
          name <- get1 hotel "name" ;;
          (* the message writes the name and the price: [ValueError] on
             one that cannot be written, which the handler of line 265
             swallows *)
          Ok (if printable name && printable price
              then [Negative_price name price] else [])
        else Ok []
    | Raise ValueError | Raise TypeError => Ok []
    | Raise e => Raise e
    end
  else Ok [].

(** Lines 269-281 for one hotel. *)
Definition rating_range (hotel : pyval) : result (list issue) :=
  rating <- get1 hotel "rating" ;;
  if truthy rating then
    match normalize_rating rating with
    | Ok rating_str =>
        match search_number rating_str with
        | Some token =>
            match float_of_str token with
            | Some rating_val =>
                if flt rating_val f0 || fgt rating_val f5 then
                  name <- get1 hotel "name" ;;
                  (* as for the price: a name that cannot be written is
                     swallowed by the handler of line 280 *)
                  Ok (if printable name then [Invalid_rating name rating] else [])
                else Ok []
            | None => Ok []
            end
        | None => Ok []
        end
    | Raise ValueError | Raise AttributeError => Ok []
    | Raise e => Raise e
    end
  else Ok [].

(** Lines 253-281. *)
Fixpoint logical_inconsistencies (hotels : list pyval) : result (list issue) :=
  match hotels with
  | [] => Ok []
  | hotel :: rest =>
      price_issues <- negative_price hotel ;;
      rating_issues <- rating_range hotel ;;
      more <- logical_inconsistencies rest ;;
      Ok (price_issues ++ rating_issues ++ more)
  end.

Definition check_consistency (llm_claims : pyval) : result (list issue) :=
  hotels <- claimed_hotels llm_claims ;;
  hs <- iter hotels ;;
  hotel_names <- lowered_names hs ;;
  let duplicates := filter (fun name => 1 <? count name hotel_names) hotel_names in
  let duplicate_issues :=
    match duplicates with
    | [] => []
    | _ => [Duplicate_entries (distinct duplicates)]
    end in
  missing <- missing_names 0 hs ;;
  logical <- logical_inconsistencies hs ;;
  Ok (duplicate_issues ++ missing ++ logical).

(** *** [check_plausibility] *)

(** Lines 307-324: the prices and the ratings that convert. *)
Fixpoint collect_numbers (hotels : list pyval) : result (list float * list float) :=
  match hotels with
  | [] => Ok ([], [])
  | hotel :: rest =>
      price <- get1 hotel "price" ;;
      rating <- get1 hotel "rating" ;;
      p <-
        (if negb (is_none price) then
           match to_float price with
           | Ok f => Ok [f]
           | Raise ValueError | Raise TypeError => Ok []
           | Raise e => Raise e
           end
         else Ok []) ;;
      let r :=
        if truthy rating then
          match rating_value rating with
          | Some f => [f]
          | None => []
          end
        else [] in
      more <- collect_numbers rest ;;
      Ok (p ++ fst more, r ++ snd more)
  end.

(** [len(set(prices)) == 1]: the floats are all equal. Floats are compared by
    value; the identity of a shared NaN object is not part of the model. *)
Definition all_equal (l : list float) : bool :=
  match l with
  | [] => false
  | x :: _ => forallb (fun y => feq y x) l
  end.

Definition check_plausibility (llm_claims : pyval) : result (list issue) :=
  hotels <- claimed_hotels llm_claims ;;
  if negb (truthy hotels) then Ok []
  else
    hs <- iter hotels ;;
    numbers <- collect_numbers hs ;;
    let '(prices, ratings) := numbers in
    let price_concerns :=
      match prices with
      | [] => []
      | p0 :: ps =>
          let min_price := min_from p0 ps in
          let max_price := max_from p0 ps in
          (if flt min_price f10 then [Very_low_price min_price] else [])
          ++ (if fgt max_price f10000 then [Very_high_price max_price] else [])
          ++ (if all_equal prices && (2 <? Z.of_nat (List.length prices))
              then [Same_price p0] else [])
      end in
    let rating_concerns :=
      match ratings with
      | [] => []
      | r0 :: _ =>
          if forallb (fun r => feq r r0) ratings && (2 <? Z.of_nat (List.length ratings))
          then [Same_rating r0] else []
      end in
    Ok (price_concerns ++ rating_concerns).

(** *** [detect_misinformation_patterns] *)

Definition overconfident_patterns : list string :=
  ["definitely"; "certainly"; "guaranteed"; "always"; "never fails"].

Definition vague_data_patterns : list string :=
  ["the best hotel"; "top rated"; "most popular"; "highly recommended"].

(** The first pattern found in the text: the loops stop at it. *)
Definition first_pattern (patterns : list string) (text : string) : option string :=
  find (fun pattern => search_ignorecase pattern text) patterns.

Definition detect_misinformation_patterns (response_text api_data : pyval)
  : result (list issue) :=
  top_hotels <- get1 api_data "top_hotels" ;;
  if negb (truthy top_hotels) then
    text <- expect_str response_text ;;
    let overconfident :=
      match first_pattern overconfident_patterns text with
      | Some pattern => [Overconfident_language pattern]
      | None => []
      end in
    let vague :=
      match first_pattern vague_data_patterns text with
      | Some pattern => [Vague_claim pattern]
      | None => []
      end in
    let price_mentions := findall_prices None text in
    let numbers :=
      match price_mentions with
      | [] => []
      | _ => [Prices_without_data price_mentions]
      end in
    Ok (overconfident ++ vague ++ numbers)
  else Ok [].

(** *** [comprehensive_check] *)

Inductive confidence_label : Type := HIGH | LOW.

Record summary : Type := {
  total_issues : Z;
  grounding_issues : Z;
  consistency_issues : Z;
  plausibility_concerns : Z;
  misinformation_patterns : Z;
  has_critical_issues : bool;
  confidence : confidence_label
}.

Definition count_of (l : list issue) : Z := Z.of_nat (List.length l).

Definition comprehensive_check (api_data llm_claims response_text : pyval)
  : result (list issue * summary) :=
  grounding <- verify_grounding api_data llm_claims ;;
  consistency <- check_consistency llm_claims ;;
  plausibility <- check_plausibility llm_claims ;;
  misinformation <-
    (if truthy response_text
     then detect_misinformation_patterns response_text api_data
     else Ok []) ;;
  let all_issues := grounding ++ consistency ++ plausibility ++ misinformation in
  Ok (all_issues,
      {| total_issues := count_of all_issues;
         grounding_issues := count_of grounding;
         consistency_issues := count_of consistency;
         plausibility_concerns := count_of plausibility;
         misinformation_patterns := count_of misinformation;
         has_critical_issues := 0 <? count_of grounding;
         confidence := if count_of all_issues =? 0 then HIGH else LOW |}).

End HallucinationManager.

(** ** [DataFusionValidator] *)

Module DataFusionValidator.

(** [any(indicator in text for indicator in indicators)] *)
Definition any_in (indicators : list string) (text : string) : bool :=
  existsb (fun indicator => contains indicator text) indicators.

(** [h.get("name", "").lower()] for each hotel. *)
Definition lowered_name (h : pyval) : result string :=
  name <- get h "name" (PStr "") ;;
  name <- as_str name ;;
  Ok (lower name).

Definition value_indicators : list string :=
  ["recommend"; "suggest"; "compare"; "better"; "best"; "value";
   "excellent"; "great"; "good"; "option"; "choice"; "consider"].

Definition factual_indicators : list string :=
  ["$"; "star"; "rating"; "night"; "hotel"].

Definition reasoning_indicators : list string :=
  ["because"; "since"; "if"; "recommend"; "suggest"; "consider";
   "better"; "best"; "value"; "excellent"; "great"].

(** The state the validations thread: the flag and the issues so far. *)
Definition verdict : Type := (bool * list issue)%type.

Definition flag (v : verdict) (i : issue) : verdict := (false, snd v ++ [i]).
Definition note (v : verdict) (i : issue) : verdict := (fst v, snd v ++ [i]).

(** Validation 2, lines 40-83. *)
Definition synthesis_check (api_hotels llm_hotels response_text : pyval) (v : verdict)
  : result verdict :=
  ahs <- iter api_hotels ;;
  api_hotel_names <- mapM lowered_name ahs ;;
  lhs <- iter llm_hotels ;;
  llm_hotel_names <- mapM lowered_name lhs ;;
  let v :=
    if existsb (fun a => existsb (String.eqb a) llm_hotel_names) api_hotel_names
    then v else flag v Fusion_names_do_not_match in
  if truthy response_text then
    text <- as_str response_text ;;
    let mentions_api_hotels :=
      existsb (fun name => nonempty name && contains (lower name) (lower text))
              api_hotel_names in
    let v := if mentions_api_hotels then v else flag v Fusion_no_api_hotel_mentioned in
    let adds_value := any_in value_indicators (lower text) in
    if negb adds_value then
      n_api <- length api_hotels ;;
      if 1 <? n_api then
        let v := note v Fusion_no_meaningful_synthesis in
        Ok (if fst v then note v Fusion_warning_more_synthesis else v)
      else Ok v
    else Ok v
  else Ok v.

(** The dictionary of line 88. *)
Fixpoint named_hotels (api_hotels : list pyval) (m : dict) : result dict :=
  match api_hotels with
  | [] => Ok m
  | h :: rest =>
      name <- get1 h "name" ;;
      if truthy name then
        key <- lowered_name h ;;
        named_hotels rest (setitem key h m)
      else named_hotels rest m
  end.

(** Lines 90-108 for the claimed hotels in turn. *)
Fixpoint accuracy_loop (api_hotel_map : dict) (llm_hotels : list pyval) (v : verdict)
  : result verdict :=
  match llm_hotels with
  | [] => Ok v
  | llm_hotel :: rest =>
      llm_name <- lowered_name llm_hotel ;;
      let api_hotel :=
        match lookup llm_name api_hotel_map with
        | Some h => h
        | None => PNone
        end in
      if truthy api_hotel then
        llm_price <- get1 llm_hotel "price" ;;
        api_price <- get1 api_hotel "price" ;;
        if negb (is_none llm_price) && negb (is_none api_price) then
          match (a <- to_float llm_price ;; b <- to_float api_price ;; Ok (a, b)) with
          | Ok (a, b) =>
              if fgt (fabs (fsub a b)) f1 then
                name <- get1 llm_hotel "name" ;;
                accuracy_loop api_hotel_map rest
                  (flag v (Fusion_price_modified name api_price llm_price))
              else accuracy_loop api_hotel_map rest v
          | Raise ValueError | Raise TypeError => accuracy_loop api_hotel_map rest v
          | Raise e => Raise e
          end
        else accuracy_loop api_hotel_map rest v
      else accuracy_loop api_hotel_map rest v
  end.

(** Validation 4, lines 111-138. *)
Definition blending_check (api_hotels response_text : pyval) (v : verdict)
  : result verdict :=
  text <- as_str response_text ;;
  let has_facts := any_in factual_indicators (lower text) in
  let has_reasoning := any_in reasoning_indicators (lower text) in
  let v := if has_facts then v else flag v Fusion_lacks_facts in
  if negb has_reasoning then
    n_api <- length api_hotels ;;
    Ok (if 1 <? n_api then note v Fusion_lacks_reasoning else v)
  else Ok v.

Definition validate_fusion_quality (api_data llm_response : pyval)
  : result (bool * list issue) :=
  response_text <- get llm_response "response_to_user" (PStr "") ;;
  llm_claims <- get llm_response "claims" (PDict []) ;;
  api_hotels <- get api_data "top_hotels" (PList []) ;;
  llm_hotels <- get llm_claims "top_hotels" (PList []) ;;
  let v : verdict := (true, []) in
  let v :=
    if truthy api_hotels && negb (truthy llm_hotels)
    then flag v Fusion_api_data_ignored else v in
  v <- (if truthy api_hotels && truthy llm_hotels
        then synthesis_check api_hotels llm_hotels response_text v
        else Ok v) ;;
  v <- (if truthy api_hotels && truthy llm_hotels then
          ahs <- iter api_hotels ;;
          api_hotel_map <- named_hotels ahs [] ;;
          lhs <- iter llm_hotels ;;
          accuracy_loop api_hotel_map lhs v
        else Ok v) ;;
  if truthy api_hotels && truthy response_text
  then blending_check api_hotels response_text v
  else Ok v.

(** The explanation [validate_meaningful_synthesis] returns with its flag. *)
Inductive explanation : Type :=
| No_api_data
| Meaningful_synthesis (found : list string)
| Basic_synthesis (found : string)
| Lacks_synthesis.

Definition synthesis_quality_indicators : list (string * list string) :=
  [("comparison", ["compare"; "versus"; "vs"; "better"; "best"; "difference"]);
   ("recommendation", ["recommend"; "suggest"; "consider"; "prefer"; "choose"]);
   ("context", ["because"; "since"; "for"; "if you"; "depending on"]);
   ("value_assessment", ["value"; "worth"; "excellent"; "great"; "good"; "affordable"])].

Definition validate_meaningful_synthesis (api_data llm_response : pyval)
  : result (bool * explanation) :=
  response_text <- get llm_response "response_to_user" (PStr "") ;;
  api_hotels <- get api_data "top_hotels" (PList []) ;;
  if negb (truthy api_hotels) then Ok (true, No_api_data)
  else
    text <- as_str response_text ;;
    let found_indicators :=
      map fst (filter (fun entry => any_in (snd entry) (lower text))
                      synthesis_quality_indicators) in
    Ok (match found_indicators with
        | [] => (false, Lacks_synthesis)
        | [one] => (true, Basic_synthesis one)
        | _ => (true, Meaningful_synthesis found_indicators)
        end).

Inductive grade_label : Type := Excellent | Good | Needs_Improvement.

Record quality : Type := {
  score : Z;
  is_valid : bool;
  is_meaningful : bool;
  synthesis_quality : explanation;
  issues : list issue;
  grade : grade_label
}.

(** Lines 190-196. *)
Definition fusion_score (is_valid is_meaningful : bool) (n_issues : Z) : Z :=
  let score := 100 in
  let score := if negb is_valid then score - 30 else score in
  let score := if negb is_meaningful then score - 20 else score in
  let score := score - n_issues * 5 in
  Z.max 0 score.

(** Line 204. *)
Definition grade_of (score : Z) : grade_label :=
  if 90 <=? score then Excellent
  else if 70 <=? score then Good
  else Needs_Improvement.

Definition get_fusion_quality_score (api_data llm_response : pyval) : result quality :=
  validity <- validate_fusion_quality api_data llm_response ;;
  synthesis <- validate_meaningful_synthesis api_data llm_response ;;
  let '(is_valid, issues) := validity in
  let '(is_meaningful, synthesis_explanation) := synthesis in
  let score := fusion_score is_valid is_meaningful (Z.of_nat (List.length issues)) in
  Ok {| score := score;
        is_valid := is_valid;
        is_meaningful := is_meaningful;
        synthesis_quality := synthesis_explanation;
        issues := issues;
        grade := grade_of score |}.

End DataFusionValidator.

(** ** [LLMEngine.chat] *)

Module LLMEngine.

Import HallucinationManager DataFusionValidator.

Record tool_call : Type := {
  id : string;
  function_name : string;
  arguments : string
}.

(** [response.choices[0].message] *)
Record response_message : Type := {
  content : string;
  tool_calls : list tool_call
}.

(** The entries of [messages]. The text of the system prompt depends on the
    date alone, the text of the correction directive on the count and the
    issues it quotes. *)
Inductive message : Type :=
| System_prompt (today : string)
| Role_content (role content : string)
| Assistant (m : response_message)
| Tool_output (tool_call_id name : string) (api_data : pyval)
| Correction (total_issues : Z) (quoted : list issue).

(** What the turn calls outside the process: the clock, the completion
    service with and without the tool declaration, the hotel search, and
    [json.loads] ([None] for [JSONDecodeError]). The completion service is
    taken as a function of the messages it is given: the calls of one turn
    are on different lists of messages, so any answers can be given. *)
Record world : Type := {
  today : string;
  create_with_tools : list message -> response_message;
  create : list message -> string;
  search_hotels : pyval -> pyval -> pyval -> result pyval;
  json_loads : string -> option pyval
}.

Inductive print_line : Type :=
| Fusion_report (q : quality) (fusion_is_valid : bool)
| Detection_report (s : summary)
| Warning_line (i : issue)
| Correction_still_has (n : Z)
| Correction_successful.

Inductive event : Type :=
| Completion_with_tools (messages : list message)
| Completion (messages : list message)
| Search (city check_in check_out : pyval)
| Printed (line : print_line).

(** A computation that logs what it does outside and may raise. *)
Definition M (A : Type) : Type := (list event * result A)%type.

Definition ret {A : Type} (a : A) : M A := ([], Ok a).
Definition emit (e : event) : M unit := ([e], Ok tt).
Definition emits (es : list event) : M unit := (es, Ok tt).
Definition lift {A : Type} (r : result A) : M A := ([], r).

Definition bindM {A B : Type} (m : M A) (k : A -> M B) : M B :=
  match m with
  | (log, Ok a) => let '(log', r) := k a in (log ++ log', r)
  | (log, Raise e) => (log, Raise e)
  end.

Notation "x <~ m ;; k" := (bindM m (fun x => k))
  (at level 61, m at next level, right associativity) : py_scope.
Notation "m ;;; k" := (bindM m (fun _ => k))
  (at level 61, right associativity) : py_scope.

(** [__init__], lines 14-24: the key handed to the client, from the values
    of [OPEN_AI_API_KEY] and [OPENAI_API_KEY] in the environment ([None] for
    a variable that is not set). *)
Definition __init__ (open_ai_api_key openai_api_key : option string) : result string :=
  let api_key :=
    match open_ai_api_key with
    | Some (String _ _) => open_ai_api_key
    | _ => openai_api_key
    end in
  let api_key :=
    match api_key with
    | Some (String _ _ as key) => Some (strip key)
    | _ => api_key
    end in
  match api_key with
  | Some (String _ _ as key) => Ok key
  | _ => Raise ValueError
  end.

(** [full_api_data.update(api_data)] *)
Definition update (full_api_data api_data : dict) : dict :=
  fold_left (fun acc kv => setitem (fst kv) (snd kv) acc) api_data full_api_data.

(** [history[-10:]] *)
Definition last10 {A : Type} (l : list A) : list A :=
  skipn (List.length l - 10) l.

(** One turn of the loop of lines 243-275. *)
Definition run_tool (w : world) (tc : tool_call) (full_api_data : dict)
  : M (dict * message) :=
  let function_args :=
    match json_loads w (arguments tc) with
    | Some v => v
    | None => PDict []
    end in
  api_data <~
    (if String.eqb (function_name tc) "search_hotels" then
       city <~ lift (get1 function_args "city") ;;
       check_in <~ lift (get1 function_args "check_in") ;;
       check_out <~ lift (get1 function_args "check_out") ;;
       emit (Search city check_in check_out) ;;;
       lift (search_hotels w city check_in check_out)
     else ret (PDict [("error", PStr "Tool not found")])) ;;
  match api_data with
  | PDict d =>
      d <~
        (match lookup "hotels" d with
         | Some hotels =>
             top <~ lift (slice_to 5 hotels) ;;
             ret [("top_hotels", top);
                  ("city", match lookup "city" d with Some c => c | None => PNone end)]
         | None => ret d
         end) ;;
      ret (update full_api_data d, Tool_output (id tc) (function_name tc) (PDict d))
  | _ => ret (full_api_data, Tool_output (id tc) (function_name tc) api_data)
  end.

Fixpoint run_tools (w : world) (tcs : list tool_call) (full_api_data : dict)
  (messages : list message) : M (dict * list message) :=
  match tcs with
  | [] => ret (full_api_data, messages)
  | tc :: rest =>
      step <~ run_tool w tc full_api_data ;;
      run_tools w rest (fst step) (messages ++ [snd step])
  end.

(** Lines 345-368: the correction round. *)
Definition correct (w : world) (messages : list message) (full_api_data : pyval)
  (s : summary) (all_issues : list issue) : M string :=
  let messages := messages ++ [Correction (total_issues s) (firstn 5 all_issues)] in
  emit (Completion messages) ;;;
  let corrected_json := create w messages in
  match json_loads w corrected_json with
  | None => ret corrected_json
  | Some corrected_data =>
      corrected_claims <~ lift (get corrected_data "claims" (PDict [])) ;;
      corrected_text <~ lift (get corrected_data "response_to_user" (PStr "")) ;;
      checked <~ lift (comprehensive_check full_api_data corrected_claims corrected_text) ;;
      let corrected_issues := fst checked in
      emit (Printed (match corrected_issues with
                     | [] => Correction_successful
                     | _ => Correction_still_has (count_of corrected_issues)
                     end)) ;;;
      ret corrected_json
  end.

(** Lines 278-373: the grounded answer, its checks and the correction. *)
Definition grounded_response (w : world) (messages : list message) (full_api_data : pyval)
  : M string :=
  emit (Completion messages) ;;;
  let final_json_str := create w messages in
  match json_loads w final_json_str with
  | None => ret final_json_str
  | Some final_data =>
      llm_claims <~ lift (get final_data "claims" (PDict [])) ;;
      response_text <~ lift (get final_data "response_to_user" (PStr "")) ;;
      checked <~ lift (comprehensive_check full_api_data llm_claims response_text) ;;
      let '(all_issues, detection_summary) := checked in
      fusion <~ lift (validate_fusion_quality full_api_data final_data) ;;
      let '(fusion_is_valid, fusion_issues) := fusion in
      fusion_quality_score <~ lift (get_fusion_quality_score full_api_data final_data) ;;
      all_issues <~
        (match fusion_issues with
         | [] => ret all_issues
         | _ =>
             emit (Printed (Fusion_report fusion_quality_score fusion_is_valid)) ;;;
             emits (map (fun i => Printed (Warning_line i)) fusion_issues) ;;;
             ret (if negb fusion_is_valid then all_issues ++ fusion_issues else all_issues)
         end) ;;
      match all_issues with
      | [] => ret final_json_str
      | _ =>
          emit (Printed (Detection_report detection_summary)) ;;;
          emits (map (fun i => Printed (Warning_line i)) all_issues) ;;;
          if has_critical_issues detection_summary
          then correct w messages full_api_data detection_summary all_issues
          else ret final_json_str
      end
  end.

Definition chat (w : world) (user_input : string) (history : list message) : M string :=
  let messages :=
    [System_prompt (today w)] ++ last10 history ++ [Role_content "user" user_input] in
  emit (Completion_with_tools messages) ;;;
  let response_message := create_with_tools w messages in
  match tool_calls response_message with
  | [] => ret (content response_message)
  | tcs =>
      let messages := messages ++ [Assistant response_message] in
      tools <~ run_tools w tcs [] messages ;;
      let '(full_api_data, messages) := tools in
      grounded_response w messages (PDict full_api_data)
  end.

(** The completion calls of a log, in order. *)
Definition completions (log : list event) : list (list message) :=
  flat_map (fun e => match e with Completion ms => [ms] | _ => [] end) log.

End LLMEngine.

(** ** [APIService]

    The provider is reached over the network: the model takes the outcome of
    the request as given. What the service prints is not modelled. *)

Module APIService.

Definition fadd (x y : float) : float := SFadd prec emax x y.

Definition f150 : float := Eval vm_compute in float_of_decimal 150 0.

Definition is_upper (c : ascii) : bool :=
  let n := nat_of_ascii c in ((65 <=? n) && (n <=? 90))%nat.

Definition is_lower (c : ascii) : bool :=
  let n := nat_of_ascii c in ((97 <=? n) && (n <=? 122))%nat.

Definition upper_char (c : ascii) : ascii :=
  if is_lower c then ascii_of_nat (nat_of_ascii c - 32) else c.

(** [s.title()]: a letter is upper-cased after a character that is not a
    letter and lower-cased after a letter. *)
Fixpoint title_from (after_letter : bool) (s : string) : string :=
  match s with
  | EmptyString => EmptyString
  | String c s' =>
      if is_upper c || is_lower c
      then String (if after_letter then lower_char c else upper_char c)
                  (title_from true s')
      else String c (title_from false s')
  end.

Definition title (s : string) : string := title_from false s.

Definition hex_upper (n : nat) : ascii :=
  ascii_of_nat (if (n <? 10)%nat then 48 + n else 55 + n).

(** The characters [urllib.parse.quote] keeps. *)
Definition is_safe (c : ascii) : bool :=
  is_upper c || is_lower c || is_digit c
  || Ascii.eqb c "_" || Ascii.eqb c "." || Ascii.eqb c "-"
  || Ascii.eqb c "~" || Ascii.eqb c "/".

(** [urllib.parse.quote(s)] *)
Fixpoint quote (s : string) : string :=
  match s with
  | EmptyString => EmptyString
  | String c s' =>
      (if is_safe c then String c ""
       else
         let n := nat_of_ascii c in
         String "%" (String (hex_upper (n / 16)) (String (hex_upper (n mod 16)) "")))
      ++ quote s'
  end.

(** The link built when the provider gives none. *)
Definition search_link (hotel_name city : pyval) : pyval :=
  PStr ("https://www.google.com/travel/hotels?q="
        ++ quote (str hotel_name ++ " " ++ str city))%string.

(** [ord(c)] *)
Definition ord (c : pyval) : result Z :=
  match c with
  | PStr (String a EmptyString) => Ok (Z.of_nat (nat_of_ascii a))
  | _ => Raise TypeError
  end.

(** [sum(ord(c) for c in v)] *)
Definition ord_sum (v : pyval) : result Z :=
  cs <- iter v ;;
  codes <- mapM ord cs ;;
  Ok (fold_left Z.add codes 0).

(** [key in v] *)
Definition contains_key (key : string) (v : pyval) : result bool :=
  match v with
  | PDict d => Ok (match lookup key d with Some _ => true | None => false end)
  | PList l =>
      Ok (existsb (fun x => match x with PStr s => String.eqb s key | _ => false end) l)
  | PStr s => Ok (contains key s)
  | _ => Raise TypeError
  end.

(** [v[key]] for a string key *)
Definition item (v : pyval) (key : string) : result pyval :=
  match v with
  | PDict d =>
      match lookup key d with
      | Some x => Ok x
      | None => Raise KeyError
      end
  | _ => Raise TypeError
  end.

Definition is_dict (v : pyval) : bool :=
  match v with PDict _ => true | _ => false end.

(** [a or b] *)
Definition or_else (a b : pyval) : pyval := if truthy a then a else b.

(** The rate read by lines 208-215: [extracted_lowest] of the entry under
    [key], when the entry is a dictionary that has one. *)
Definition extracted_lowest (hotel_data : pyval) (key : string) : result (option float) :=
  present <- contains_key key hotel_data ;;
  if present then
    rate <- item hotel_data key ;;
    if is_dict rate then
      has <- contains_key "extracted_lowest" rate ;;
      if has then
        lowest <- item rate "extracted_lowest" ;;
        x <- to_float lowest ;;
        Ok (Some x)
      else Ok None
    else Ok None
  else Ok None.

(** Lines 222-232: the [price] field, when it is a number or a string that
    converts once [$] and commas are removed. *)
Definition direct_price (hotel_data : pyval) : result (option float) :=
  present <- contains_key "price" hotel_data ;;
  if present then
    price <- item hotel_data "price" ;;
    match price with
    | PInt _ | PFloat _ | PBool _ =>
        x <- to_float price ;;
        Ok (Some x)
    | PStr s => Ok (float_of_str (strip (remove "," (remove "$" s))))
    | _ => Ok None
    end
  else Ok None.

(** Lines 234-236: the price made up from the name. *)
Definition default_price (hotel_data : pyval) : result float :=
  name <- get hotel_data "name" (PStr "") ;;
  total <- ord_sum name ;;
  let seed := total mod 20 in
  tens <- float_of_int (seed * 10) ;;
  Ok (fadd f150 tens).

Definition _extract_price (hotel_data : pyval) : result float :=
  nightly <- extracted_lowest hotel_data "rate_per_night" ;;
  match nightly with
  | Some x => Ok x
  | None =>
      total <- extracted_lowest hotel_data "total_rate" ;;
      match total with
      | Some x => Ok x
      | None =>
          ad <- contains_key "extracted_price" hotel_data ;;
          if ad then
            price <- item hotel_data "extracted_price" ;;
            to_float price
          else
            direct <- direct_price hotel_data ;;
            match direct with
            | Some x => Ok x
            | None => default_price hotel_data
            end
      end
  end.

(** One hotel of the placeholder data, lines 203-234. *)
Definition mock_hotel (name : string) (price : Z) (rating type address : string)
  (reviews : Z) (city : pyval) : pyval :=
  PDict [("name", PStr name);
         ("price", PInt price);
         ("rating", PStr rating);
         ("type", PStr type);
         ("address", PStr address);
         ("reviews", PInt reviews);
         ("link", search_link (PStr name) city)].

Definition _get_mock_hotels (city : pyval) : result pyval :=
  total <- ord_sum city ;;
  let seed := total mod 20 in
  let price_base := 150 + seed * 10 in
  let c := str city in
  let hotels_data :=
    [mock_hotel ("The " ++ c ++ " Grand Royale") price_base "4.5" "Luxury"
       ("Downtown " ++ c) 1200 city;
     mock_hotel (c ++ " Business Boutique") (price_base - 70) "4.2" "Business"
       ("City Center, " ++ c) 850 city;
     mock_hotel (c ++ " Comfort Inn") (price_base - 100) "4.0" "Mid-range"
       ("Near Airport, " ++ c) 650 city]%string in
  Ok (PDict [("hotels", PList hotels_data);
             ("source", PStr "Simulated (SerpAPI Key Missing)");
             ("city", city)]).

(** Lines 72-81 and 111-120: the address of a record, the city when it has
    none. *)
Definition address_of (record city : pyval) : result pyval :=
  location <- get record "location" (PDict []) ;;
  location_address <- (if is_dict location then get1 location "address" else Ok PNone) ;;
  a1 <- get1 record "address" ;;
  a2 <- get1 record "full_address" ;;
  a3 <- get1 record "neighborhood" ;;
  a4 <- get1 record "district" ;;
  Ok (or_else a1 (or_else a2 (or_else location_address (or_else a3 (or_else a4 city))))).

(** Lines 84-89 and 103-108: the link of a record, a search link when it has
    none. *)
Definition link_of (record city : pyval) : result pyval :=
  l1 <- get1 record "link" ;;
  l2 <- get1 record "website" ;;
  l3 <- get1 record "booking_link" ;;
  let link := or_else l1 (or_else l2 l3) in
  if negb (truthy link) then
    hotel_name <- get record "name" (PStr "") ;;
    Ok (search_link hotel_name city)
  else Ok link.

(** Lines 65-70: the lowest nightly rate of a property, else that of the
    whole stay. *)
Definition listed_price (prop : pyval) : result pyval :=
  nightly <- contains_key "rate_per_night" prop ;;
  price <-
    (if nightly then
       rate <- item prop "rate_per_night" ;;
       get1 rate "extracted_lowest"
     else Ok PNone) ;;
  if is_none price then
    total <- contains_key "total_rate" prop ;;
    if total then
      rate <- item prop "total_rate" ;;
      get1 rate "extracted_lowest"
    else Ok PNone
  else Ok price.

(** The hotel built from one property, lines 64-100. *)
Definition hotel_of_property (city prop : pyval) : result pyval :=
  price <- listed_price prop ;;
  address <- address_of prop city ;;
  link <- link_of prop city ;;
  name <- get prop "name" (PStr "Unknown Hotel") ;;
  price <- (if truthy price then Ok price
            else x <- _extract_price prop ;; Ok (PFloat x)) ;;
  rating <- get prop "overall_rating" (PStr "N/A") ;;
  type <- get prop "type" (PStr "hotel") ;;
  type <- as_str type ;;
  reviews <- get prop "reviews" (PInt 0) ;;
  Ok (PDict [("name", name);
             ("price", price);
             ("rating", rating);
             ("type", PStr (title type));
             ("address", address);
             ("reviews", reviews);
             ("link", link)]).

(** The hotel built from one sponsored result, lines 104-131. *)
Definition hotel_of_ad (city ad : pyval) : result pyval :=
  link <- link_of ad city ;;
  address <- address_of ad city ;;
  name <- get ad "name" (PStr "Unknown Hotel") ;;
  price <- get1 ad "extracted_price" ;;
  rating <- get ad "overall_rating" (PStr "N/A") ;;
  reviews <- get ad "reviews" (PInt 0) ;;
  Ok (PDict [("name", name);
             ("price", price);
             ("rating", rating);
             ("type", PStr "Hotel");
             ("address", address);
             ("reviews", reviews);
             ("link", link)]).

(** Whether line 132 keeps the hotel of a sponsored result. *)
Definition priced (hotel : pyval) : bool :=
  match get1 hotel "price" with
  | Ok price => truthy price
  | Raise _ => false
  end.

(** Lines 59-132: the hotels read from the provider's answer. *)
Definition parse_hotels (city data : pyval) : result (list pyval) :=
  has_properties <- contains_key "properties" data ;;
  hotels <-
    (if has_properties then
       properties <- item data "properties" ;;
       first5 <- slice_to 5 properties ;;
       props <- iter first5 ;;
       mapM (hotel_of_property city) props
     else Ok []) ;;
  has_ads <- contains_key "ads" data ;;
  if has_ads && (Z.of_nat (List.length hotels) <? 5) then
    ads <- item data "ads" ;;
    room <- slice_to (5 - List.length hotels) ads ;;
    ads <- iter room ;;
    sponsored <- mapM (hotel_of_ad city) ads ;;
    Ok (hotels ++ filter priced sponsored)
  else Ok hotels.

(** What the request of lines 51-57 comes to: a timeout, an error status,
    any other failure (the body not being JSON among them), or the decoded
    body. *)
Inductive response : Type :=
| Timed_out
| Error_status
| Failed
| Body (data : pyval).

(** [search_hotels], given the key of the service and the outcome of the
    request. Every failure on the way, an exception of the parsing included,
    ends in the placeholder data. *)
Definition search_hotels (serpapi_key : option string) (outcome : response)
  (city : pyval) : result pyval :=
  match serpapi_key with
  | Some (String _ _) =>
      match outcome with
      | Body data =>
          match parse_hotels city data with
          | Ok (h :: hs) =>
              Ok (PDict [("hotels", PList (h :: hs));
                         ("source", PStr "SerpAPI (Google Hotels)");
                         ("city", city)])
          | Ok [] => _get_mock_hotels city
          | Raise _ => _get_mock_hotels city
          end
      | _ => _get_mock_hotels city
      end
  | _ => _get_mock_hotels city
  end.

End APIService.

(** ** Vocabulary of the statements *)

Import HallucinationManager DataFusionValidator LLMEngine.

(** Payloads of the examples. *)
Definition hotel (name : string) (fields : dict) : pyval :=
  PDict (("name", PStr name) :: fields).

Definition top_hotels (hotels : list pyval) : pyval :=
  PDict [("top_hotels", PList hotels)].

Definition f4_5 : float := Eval vm_compute in float_of_decimal 45 (-1).
Definition f50 : float := Eval vm_compute in float_of_decimal 50 0.
Definition f100 : float := Eval vm_compute in float_of_decimal 100 0.

(** The messages only [verify_grounding] builds. *)
Definition grounding_message (i : issue) : bool :=
  match i with
  | Critical_no_api_results | Count_mismatch _ _ | Invalid_data_no_name
  | Hallucinated_hotel _ _ | Price_hallucination _ _ _ _
  | Invalid_price_format _ _ _ | Rating_hallucination _ _ _ _ => true
  | _ => false
  end.

(** The message of [verify_grounding] for a claim with a blank name. *)
Definition blank_name_message (i : issue) : bool :=
  match i with
  | Invalid_data_no_name => true
  | _ => false
  end.

(** The summary of a check that found these numbers of issues. *)
Definition summary_of (grounding consistency plausibility misinformation : Z) : summary :=
  let total := grounding + consistency + plausibility + misinformation in
  {| total_issues := total;
     grounding_issues := grounding;
     consistency_issues := consistency;
     plausibility_concerns := plausibility;
     misinformation_patterns := misinformation;
     has_critical_issues := 0 <? grounding;
     confidence := if total =? 0 then HIGH else LOW |}.

(** A claim with a blank name against one API hotel. *)
Definition one_api_hotel : pyval := top_hotels [hotel "Grand Hotel Paris" []].
Definition blank_claim : pyval := top_hotels [hotel "" []].

(** An integer beyond the range of a float. *)
Definition huge : Z := 10 ^ 400.

(** The rating test and the difference it reports, on the numbers read from
    the two ratings. *)
Definition ratings_contradict (llm_rating api_rating : pyval) : bool :=
  match rating_value llm_rating, rating_value api_rating with
  | Some a, Some b => fgt (fabs (fsub a b)) f0_1
  | _, _ => false
  end.

Definition rating_difference (llm_rating api_rating : pyval) : float :=
  match rating_value llm_rating, rating_value api_rating with
  | Some a, Some b => fabs (fsub a b)
  | _, _ => S754_nan
  end.

(** The similarity predicate in the words of the specification: one name
    holds the other and the shorter of the two is longer than 5. *)
Definition names_similar_spec (a b : string) : bool :=
  (contains a b || contains b a) && (5 <? Z.min (len a) (len b)).

Definition f400 : float := Eval vm_compute in float_of_decimal 400 0.

Definition f3 : float := Eval vm_compute in float_of_decimal 3 0.

(** The penalties of the score, as the specification words them. *)
Definition penalties (is_valid is_meaningful : bool) (n_issues : Z) : Z :=
  (if is_valid then 0 else 30) + (if is_meaningful then 0 else 20) + 5 * n_issues.

(** An answer that recommends a hotel of the API at its price. *)
Definition good_answer : pyval :=
  PDict [("response_to_user",
          PStr "I recommend the Grand Hotel Paris for its value, $150 a night");
         ("claims", top_hotels [hotel "Grand Hotel Paris" [("price", PInt 150)]])].

Definition one_priced_hotel : pyval :=
  top_hotels [hotel "Grand Hotel Paris" [("price", PInt 150)]].

Definition good_quality : quality :=
  {| score := 100;
     is_valid := true;
     is_meaningful := true;
     synthesis_quality :=
       Meaningful_synthesis ["recommendation"; "context"; "value_assessment"];
     issues := [];
     grade := Excellent |}.

(** Every character of the string passes the test. *)
Fixpoint all_chars (p : ascii -> bool) (s : string) : bool :=
  match s with
  | EmptyString => true
  | String c s' => p c && all_chars p s'
  end.

(** The float is not below zero: the test [x < 0] fails. *)
Definition not_negative (x : float) : Prop := flt x f0 = false.

(** Records the verifier handles: a dictionary whose name, if it has one, is
    a string, and whose price, if it is an integer, is in the range of a
    float (any other price converts or raises what line 116 catches). *)
Definition name_is_text (h : pyval) : bool :=
  match get h "name" (PStr "") with
  | Ok (PStr _) => true
  | _ => false
  end.

Definition price_in_range (h : pyval) : bool :=
  match get1 h "price" with
  | Ok price =>
      printable price
      && match to_float price with
         | Ok _ | Raise ValueError | Raise TypeError => true
         | Raise _ => false
         end
  | Raise _ => false
  end.

Definition record_ok (h : pyval) : bool := name_is_text h && price_in_range h.

(** The record has a name and it is a string. *)
Definition has_name (h : pyval) : bool :=
  match get1 h "name" with
  | Ok (PStr _) => true
  | _ => false
  end.

(** A claim whose name is JSON [null]. *)
Definition null_name_claim : pyval := top_hotels [PDict [("name", PNone)]].

(** An API record without a name, and a claim that matches no record. *)
Definition nameless_api_hotel : pyval := top_hotels [PDict [("price", PInt 150)]].
Definition unmatched_claim : pyval := top_hotels [hotel "Fake Hotel Name" []].

(** The issues the correction directive quotes from: the merged list, with
    the fusion issues when the fusion is not valid (lines 303-317). *)
Definition with_fusion_issues (all_issues : list issue) (fusion_is_valid : bool)
  (fusion_issues : list issue) : list issue :=
  if negb fusion_is_valid then all_issues ++ fusion_issues else all_issues.

(** The line printed after the check of the corrected answer. *)
Definition verdict_line (corrected_issues : list issue) : print_line :=
  match corrected_issues with
  | [] => Correction_successful
  | _ => Correction_still_has (count_of corrected_issues)
  end.

(** The verdict lines of a log. *)
Definition verdicts (log : list event) : list print_line :=
  flat_map (fun e =>
              match e with
              | Printed Correction_successful => [Correction_successful]
              | Printed (Correction_still_has n) => [Correction_still_has n]
              | _ => []
              end) log.

(** The messages of the first completion call of a turn. *)
Definition opening (w : world) (user_input : string) (history : list message)
  : list message :=
  [System_prompt (today w)] ++ last10 history ++ [Role_content "user" user_input].

(** A turn in Paris. The search finds one hotel at 5 a night; the first
    answer claims 50 for it, the corrected answer claims 5. *)
Definition paris_args : pyval := PDict [("city", PStr "Paris")].

Definition paris_search : pyval :=
  PDict [("hotels", PList [hotel "Budget Inn Paris" [("price", PInt 5)]]);
         ("source", PStr "SerpAPI (Google Hotels)");
         ("city", PStr "Paris")].

Definition answer (price : Z) : pyval :=
  PDict [("thought_process", PStr "search, then answer");
         ("response_to_user", PStr "I recommend Budget Inn Paris for its value.");
         ("claims",
          PDict [("city", PStr "Paris");
                 ("top_hotels", PList [hotel "Budget Inn Paris" [("price", PInt price)]])])].

Definition paris_tool_call : tool_call :=
  {| id := "call_1";
     function_name := "search_hotels";
     arguments := json_dumps paris_args |}.

Definition is_correction (m : message) : bool :=
  match m with
  | Correction _ _ => true
  | _ => false
  end.

Definition paris_world : world :=
  {| today := "2025-01-01";
     create_with_tools := fun _ => {| content := ""; tool_calls := [paris_tool_call] |};
     create := fun messages =>
       if existsb is_correction messages
       then json_dumps (answer 5) else json_dumps (answer 50);
     search_hotels := fun _ _ _ => Ok paris_search;
     json_loads := fun text =>
       if String.eqb text (json_dumps paris_args) then Some paris_args
       else if String.eqb text (json_dumps (answer 50)) then Some (answer 50)
       else if String.eqb text (json_dumps (answer 5)) then Some (answer 5)
       else None |}.

Definition f5_ : float := Eval vm_compute in float_of_decimal 5 0.

(** Payloads with malformed prices and ratings. *)
Definition odd_api : pyval :=
  top_hotels [hotel "Grand Hotel Paris" [("price", PInt 150); ("rating", PStr "N/A")]].

Definition odd_claims : pyval :=
  top_hotels [hotel "Grand Hotel Paris" [("price", PStr "cheap"); ("rating", PStr "great")];
              PDict [("price", PList [])]].

(** What lines 303-332 print. *)
Definition report_log (q : quality) (fusion_is_valid : bool)
  (fusion_issues : list issue) (s : summary) (all_issues : list issue) : list event :=
  match fusion_issues with
  | [] => []
  | _ => Printed (Fusion_report q fusion_is_valid)
         :: map (fun i => Printed (Warning_line i)) fusion_issues
  end
  ++ match all_issues with
     | [] => []
     | _ => Printed (Detection_report s)
            :: map (fun i => Printed (Warning_line i)) all_issues
     end.

(** The same turn with a generator that claims 5 from the start. *)
Definition clean_world : world :=
  {| today := today paris_world;
     create_with_tools := create_with_tools paris_world;
     create := fun _ => json_dumps (answer 5);
     search_hotels := search_hotels paris_world;
     json_loads := json_loads paris_world |}.

Definition paris_data : dict :=
  [("top_hotels", PList [hotel "Budget Inn Paris" [("price", PInt 5)]]);
   ("city", PStr "Paris")].

Definition paris_messages : list message :=
  [System_prompt "2025-01-01";
   Role_content "user" "hotels in Paris";
   Assistant {| content := ""; tool_calls := [paris_tool_call] |};
   Tool_output "call_1" "search_hotels" (PDict paris_data)].

Definition paris_claims (price : Z) : pyval :=
  PDict [("city", PStr "Paris");
         ("top_hotels", PList [hotel "Budget Inn Paris" [("price", PInt price)]])].

Definition paris_text : pyval :=
  PStr "I recommend Budget Inn Paris for its value.".

Definition f45 : float := Eval vm_compute in float_of_decimal 45 0.

Definition paris_quality : quality :=
  {| score := 60;
     is_valid := false;
     is_meaningful := true;
     synthesis_quality :=
       Meaningful_synthesis ["recommendation"; "context"; "value_assessment"];
     issues := [Fusion_price_modified (PStr "Budget Inn Paris") (PInt 5) (PInt 50);
                Fusion_lacks_facts];
     grade := Needs_Improvement |}.

(** The directive of the turn in Paris and the messages of its correction
    call. *)
Definition paris_directive : message :=
  Correction 1
    [Price_hallucination "Budget Inn Paris" (PInt 50) (PInt 5) f45;
     Fusion_price_modified (PStr "Budget Inn Paris") (PInt 5) (PInt 50);
     Fusion_lacks_facts].

(** The key under which the index files an API hotel: its name, lower-cased
    and stripped. *)
Definition index_key (ah : pyval) : option string :=
  match get ah "name" (PStr "") with
  | Ok (PStr s) => Some (strip (lower s))
  | _ => None
  end.

(** The last hotel of the list filed under the key. *)
Fixpoint last_with_key (k : string) (hs : list pyval) : option pyval :=
  match hs with
  | [] => None
  | h :: rest =>
      match last_with_key k rest with
      | Some h' => Some h'
      | None =>
          match index_key h with
          | Some k' => if String.eqb k k' then Some h else None
          | None => None
          end
      end
  end.

(** A record that can stand on both sides of the comparison: a dictionary
    with a name that is a string and not blank, and a price that is absent,
    [None] or converts to a float. *)
Definition clean_record (h : pyval) : bool :=
  match h with
  | PDict d =>
      match lookup "name" d with
      | Some (PStr s) => nonempty (strip s)
      | _ => false
      end
      && match lookup "price" d with
         | None | Some PNone => true
         | Some p => is_ok (to_float p)
         end
  | _ => false
  end.

Definition paris_mock : list pyval :=
  [hotel "The Paris Grand Royale" [("price", PInt 250); ("rating", PStr "4.5")];
   hotel "Paris Business Boutique" [("price", PInt 180); ("rating", PStr "4.2")];
   hotel "Paris Comfort Inn" [("price", PInt 150); ("rating", PStr "4.0")]].

(** A claim with a false name: absent, [None] or empty. *)
Definition nameless (h : pyval) : bool :=
  match get1 h "name" with
  | Ok name => negb (truthy name)
  | Raise _ => false
  end.

Definition duplicate_report (i : issue) : bool :=
  match i with
  | Duplicate_entries _ => true
  | _ => false
  end.

(** The issues of [validate_fusion_quality] that clear its flag; the others
    are warnings. *)
Definition invalidating (i : issue) : bool :=
  match i with
  | Fusion_api_data_ignored | Fusion_names_do_not_match
  | Fusion_no_api_hotel_mentioned | Fusion_price_modified _ _ _
  | Fusion_lacks_facts => true
  | _ => false
  end.

(** The flag agrees with the issues. *)
Definition coherent (v : verdict) : Prop :=
  fst v = negb (existsb invalidating (snd v)).

Definition listing : pyval :=
  PDict [("response_to_user", PStr "Grand Hotel Paris, Luxury Suites");
         ("claims", top_hotels [hotel "Grand Hotel Paris" [("price", PInt 200)]])].

Definition two_hotels : pyval :=
  top_hotels [hotel "Grand Hotel Paris" [("price", PInt 150)];
              hotel "Luxury Suites" [("price", PInt 250)]].

Definition listing_quality : quality :=
  {| score := 30;
     is_valid := false;
     is_meaningful := false;
     synthesis_quality := Lacks_synthesis;
     issues := [Fusion_no_meaningful_synthesis; Fusion_warning_more_synthesis;
                Fusion_price_modified (PStr "Grand Hotel Paris") (PInt 150) (PInt 200);
                Fusion_lacks_reasoning];
     grade := Needs_Improvement |}.

(** The completion calls made with the tool declaration, in order. *)
Definition tool_completions (log : list event) : list (list message) :=
  flat_map (fun e => match e with Completion_with_tools ms => [ms] | _ => [] end) log.

(** The printed lines of a log. *)
Definition printed (log : list event) : list print_line :=
  flat_map (fun e => match e with Printed line => [line] | _ => [] end) log.

(** The arguments of a tool call as line 246 reads them. *)
Definition function_args (w : world) (tc : tool_call) : pyval :=
  match json_loads w (arguments tc) with
  | Some v => v
  | None => PDict []
  end.

(** A search that finds seven hotels. *)
Definition seven_hotels : list pyval :=
  map (fun n => hotel n [("price", PInt 120)])
      ["Hotel A"; "Hotel B"; "Hotel C"; "Hotel D"; "Hotel E"; "Hotel F"; "Hotel G"].

Definition seven_world : world :=
  {| today := today paris_world;
     create_with_tools := create_with_tools paris_world;
     create := fun _ => "not json";
     search_hotels := fun _ _ _ =>
       Ok (PDict [("hotels", PList seven_hotels); ("city", PStr "Paris")]);
     json_loads := json_loads paris_world |}.

(** The fields of a hotel of the service, in the order it writes them. *)
Definition hotel_fields : list string :=
  ["name"; "price"; "rating"; "type"; "address"; "reviews"; "link"].

(** A hotel as the service returns it: a dictionary of the seven fields,
    with a link that is not false. *)
Definition is_hotel (h : pyval) : bool :=
  match h with
  | PDict d =>
      (if list_eq_dec string_dec (map fst d) hotel_fields then true else false)
      && match lookup "link" d with
         | Some link => truthy link
         | None => false
         end
  | _ => false
  end.

(** The world in which the hotel search is the service, with its key;
    [request] is what the provider does with the request for a city and its
    dates. *)
Definition with_service (w : world) (serpapi_key : option string)
  (request : pyval -> pyval -> pyval -> APIService.response) : world :=
  {| today := today w;
     create_with_tools := create_with_tools w;
     create := create w;
     search_hotels := fun city check_in check_out =>
       APIService.search_hotels serpapi_key (request city check_in check_out) city;
     json_loads := json_loads w |}.

(** A value [for c in v] cannot visit: [None], a number, a truth value. *)
Definition not_iterable (v : pyval) : bool :=
  match v with
  | PNone | PBool _ | PInt _ | PFloat _ => true
  | _ => false
  end.

Definition live_source : string := "SerpAPI (Google Hotels)".
Definition simulated_source : string := "Simulated (SerpAPI Key Missing)".

(** A search asked for with no argument, in a world whose service has no
    key. *)
Definition cityless_tool_call : tool_call :=
  {| id := "call_1"; function_name := "search_hotels"; arguments := "{}" |}.

Definition cityless_world : world :=
  with_service
    {| today := "2025-01-01";
       create_with_tools := fun _ => {| content := ""; tool_calls := [cityless_tool_call] |};
       create := fun _ => "{}";
       search_hotels := fun _ _ _ => Raise KeyError;
       json_loads := fun text => if String.eqb text "{}" then Some (PDict []) else None |}
    None (fun _ _ _ => APIService.Timed_out).

(** The last [k] characters of a string. *)
Definition last_chars (k : nat) (s : string) : string :=
  String.substring (String.length s - k) k s.

(** The message for claims made when the API gave no hotel. *)
Definition no_results_message (i : issue) : bool :=
  match i with
  | Critical_no_api_results => true
  | _ => false
  end.


(** The least integer that Python does not write: 4301 digits. *)
Definition unwritable : Z := str_limit.



(** The similarity of line 84, written out: one name holds the other and the
    claimed name is longer than 5. *)
Definition similar (name_key api_name : string) : Prop :=
  (contains name_key api_name = true \/ contains api_name name_key = true)
  /\ 5 < len name_key.

(** A turn in Paris whose first answer claims a hotel without a name; the
    corrected answer is that of the turn in Paris. *)
Definition nameless_claims : pyval :=
  PDict [("city", PStr "Paris");
         ("top_hotels", PList [hotel "" [("price", PInt 5)]])].

Definition nameless_answer : pyval :=
  PDict [("thought_process", PStr "search, then answer");
         ("response_to_user", PStr "I recommend Budget Inn Paris for its value.");
         ("claims", nameless_claims)].

Definition nameless_world : world :=
  {| today := today paris_world;
     create_with_tools := create_with_tools paris_world;
     create := fun messages =>
       if existsb is_correction messages
       then json_dumps (answer 5) else json_dumps nameless_answer;
     search_hotels := search_hotels paris_world;
     json_loads := fun text =>
       if String.eqb text (json_dumps nameless_answer) then Some nameless_answer
       else json_loads paris_world text |}.

(** A turn in Paris whose answer has a number for a text and a price that
    contradicts the API. *)
Definition numeric_text_answer : pyval :=
  PDict [("thought_process", PStr "search, then answer");
         ("response_to_user", PInt 7);
         ("claims", paris_claims 50)].

Definition numeric_text_world : world :=
  {| today := today paris_world;
     create_with_tools := create_with_tools paris_world;
     create := fun _ => json_dumps numeric_text_answer;
     search_hotels := search_hotels paris_world;
     json_loads := fun text =>
       if String.eqb text (json_dumps numeric_text_answer) then Some numeric_text_answer
       else json_loads paris_world text |}.

(** * Properties *)

(** ** Reasoning about fallible computations *)

Lemma bind_ok {A B : Type} (m : result A) (k : A -> result B) (b : B) :
  bind m k = Ok b -> exists a, m = Ok a /\ k a = Ok b.
Proof.
  destruct m as [a|e]; simpl; intros H; [eauto | discriminate].
Qed.

(** Splits the first [bind] of a hypothesis that says a computation returned. *)
Ltac bind_inv H :=
  let a := fresh "x" in
  let Ha := fresh "E" in
  apply bind_ok in H; destruct H as (a & Ha & H).

Ltac binds_inv H := repeat bind_inv H.

Lemma Ok_inj {A : Type} (a b : A) : Ok a = Ok b -> a = b.
Proof. intros H. now inversion H. Qed.

(** ** Examples of the specification, run on the model *)

Example grand_hotel_price :
  verify_grounding
    (top_hotels [hotel "Grand Hotel Paris" [("price", PInt 150); ("rating", PFloat f4_5)]])
    (top_hotels [hotel "Grand Hotel Paris" [("price", PInt 200); ("rating", PFloat f4_5)]])
  = Ok [Price_hallucination "Grand Hotel Paris" (PInt 200) (PInt 150) f50].
Proof. vm_compute. reflexivity. Qed.

Example fake_hotel_name :
  verify_grounding
    (top_hotels [hotel "Grand Hotel Paris" [("price", PInt 150)]])
    (top_hotels [hotel "Fake Hotel Name" [("price", PInt 150)]])
  = Ok [Hallucinated_hotel "Fake Hotel Name" ["Grand Hotel Paris"]].
Proof. vm_compute. reflexivity. Qed.

Example same_prices :
  let hotels := [hotel "Alpha Hotel" [("price", PInt 100)];
                 hotel "Beta Hotel" [("price", PInt 100)];
                 hotel "Gamma Hotel" [("price", PInt 100)]] in
  verify_grounding (top_hotels hotels) (top_hotels hotels) = Ok []
  /\ check_plausibility (top_hotels hotels)
     = Ok [Same_price f100].
Proof. vm_compute. split; reflexivity. Qed.

(** ** C1: no facts, some claims *)

(** C1. When the API data hold no hotels ([api_hotels] is empty, absent or
    otherwise false) and the claims hold some, [verify_grounding] returns
    exactly one issue, of kind HallucinatedEntity, whatever the claimed
    hotels are: no claimed hotel is looked at. *)
Theorem verify_grounding_no_api_hotels :
  forall api_data llm_claims api_hotels llm_hotels,
    get api_data "top_hotels" (PList []) = Ok api_hotels ->
    claimed_hotels llm_claims = Ok llm_hotels ->
    truthy api_hotels = false ->
    truthy llm_hotels = true ->
    verify_grounding api_data llm_claims = Ok [Critical_no_api_results]
    /\ map kind_of [Critical_no_api_results] = [Some HallucinatedEntity].
Proof.
  intros api_data llm_claims api_hotels llm_hotels Hapi Hllm Hempty Hsome.
  split; [| reflexivity].
  unfold verify_grounding.
  rewrite Hllm; simpl. rewrite Hapi; simpl.
  rewrite Hempty, Hsome. reflexivity.
Qed.

Lemma verify_grounding_no_api_hotels_witness :
  verify_grounding (top_hotels []) (top_hotels [hotel "Anything" []])
  = Ok [Critical_no_api_results]
  /\ map kind_of [Critical_no_api_results] = [Some HallucinatedEntity].
Proof.
  apply (verify_grounding_no_api_hotels
           (top_hotels []) (top_hotels [hotel "Anything" []])
           (PList []) (PList [hotel "Anything" []]));
    reflexivity.
Defined.

(** ** C3: the summary of [comprehensive_check] *)

(** Takes apart a hypothesis [H : c = Ok v] along the binds and tests of [c]. *)
Ltac break_ok H :=
  repeat first
    [ discriminate H
    | match type of H with
      | Ok _ = Ok _ => inversion H; subst; clear H
      | bind _ _ = Ok _ => bind_inv H
      | context [match ?x with _ => _ end] => destruct x eqn:?
      end ].

(** Decides the tests left in the goal. *)
Ltac split_ifs :=
  repeat match goal with
         | |- context [if ?b then _ else _] => destruct b eqn:?
         end.

Lemma grounding_message_spec (i : issue) :
  grounding_message i = is_critical i || blank_name_message i.
Proof. destruct i; reflexivity. Qed.

Lemma check_price_messages llm_name lh match_ l :
  check_price llm_name lh match_ = Ok l -> forallb grounding_message l = true.
Proof. unfold check_price; intros H; break_ok H; split_ifs; reflexivity. Qed.

Lemma check_rating_messages llm_name lh match_ l :
  check_rating llm_name lh match_ = Ok l -> forallb grounding_message l = true.
Proof. unfold check_rating; intros H; break_ok H; split_ifs; reflexivity. Qed.

Lemma field_checks_messages llm_name lh match_ l :
  field_checks llm_name lh match_ = Ok l -> forallb grounding_message l = true.
Proof.
  unfold field_checks; intros H; break_ok H.
  rewrite forallb_app.
  erewrite check_price_messages, check_rating_messages by eassumption.
  reflexivity.
Qed.

Lemma verify_hotel_messages api_hotels api_hotel_map lh l :
  verify_hotel api_hotels api_hotel_map lh = Ok l ->
  forallb grounding_message l = true.
Proof.
  unfold verify_hotel, report_hallucinated; intros H; break_ok H;
    solve [ reflexivity | eapply field_checks_messages; eassumption ].
Qed.

Lemma verify_hotels_messages api_hotels api_hotel_map lhs :
  forall l, verify_hotels api_hotels api_hotel_map lhs = Ok l ->
            forallb grounding_message l = true.
Proof.
  induction lhs as [| lh rest IH]; simpl; intros l H; break_ok H.
  - reflexivity.
  - rewrite forallb_app. erewrite verify_hotel_messages by eassumption.
    now rewrite IH.
Qed.

Lemma count_validation_messages llm_hotels api_hotels l :
  count_validation llm_hotels api_hotels = Ok l ->
  forallb grounding_message l = true.
Proof. unfold count_validation; intros H; break_ok H; split_ifs; reflexivity. Qed.

Lemma verify_grounding_messages api_data llm_claims l :
  verify_grounding api_data llm_claims = Ok l ->
  forallb grounding_message l = true.
Proof.
  unfold verify_grounding; intros H; break_ok H;
    try rewrite forallb_app;
    try erewrite count_validation_messages by eassumption;
    try erewrite verify_hotels_messages by eassumption;
    split_ifs; reflexivity.
Qed.

(** The other checkers build none of the grounding messages. *)

Lemma missing_names_messages hotels :
  forall i l, missing_names i hotels = Ok l ->
              forallb (fun x => negb (grounding_message x)) l = true.
Proof.
  induction hotels as [| h rest IH]; simpl; intros i l H; break_ok H.
  - reflexivity.
  - rewrite forallb_app.
    match goal with E : missing_names _ _ = Ok _ |- _ => rewrite (IH _ _ E) end.
    split_ifs; reflexivity.
Qed.

Lemma negative_price_messages hotel l :
  negative_price hotel = Ok l ->
  forallb (fun x => negb (grounding_message x)) l = true.
Proof. unfold negative_price; intros H; break_ok H; split_ifs; reflexivity. Qed.

Lemma rating_range_messages hotel l :
  rating_range hotel = Ok l ->
  forallb (fun x => negb (grounding_message x)) l = true.
Proof.
  unfold rating_range, normalize_rating, format; intros H; break_ok H;
    split_ifs; reflexivity.
Qed.

Lemma logical_inconsistencies_messages hotels :
  forall l, logical_inconsistencies hotels = Ok l ->
            forallb (fun x => negb (grounding_message x)) l = true.
Proof.
  induction hotels as [| h rest IH]; simpl; intros l H; break_ok H.
  - reflexivity.
  - rewrite !forallb_app.
    erewrite negative_price_messages, rating_range_messages, IH by eassumption.
    reflexivity.
Qed.

Lemma check_consistency_messages llm_claims l :
  check_consistency llm_claims = Ok l ->
  forallb (fun x => negb (grounding_message x)) l = true.
Proof.
  unfold check_consistency; intros H; break_ok H;
    rewrite !forallb_app;
    match goal with
    | E1 : missing_names _ _ = Ok _, E2 : logical_inconsistencies _ = Ok _ |- _ =>
        rewrite (missing_names_messages _ _ _ E1),
                (logical_inconsistencies_messages _ _ E2)
    end;
    destruct (filter _ _); reflexivity.
Qed.

Lemma check_plausibility_messages llm_claims l :
  check_plausibility llm_claims = Ok l ->
  forallb (fun x => negb (grounding_message x)) l = true.
Proof.
  unfold check_plausibility; intros H.
  bind_inv H. destruct (negb (truthy x)); [inversion H; reflexivity |].
  bind_inv H. bind_inv H. destruct x1 as [prices ratings].
  inversion H; subst; clear H.
  destruct prices, ratings; simpl; rewrite ?forallb_app; simpl;
    split_ifs; reflexivity.
Qed.

Lemma detect_misinformation_patterns_messages response_text api_data l :
  detect_misinformation_patterns response_text api_data = Ok l ->
  forallb (fun x => negb (grounding_message x)) l = true.
Proof.
  unfold detect_misinformation_patterns; intros H.
  bind_inv H. destruct (negb (truthy x)); [| inversion H; reflexivity].
  bind_inv H.
  destruct (first_pattern overconfident_patterns x0),
           (first_pattern vague_data_patterns x0),
           (findall_prices None x0);
    inversion H; reflexivity.
Qed.

Lemma count_of_pos (l : list issue) :
  (0 <? count_of l) = true <-> l <> [].
Proof.
  unfold count_of. destruct l; simpl; split; intros H; easy.
Qed.

Lemma forallb_exists_grounding (l : list issue) :
  forallb grounding_message l = true -> l <> [] ->
  exists i, In i l /\ grounding_message i = true.
Proof.
  destruct l as [| i l]; [easy |]. simpl. intros H _.
  apply andb_prop in H. exists i. tauto.
Qed.

(** C3, as the code has it. The flag [has_critical_issues] of the summary is
    true exactly when the merged list holds an issue of kind
    HallucinatedEntity, PriceContradiction, RatingContradiction, CountMismatch
    or InvalidFormat, or the verifier's message for a claim with a blank name
    (kind MissingName): exactly when [verify_grounding] reported something.
    The confidence is HIGH exactly when the merged list is empty, LOW
    otherwise. *)
Theorem comprehensive_check_summary :
  forall api_data llm_claims response_text all_issues s,
    comprehensive_check api_data llm_claims response_text = Ok (all_issues, s) ->
    (has_critical_issues s = true <->
     exists i, In i all_issues /\ (is_critical i = true \/ i = Invalid_data_no_name))
    /\ (has_critical_issues s = true <->
        exists grounding, verify_grounding api_data llm_claims = Ok grounding
                          /\ grounding <> [])
    /\ total_issues s = Z.of_nat (List.length all_issues)
    /\ (confidence s = HIGH <-> total_issues s = 0)
    /\ (confidence s = LOW <-> total_issues s <> 0).
Proof.
  intros api_data llm_claims response_text all_issues s H.
  unfold comprehensive_check in H.
  bind_inv H. rename x into grounding, E into Hg.
  bind_inv H. rename x into consistency, E into Hc.
  bind_inv H. rename x into plausibility, E into Hp.
  bind_inv H. rename x into misinformation, E into Hm.
  inversion H; subst; clear H; simpl.
  assert (Ho : forallb (fun x => negb (grounding_message x))
                 (consistency ++ plausibility ++ misinformation) = true).
  { rewrite !forallb_app.
    erewrite check_consistency_messages, check_plausibility_messages by eassumption.
    destruct (truthy response_text).
    - erewrite detect_misinformation_patterns_messages by eassumption. reflexivity.
    - inversion Hm. reflexivity. }
  pose proof (verify_grounding_messages _ _ _ Hg) as Hgm.
  repeat split.
  - intros Hpos. apply count_of_pos in Hpos.
    destruct (forallb_exists_grounding _ Hgm Hpos) as (i & Hin & Hi).
    exists i. split; [apply in_or_app; now left |].
    rewrite grounding_message_spec in Hi. apply orb_prop in Hi.
    destruct Hi as [Hi | Hi]; [now left | right].
    destruct i; simpl in Hi; try discriminate; reflexivity.
  - intros (i & Hin & Hi). apply count_of_pos.
    assert (Hgi : grounding_message i = true).
    { rewrite grounding_message_spec.
      destruct Hi as [-> | ->]; [reflexivity | apply orb_true_r]. }
    apply in_app_or in Hin. destruct Hin as [Hin | Hin].
    + intros ->. inversion Hin.
    + rewrite forallb_forall in Ho. apply Ho in Hin.
      rewrite Hgi in Hin. discriminate.
  - intros Hpos. exists grounding. split; [exact Hg |]. now apply count_of_pos.
  - intros (g & Hg' & Hne). rewrite Hg in Hg'. inversion Hg'; subst.
    now apply count_of_pos.
  - destruct (count_of _ =? 0) eqn:Hz; [intros _; now apply Z.eqb_eq | discriminate].
  - intros Hz. apply Z.eqb_eq in Hz. now rewrite Hz.
  - destruct (count_of _ =? 0) eqn:Hz; [discriminate | intros _; now apply Z.eqb_neq].
  - intros Hz. apply Z.eqb_neq in Hz. now rewrite Hz.
Qed.

Lemma comprehensive_check_summary_witness :
  (has_critical_issues (summary_of 1 0 0 0) = true <->
   exists i, In i [Price_hallucination "Grand Hotel Paris" (PInt 200) (PInt 150) f50]
             /\ (is_critical i = true \/ i = Invalid_data_no_name))
  /\ (has_critical_issues (summary_of 1 0 0 0) = true <->
      exists grounding,
        verify_grounding
          (top_hotels [hotel "Grand Hotel Paris" [("price", PInt 150)]])
          (top_hotels [hotel "Grand Hotel Paris" [("price", PInt 200)]]) = Ok grounding
        /\ grounding <> [])
  /\ total_issues (summary_of 1 0 0 0) = 1
  /\ (confidence (summary_of 1 0 0 0) = HIGH <-> total_issues (summary_of 1 0 0 0) = 0)
  /\ (confidence (summary_of 1 0 0 0) = LOW <-> total_issues (summary_of 1 0 0 0) <> 0).
Proof.
  apply (comprehensive_check_summary
           (top_hotels [hotel "Grand Hotel Paris" [("price", PInt 150)]])
           (top_hotels [hotel "Grand Hotel Paris" [("price", PInt 200)]])
           (PStr "")).
  vm_compute. reflexivity.
Defined.

(** C3 as stated fails: a claim with a blank name sets the flag although no
    issue of the merged list has one of the five critical kinds. *)
Lemma blank_name_sets_critical_flag :
  comprehensive_check one_api_hotel blank_claim (PStr "")
  = Ok ([Invalid_data_no_name; Missing_name_field 0], summary_of 1 1 0 0)
  /\ has_critical_issues (summary_of 1 1 0 0) = true
  /\ existsb is_critical [Invalid_data_no_name; Missing_name_field 0] = false.
Proof. vm_compute. repeat split; reflexivity. Qed.

(** ** C4: prices of a matched pair *)

(** What [check_price] does for a pair that provides both prices, by the
    outcome of the two conversions; a message writes both prices, and raises
    when one cannot be written. *)
Lemma check_price_spec llm_name lh match_ llm_price api_price :
  get1 lh "price" = Ok llm_price ->
  get1 match_ "price" = Ok api_price ->
  is_none llm_price = false ->
  is_none api_price = false ->
  check_price llm_name lh match_ =
  match to_float llm_price, to_float api_price with
  | Ok a, Ok b =>
      if fgt (fabs (fsub a b)) f1
      then if printable llm_price && printable api_price
           then Ok [Price_hallucination llm_name llm_price api_price
                      (fabs (fsub a b))]
           else Raise ValueError
      else Ok []
  | Raise ValueError, _ | Raise TypeError, _
  | Ok _, Raise ValueError | Ok _, Raise TypeError =>
      if printable llm_price && printable api_price
      then Ok [Invalid_price_format llm_name llm_price api_price]
      else Raise ValueError
  | Raise e, _ | Ok _, Raise e => Raise e
  end.
Proof.
  intros Hl Ha Hln Han. unfold check_price, format.
  rewrite Hl; cbn [bind]. rewrite Ha; cbn [bind]. rewrite Hln, Han; cbn [negb andb].
  destruct (to_float llm_price) as [a | []]; cbn [bind]; try reflexivity;
    try (destruct (printable llm_price), (printable api_price); reflexivity);
    destruct (to_float api_price) as [b | []]; cbn [bind]; try reflexivity;
    try destruct (fgt _ _);
    destruct (printable llm_price), (printable api_price); reflexivity.
Qed.

(** A missing price on either side is never an issue. *)
Lemma check_price_absent llm_name lh match_ llm_price api_price :
  get1 lh "price" = Ok llm_price ->
  get1 match_ "price" = Ok api_price ->
  is_none llm_price || is_none api_price = true ->
  check_price llm_name lh match_ = Ok [].
Proof.
  intros Hl Ha Hn. unfold check_price.
  rewrite Hl; simpl. rewrite Ha; simpl.
  destruct (is_none llm_price), (is_none api_price); simpl in *;
    try discriminate; reflexivity.
Qed.

(** C4 at an integer price too large for a float: the conversion raises
    [OverflowError], which the handler of lines 116-121 does not catch, so the
    verifier raises where the claim has it report an issue. *)
Theorem price_overflow_raises :
  verify_grounding
    (top_hotels [hotel "Grand Hotel Paris" [("price", PInt 150)]])
    (top_hotels [hotel "Grand Hotel Paris" [("price", PInt huge)]])
  = Raise OverflowError.
Proof. vm_compute. reflexivity. Qed.

(** ** C5: ratings of a matched pair *)

(** What [check_rating] returns for a pair, by the truth of the two ratings
    and the numbers read from them. *)
Lemma check_rating_result llm_name lh match_ llm_rating api_rating :
  get1 lh "rating" = Ok llm_rating ->
  get1 match_ "rating" = Ok api_rating ->
  check_rating llm_name lh match_ =
    Ok (if truthy llm_rating && truthy api_rating
           && ratings_contradict llm_rating api_rating
        then [Rating_hallucination llm_name llm_rating api_rating
                (rating_difference llm_rating api_rating)]
        else []).
Proof.
  intros Hl Ha.
  unfold check_rating, ratings_contradict, rating_difference, rating_value.
  rewrite Hl; cbn [bind]. rewrite Ha; cbn [bind].
  destruct (truthy llm_rating), (truthy api_rating); cbn [andb]; try reflexivity.
  unfold normalize_rating, format.
  destruct (printable llm_rating); cbn [bind]; [| reflexivity].
  destruct (printable api_rating); cbn [bind].
  - destruct (search_number (strip (remove "stars" (remove "star" (str llm_rating)))))
      as [lt |]; [| reflexivity].
    destruct (search_number (strip (remove "stars" (remove "star" (str api_rating)))))
      as [at_ |]; [| destruct (float_of_str lt); reflexivity].
    destruct (float_of_str lt) as [a |]; [| reflexivity].
    destruct (float_of_str at_) as [b |]; reflexivity.
  - destruct (search_number (strip (remove "stars" (remove "star" (str llm_rating)))))
      as [lt |]; [| reflexivity].
    destruct (float_of_str lt); reflexivity.
Qed.











(** ** C6: fuzzy matching of names *)

Lemma names_similar_iff name_key api_name :
  names_similar name_key api_name = true <-> similar name_key api_name.
Proof.
  unfold names_similar, similar.
  rewrite andb_true_iff, orb_true_iff, Z.ltb_lt. reflexivity.
Qed.

(** The fuzzy search returns the first similar entry of the index. *)
Lemma fuzzy_match_first name_key items api_hotel :
  fuzzy_match name_key items = Some api_hotel <->
  exists before api_name after,
    items = before ++ (api_name, api_hotel) :: after
    /\ similar name_key api_name
    /\ forall k v, In (k, v) before -> ~ similar name_key k.
Proof.
  induction items as [| [k v] rest IH]; cbn [fuzzy_match].
  - split; [discriminate |].
    intros (before & api_name & after & Heq & _). destruct before; discriminate.
  - destruct (names_similar name_key k) eqn:Hk.
    + split.
      * intros H. inversion H; subst. exists [], k, rest.
        split; [reflexivity |]. split; [now apply names_similar_iff |].
        intros k' v' [].
      * intros (before & api_name & after & Heq & Hs & Hnone).
        destruct before as [| [k' v'] before'].
        -- cbn in Heq. now inversion Heq.
        -- cbn in Heq. inversion Heq; subst. exfalso.
           apply (Hnone k' v'); [now left | now apply names_similar_iff].
    + rewrite IH. split.
      * intros (before & api_name & after & -> & Hs & Hnone).
        exists ((k, v) :: before), api_name, after.
        split; [reflexivity |]. split; [exact Hs |].
        intros k' v' [Heq | Hin].
        -- inversion Heq; subst. rewrite <- names_similar_iff. congruence.
        -- eapply Hnone; eassumption.
      * intros (before & api_name & after & Heq & Hs & Hnone).
        destruct before as [| [k' v'] before'].
        -- cbn in Heq. inversion Heq; subst.
           apply names_similar_iff in Hs. congruence.
        -- cbn in Heq. inversion Heq; subst.
           exists before', api_name, after.
           split; [reflexivity |]. split; [exact Hs |].
           intros k2 v2 Hin. apply (Hnone k2 v2). now right.
Qed.

Lemma fuzzy_match_none name_key items :
  fuzzy_match name_key items = None <->
  forall k v, In (k, v) items -> ~ similar name_key k.
Proof.
  induction items as [| [k v] rest IH]; cbn [fuzzy_match].
  - split; [intros _ k v [] | reflexivity].
  - destruct (names_similar name_key k) eqn:Hk.
    + split; [discriminate |]. intros H. exfalso.
      apply (H k v); [now left | now apply names_similar_iff].
    + rewrite IH. split.
      * intros H k' v' [Heq | Hin]; [| now apply (H k' v')].
        inversion Heq; subst. rewrite <- names_similar_iff. congruence.
      * intros H k' v' Hin. apply (H k' v'). now right.
Qed.

(** C6, as the code has it. A claimed name and a name of the index are
    similar when one holds the other and the claimed name is longer than 5.
    For a claimed name with no entry of its own in the index, the hotel is
    checked against the first similar entry, in the order of the index, and
    reported as hallucinated exactly when no entry is similar. The test
    agrees with the predicate of the specification when the claimed name is
    not the longer of the two, and it is symmetric on names that are both
    longer than 5. *)
Theorem fuzzy_match_first_similar :
  forall name_key api_hotel_map,
    (forall api_hotel,
        fuzzy_match name_key api_hotel_map = Some api_hotel <->
        exists before api_name after,
          api_hotel_map = before ++ (api_name, api_hotel) :: after
          /\ similar name_key api_name
          /\ forall k v, In (k, v) before -> ~ similar name_key k)
    /\ (fuzzy_match name_key api_hotel_map = None <->
        forall k v, In (k, v) api_hotel_map -> ~ similar name_key k)
    /\ (forall api_hotels lh name,
          get lh "name" (PStr "") = Ok (PStr name) ->
          nonempty (strip name) = true ->
          name_key = lower (strip name) ->
          lookup name_key api_hotel_map = None ->
          verify_hotel api_hotels api_hotel_map lh
          = match fuzzy_match name_key api_hotel_map with
            | Some api_hotel => field_checks (strip name) lh api_hotel
            | None => report_hallucinated api_hotels (strip name)
            end)
    /\ (forall api_name,
          len name_key <= len api_name ->
          (similar name_key api_name <->
           names_similar_spec name_key api_name = true))
    /\ (forall api_name,
          5 < len name_key -> 5 < len api_name ->
          (similar name_key api_name <-> similar api_name name_key)).
Proof.
  intros name_key api_hotel_map.
  split; [| split; [| split; [| split]]].
  - intros api_hotel. apply fuzzy_match_first.
  - apply fuzzy_match_none.
  - intros api_hotels lh name Hname Hne -> Hl. unfold verify_hotel.
    rewrite Hname. cbn [bind as_str]. rewrite Hne, Hl. reflexivity.
  - intros api_name Hle. rewrite <- names_similar_iff.
    unfold names_similar, names_similar_spec. now rewrite Z.min_l.
  - intros api_name Ha Hb. unfold similar. tauto.
Qed.

(** Two API names hold the claimed name: the first of the index is the one
    the claim is checked against. *)
Example first_similar_hotel_is_checked :
  verify_grounding
    (top_hotels [hotel "Grand Hotel Paris East" [("price", PInt 100)];
                 hotel "Grand Hotel Paris West" [("price", PInt 150)]])
    (top_hotels [hotel "Grand Hotel Paris" [("price", PInt 150)]])
  = Ok [Price_hallucination "Grand Hotel Paris" (PInt 150) (PInt 100) f50].
Proof. vm_compute. reflexivity. Qed.

(** C6 as stated fails: the guard is on the claimed name, not on the shorter
    name, so a long claimed name matches a short name it holds, and the test
    is not symmetric. *)
Lemma similarity_guard_on_claimed_name :
  names_similar "holiday inn express" "inn" = true
  /\ names_similar_spec "holiday inn express" "inn" = false
  /\ names_similar "inn" "holiday inn express" = false
  /\ verify_grounding
       (top_hotels [hotel "Inn" [("price", PInt 100)]])
       (top_hotels [hotel "Holiday Inn Express" [("price", PInt 500)]])
     = Ok [Price_hallucination "Holiday Inn Express" (PInt 500) (PInt 100) f400].
Proof. vm_compute. repeat split; reflexivity. Qed.

(** ** C7: the fusion score *)

Lemma fusion_score_penalties is_valid is_meaningful n :
  fusion_score is_valid is_meaningful n
  = Z.max 0 (100 - penalties is_valid is_meaningful n).
Proof.
  unfold fusion_score, penalties.
  destruct is_valid, is_meaningful; cbv beta iota delta [negb]; lia.
Qed.

Lemma grade_of_spec s :
  (grade_of s = Excellent <-> 90 <= s)
  /\ (grade_of s = Good <-> 70 <= s < 90)
  /\ (grade_of s = Needs_Improvement <-> s < 70).
Proof.
  unfold grade_of.
  destruct (Z.leb_spec 90 s); destruct (Z.leb_spec 70 s);
    repeat split; intros; try discriminate; try reflexivity; lia.
Qed.

(** C7. Whenever [get_fusion_quality_score] returns, its score is 100 less 30
    if the fusion is not valid, less 20 if it is not meaningful, less 5 for
    each issue of [validate_fusion_quality], and 0 if that is negative; it
    lies between 0 and 100; the grade is Excellent from 90, Good from 70 to
    89, Needs Improvement below; and the score never grows with the number of
    issues. *)
Theorem fusion_score_spec :
  forall api_data llm_response q,
    get_fusion_quality_score api_data llm_response = Ok q ->
    validate_fusion_quality api_data llm_response = Ok (is_valid q, issues q)
    /\ validate_meaningful_synthesis api_data llm_response
       = Ok (is_meaningful q, synthesis_quality q)
    /\ score q
       = Z.max 0 (100 - penalties (is_valid q) (is_meaningful q)
                                  (Z.of_nat (List.length (issues q))))
    /\ 0 <= score q <= 100
    /\ (grade q = Excellent <-> 90 <= score q)
    /\ (grade q = Good <-> 70 <= score q < 90)
    /\ (grade q = Needs_Improvement <-> score q < 70)
    /\ (forall valid meaningful n n',
          n <= n' ->
          fusion_score valid meaningful n' <= fusion_score valid meaningful n).
Proof.
  intros api_data llm_response q H.
  unfold get_fusion_quality_score in H.
  bind_inv H. destruct x as [valid found].
  bind_inv H. destruct x as [meaningful why].
  inversion H; subst; clear H; simpl.
  rewrite fusion_score_penalties.
  set (n := Z.of_nat (List.length found)).
  assert (Hn : 0 <= n) by apply Nat2Z.is_nonneg.
  assert (Hp : 0 <= penalties valid meaningful n).
  { unfold penalties. destruct valid, meaningful; lia. }
  split; [assumption |]. split; [assumption |]. split; [reflexivity |].
  split; [lia |].
  pose proof (grade_of_spec (Z.max 0 (100 - penalties valid meaningful n)))
    as (He & Hg & Hi).
  split; [exact He |]. split; [exact Hg |]. split; [exact Hi |].
  intros v m a b Hab. rewrite !fusion_score_penalties. unfold penalties. lia.
Qed.

Lemma fusion_score_spec_witness :
  get_fusion_quality_score one_priced_hotel good_answer = Ok good_quality
  /\ validate_fusion_quality one_priced_hotel good_answer
     = Ok (is_valid good_quality, issues good_quality)
  /\ validate_meaningful_synthesis one_priced_hotel good_answer
     = Ok (is_meaningful good_quality, synthesis_quality good_quality)
  /\ score good_quality
     = Z.max 0 (100 - penalties (is_valid good_quality) (is_meaningful good_quality)
                                (Z.of_nat (List.length (issues good_quality))))
  /\ 0 <= score good_quality <= 100
  /\ (grade good_quality = Excellent <-> 90 <= score good_quality)
  /\ (grade good_quality = Good <-> 70 <= score good_quality < 90)
  /\ (grade good_quality = Needs_Improvement <-> score good_quality < 70)
  /\ (forall valid meaningful n n',
        n <= n' ->
        fusion_score valid meaningful n' <= fusion_score valid meaningful n).
Proof.
  split; [reflexivity |].
  apply (fusion_score_spec one_priced_hotel good_answer good_quality).
  reflexivity.
Defined.

(** ** C10: a rating is never read as a negative number *)

Lemma numeric_char_plain c :
  is_numeric_char c = true ->
  is_space c = false /\ c <> "-"%char /\ c <> "+"%char.
Proof.
  destruct c as [[] [] [] [] [] [] [] []]; vm_compute; intros H;
    try discriminate H; repeat split; discriminate.
Qed.

Lemma take_while_all p s : all_chars p (take_while p s) = true.
Proof.
  induction s as [| c s IH]; simpl; [reflexivity |].
  destruct (p c) eqn:Hc; simpl; [now rewrite Hc | reflexivity].
Qed.

Lemma search_number_numeric s token :
  search_number s = Some token -> all_chars is_numeric_char token = true.
Proof.
  unfold search_number. intros H.
  pose proof (take_while_all is_numeric_char
                (drop_while (fun c => negb (is_numeric_char c)) s)) as Hall.
  destruct (take_while is_numeric_char _); [discriminate |].
  now inversion H; subst.
Qed.

Lemma rstrip_plain s :
  all_chars (fun c => negb (is_space c)) s = true -> rstrip s = s.
Proof.
  induction s as [| c s IH]; simpl; [reflexivity |].
  intros H. apply andb_prop in H. destruct H as [Hc Hs].
  rewrite (IH Hs). apply negb_true_iff in Hc. rewrite Hc.
  destruct s; reflexivity.
Qed.

Lemma strip_plain s :
  all_chars (fun c => negb (is_space c)) s = true -> strip s = s.
Proof.
  intros H. unfold strip.
  assert (Hl : lstrip s = s).
  { destruct s as [| c s]; [reflexivity |]. simpl in *.
    apply andb_prop in H. destruct H as [Hc _].
    apply negb_true_iff in Hc. now rewrite Hc. }
  rewrite Hl. now apply rstrip_plain.
Qed.

Lemma all_chars_impl (p q : ascii -> bool) s :
  (forall c, p c = true -> q c = true) ->
  all_chars p s = true -> all_chars q s = true.
Proof.
  intros Hpq. induction s as [| c s IH]; simpl; [reflexivity |].
  intros H. apply andb_prop in H. destruct H as [Hc Hs].
  now rewrite (Hpq c Hc), (IH Hs).
Qed.

Lemma binary_round_aux_not_negative m e l :
  not_negative (binary_round_aux prec emax false m e l).
Proof.
  unfold not_negative, binary_round_aux.
  destruct (shr_fexp prec emax m e l) as [mrs e'].
  destruct (shr_fexp prec emax _ e' loc_Exact) as [mrs' e''].
  destruct (shr_m mrs'); [reflexivity | | reflexivity].
  destruct (e'' <=? emax - prec); reflexivity.
Qed.

Lemma float_of_decimal_not_negative m e10 :
  not_negative (float_of_decimal m e10).
Proof.
  unfold float_of_decimal.
  destruct m as [| p | p]; try reflexivity.
  destruct (0 <=? e10) eqn:He.
  - apply Z.leb_le in He.
    assert (Hpos : 0 <= Z.pos p * 10 ^ e10).
    { apply Z.mul_nonneg_nonneg; [lia | apply Z.pow_nonneg; lia]. }
    destruct (Z.pos p * 10 ^ e10) as [| q | q]; [reflexivity | | lia].
    unfold binary_normalize, binary_round.
    destruct (shl_align q 0 _) as [mz ez].
    apply binary_round_aux_not_negative.
  - unfold SFdiv.
    destruct (SFdiv_core_binary prec emax (Z.pos p) 0 _ 0) as [[mz ez] lz].
    apply binary_round_aux_not_negative.
Qed.

Lemma parse_unsigned_not_negative s x :
  parse_unsigned s = Some x -> not_negative x.
Proof.
  unfold parse_unsigned. intros H.
  destruct (_ || _); [inversion H; reflexivity |].
  destruct (String.eqb _ _); [inversion H; reflexivity |].
  destruct (parse_mantissa s) as [[[m nfrac] r] |]; [| discriminate].
  destruct (parse_exponent r) as [e |]; [| discriminate].
  inversion H. apply float_of_decimal_not_negative.
Qed.

(** [float] of a run of digits and dots, when it converts, is not negative. *)
Lemma float_of_numeric_not_negative token x :
  all_chars is_numeric_char token = true ->
  float_of_str token = Some x -> not_negative x.
Proof.
  intros Hall H. unfold float_of_str in H.
  rewrite strip_plain in H
    by (eapply all_chars_impl; [| exact Hall];
        intros c Hc; apply numeric_char_plain in Hc;
        destruct Hc as [-> _]; reflexivity).
  destruct token as [| c rest].
  - now apply parse_unsigned_not_negative in H.
  - simpl in Hall. apply andb_prop in Hall. destruct Hall as [Hc _].
    apply numeric_char_plain in Hc. destruct Hc as (_ & Hm & Hp).
    destruct c as [[] [] [] [] [] [] [] []];
      try (now apply parse_unsigned_not_negative in H);
      congruence.
Qed.

Lemma rating_value_not_negative rating x :
  rating_value rating = Some x -> not_negative x.
Proof.
  unfold rating_value. intros H.
  destruct (normalize_rating rating) as [rating_str |]; [| discriminate].
  destruct (search_number rating_str) as [token |] eqn:Ht; [| discriminate].
  eapply float_of_numeric_not_negative; [| exact H].
  eapply search_number_numeric; exact Ht.
Qed.

Lemma rating_range_invalid hotel l name rating :
  rating_range hotel = Ok l ->
  In (Invalid_rating name rating) l ->
  exists x, rating_value rating = Some x /\ not_negative x /\ fgt x f5 = true.
Proof.
  unfold rating_range. intros H Hin.
  bind_inv H. rename x into r.
  destruct (truthy r); [| inversion H; subst; contradiction].
  destruct (normalize_rating r) as [rating_str | e] eqn:Hs.
  2: { destruct e; try discriminate H; inversion H; subst; contradiction. }
  destruct (search_number rating_str) as [token |] eqn:Ht;
    [| inversion H; subst; contradiction].
  destruct (float_of_str token) as [v |] eqn:Hv;
    [| inversion H; subst; contradiction].
  assert (Hr : rating_value r = Some v)
    by (unfold rating_value; now rewrite Hs, Ht).
  pose proof (rating_value_not_negative _ _ Hr) as Hnn.
  unfold not_negative in Hnn. rewrite Hnn in H. simpl in H.
  destruct (fgt v f5) eqn:H5; [| inversion H; subst; contradiction].
  bind_inv H. inversion H; subst; clear H.
  destruct (printable x); [| contradiction].
  destruct Hin as [Heq | []]. inversion Heq; subst.
  exists v. auto.
Qed.

Lemma negative_price_no_rating hotel l name rating :
  negative_price hotel = Ok l -> ~ In (Invalid_rating name rating) l.
Proof.
  unfold negative_price; intros H Hin; break_ok H;
    try (destruct (_ && _)); simpl in Hin; intuition discriminate.
Qed.

Lemma missing_names_no_rating hotels name rating :
  forall i l, missing_names i hotels = Ok l -> ~ In (Invalid_rating name rating) l.
Proof.
  induction hotels as [| h rest IH]; simpl; intros i l H Hin; break_ok H.
  - contradiction.
  - apply in_app_or in Hin. destruct Hin as [Hin | Hin].
    + destruct (negb (truthy x)); simpl in Hin; intuition discriminate.
    + eapply IH; eassumption.
Qed.

Lemma logical_inconsistencies_invalid hotels name rating :
  forall l, logical_inconsistencies hotels = Ok l ->
            In (Invalid_rating name rating) l ->
            exists x, rating_value rating = Some x
                      /\ not_negative x /\ fgt x f5 = true.
Proof.
  induction hotels as [| h rest IH]; simpl; intros l H Hin; break_ok H.
  - contradiction.
  - apply in_app_or in Hin. destruct Hin as [Hin | Hin].
    + exfalso. eapply negative_price_no_rating; eassumption.
    + apply in_app_or in Hin. destruct Hin as [Hin | Hin].
      * eapply rating_range_invalid; eassumption.
      * eapply IH; eassumption.
Qed.

(** C10. The number read from a rating is never below zero: the sign is not
    part of the run of digits and dots, so "-3" reads as 3. Hence the test
    [rating_val < 0] of line 275 never holds, and every invalid-rating issue
    of [check_consistency] is for a rating read as a number above 5. *)
Theorem negative_rating_unreachable :
  (forall rating x, rating_value rating = Some x -> flt x f0 = false)
  /\ (forall llm_claims found name rating,
        check_consistency llm_claims = Ok found ->
        In (Invalid_rating name rating) found ->
        exists x, rating_value rating = Some x
                  /\ flt x f0 = false /\ fgt x f5 = true)
  /\ rating_value (PStr "-3") = Some f3
  /\ check_consistency (top_hotels [hotel "Grand Hotel Paris" [("rating", PStr "-3")]])
     = Ok [].
Proof.
  split; [exact rating_value_not_negative |].
  split; [| split; vm_compute; reflexivity].
  intros llm_claims found name rating H Hin.
  unfold check_consistency in H.
  bind_inv H. bind_inv H. bind_inv H. bind_inv H. bind_inv H.
  inversion H; subst; clear H.
  apply in_app_or in Hin. destruct Hin as [Hin | Hin].
  - destruct (filter _ _); simpl in Hin; intuition discriminate.
  - apply in_app_or in Hin. destruct Hin as [Hin | Hin].
    + exfalso. eapply missing_names_no_rating; eassumption.
    + eapply logical_inconsistencies_invalid; eassumption.
Qed.

Example rating_above_five :
  check_consistency (top_hotels [hotel "Grand Hotel Paris" [("rating", PStr "-7")]])
  = Ok [Invalid_rating (PStr "Grand Hotel Paris") (PStr "-7")].
Proof. vm_compute. reflexivity. Qed.

(** ** C9: when [verify_grounding] returns, and when it raises *)

Lemma lookup_in k (m : dict) v : lookup k m = Some v -> In (k, v) m.
Proof.
  induction m as [| [k' v'] m IH]; simpl; [discriminate |].
  destruct (String.eqb k k') eqn:Hk.
  - apply String.eqb_eq in Hk. intros H. inversion H; subst. now left.
  - intros H. right. now apply IH.
Qed.

Lemma fuzzy_match_in name_key (m : dict) v :
  fuzzy_match name_key m = Some v -> exists k, In (k, v) m.
Proof.
  induction m as [| [k' v'] m IH]; simpl; [discriminate |].
  destruct (names_similar name_key k').
  - intros H. inversion H; subst. exists k'. now left.
  - intros H. destruct (IH H) as (k & Hin). exists k. now right.
Qed.

Lemma setitem_values (P : pyval -> Prop) k v (m : dict) :
  P v -> Forall (fun kv => P (snd kv)) m ->
  Forall (fun kv => P (snd kv)) (setitem k v m).
Proof.
  intros Hv. induction m as [| [k' v'] m IH]; simpl; intros Hm.
  - constructor; [exact Hv | constructor].
  - inversion Hm; subst. destruct (String.eqb k k').
    + constructor; assumption.
    + constructor; [assumption | now apply IH].
Qed.

Lemma name_is_text_get h :
  name_is_text h = true -> exists s, get h "name" (PStr "") = Ok (PStr s).
Proof.
  unfold name_is_text. destruct (get h "name" (PStr "")) as [[] |];
    try discriminate. eauto.
Qed.

Lemma build_api_hotel_map_ok ahs :
  forall m,
    Forall (fun h => record_ok h = true) ahs ->
    Forall (fun kv => record_ok (snd kv) = true) m ->
    exists m', build_api_hotel_map ahs m = Ok m'
               /\ Forall (fun kv => record_ok (snd kv) = true) m'.
Proof.
  induction ahs as [| ah rest IH]; simpl; intros m Hall Hm.
  - eauto.
  - inversion Hall as [| ? ? Hah Hrest]; subst.
    pose proof Hah as Hah'. unfold record_ok in Hah'.
    apply andb_prop in Hah'. destruct Hah' as [Hname _].
    destruct (name_is_text_get _ Hname) as (s & Hs).
    rewrite Hs; simpl.
    apply IH; [assumption |].
    destruct (nonempty (strip (lower s))); [| assumption].
    now apply (setitem_values (fun v => record_ok v = true)).
Qed.

Lemma check_price_ok llm_name lh match_ :
  price_in_range lh = true -> price_in_range match_ = true ->
  exists l, check_price llm_name lh match_ = Ok l.
Proof.
  unfold price_in_range, check_price, format. intros Hl Hm.
  destruct (get1 lh "price") as [lp |]; [| discriminate].
  destruct (get1 match_ "price") as [ap |]; [| discriminate].
  apply andb_prop in Hl, Hm. destruct Hl as [Hlp Hl], Hm as [Hap Hm].
  cbn [bind]. rewrite Hlp, Hap.
  destruct (negb (is_none lp) && negb (is_none ap)); [| eauto].
  destruct (to_float lp) as [a | []]; try discriminate; cbn [bind]; eauto;
    destruct (to_float ap) as [b | []]; try discriminate; cbn [bind]; eauto.
  destruct (fgt _ _); eauto.
Qed.

Lemma check_rating_ok llm_name lh match_ :
  price_in_range lh = true -> price_in_range match_ = true ->
  exists l, check_rating llm_name lh match_ = Ok l.
Proof.
  unfold price_in_range. intros Hl Hm.
  assert (Hgl : exists r, get1 lh "rating" = Ok r).
  { destruct lh; try discriminate. simpl. eauto. }
  assert (Hgm : exists r, get1 match_ "rating" = Ok r).
  { destruct match_; try discriminate. simpl. eauto. }
  destruct Hgl as (lr & Hlr), Hgm as (ar & Har).
  rewrite (check_rating_result llm_name lh match_ lr ar Hlr Har).
  eauto.
Qed.

Lemma field_checks_ok llm_name lh match_ :
  price_in_range lh = true -> price_in_range match_ = true ->
  exists l, field_checks llm_name lh match_ = Ok l.
Proof.
  intros Hl Hm. unfold field_checks.
  destruct (check_price_ok llm_name lh match_ Hl Hm) as (l1 & ->).
  destruct (check_rating_ok llm_name lh match_ Hl Hm) as (l2 & ->).
  simpl. eauto.
Qed.

Lemma mapM_ok {A B : Type} (f : A -> result B) (P : B -> Prop) l :
  Forall (fun x => exists y, f x = Ok y /\ P y) l ->
  exists ys, mapM f l = Ok ys /\ Forall P ys.
Proof.
  induction l as [| x l IH]; simpl; intros Hall.
  - eauto.
  - inversion Hall as [| ? ? (y & Hy & Py) Hrest]; subst.
    destruct (IH Hrest) as (ys & Hys & Pys).
    rewrite Hy, Hys. eauto.
Qed.

Lemma names_of_named hs :
  Forall (fun h => has_name h = true) hs ->
  exists available_names names,
    mapM (fun h => get1 h "name") hs = Ok available_names
    /\ mapM expect_str available_names = Ok names.
Proof.
  intros Hall.
  destruct (mapM_ok (fun h => get1 h "name") (fun v => exists s, v = PStr s) hs)
    as (vs & Hvs & Htext).
  { eapply Forall_impl; [| exact Hall]. intros h Hh. unfold has_name in Hh.
    destruct (get1 h "name") as [[] |]; try discriminate. eauto. }
  destruct (mapM_ok expect_str (fun _ => True) vs) as (names & Hn & _).
  { eapply Forall_impl; [| exact Htext]. intros v (s & ->). simpl. eauto. }
  eauto.
Qed.

Lemma report_hallucinated_ok ahs llm_name :
  Forall (fun h => has_name h = true) (firstn 3 ahs) ->
  exists l, report_hallucinated (PList ahs) llm_name = Ok l.
Proof.
  intros Hall.
  destruct (names_of_named _ Hall) as (vs & names & Hvs & Hn).
  unfold report_hallucinated, slice_to, iter, bind.
  rewrite Hvs, Hn. eauto.
Qed.

Lemma record_ok_price h : record_ok h = true -> price_in_range h = true.
Proof. unfold record_ok. intros H. now apply andb_prop in H. Qed.

Lemma verify_hotel_ok ahs m lh :
  Forall (fun h => has_name h = true) (firstn 3 ahs) ->
  Forall (fun kv => record_ok (snd kv) = true) m ->
  record_ok lh = true ->
  exists l, verify_hotel (PList ahs) m lh = Ok l.
Proof.
  intros Hnamed Hm Hlh. unfold verify_hotel.
  pose proof Hlh as Hlh'. unfold record_ok in Hlh'.
  apply andb_prop in Hlh'. destruct Hlh' as [Hname Hprice].
  destruct (name_is_text_get _ Hname) as (s & ->). simpl.
  destruct (nonempty (strip s)); simpl; [| eauto].
  rewrite Forall_forall in Hm.
  assert (Hfuzzy :
    exists l,
      match fuzzy_match (lower (strip s)) m with
      | Some api_hotel => field_checks (strip s) lh api_hotel
      | None => report_hallucinated (PList ahs) (strip s)
      end = Ok l).
  { destruct (fuzzy_match (lower (strip s)) m) as [v |] eqn:Hf.
    - destruct (fuzzy_match_in _ _ _ Hf) as (k & Hin).
      apply field_checks_ok; [assumption |].
      apply record_ok_price. exact (Hm _ Hin).
    - now apply report_hallucinated_ok. }
  destruct (lookup (lower (strip s)) m) as [v |] eqn:Hl; simpl.
  - destruct (truthy v); simpl; [| exact Hfuzzy].
    apply field_checks_ok; [assumption |].
    apply record_ok_price. exact (Hm _ (lookup_in _ _ _ Hl)).
  - exact Hfuzzy.
Qed.

Lemma verify_hotels_ok ahs m lhs :
  Forall (fun h => has_name h = true) (firstn 3 ahs) ->
  Forall (fun kv => record_ok (snd kv) = true) m ->
  Forall (fun h => record_ok h = true) lhs ->
  exists l, verify_hotels (PList ahs) m lhs = Ok l.
Proof.
  intros Hnamed Hm. induction lhs as [| lh rest IH]; simpl; intros Hall.
  - eauto.
  - inversion Hall as [| ? ? Hlh Hrest]; subst.
    destruct (verify_hotel_ok ahs m lh Hnamed Hm Hlh) as (l1 & ->).
    destruct (IH Hrest) as (l2 & ->). simpl. eauto.
Qed.

(** Where the verifier does return: whenever the hotels of both sides are
    lists of dictionaries in which a name, if present, is a string, no
    price holds an integer beyond the range of a float or one that cannot be
    written, and the first three API hotels have a name. Prices and ratings
    are otherwise arbitrary values: a price that does not convert is
    reported, a rating that cannot be read is skipped. *)
Lemma verify_grounding_returns :
  forall api_data llm_claims ahs lhs,
    get api_data "top_hotels" (PList []) = Ok (PList ahs) ->
    claimed_hotels llm_claims = Ok (PList lhs) ->
    Forall (fun h => record_ok h = true) ahs ->
    Forall (fun h => has_name h = true) (firstn 3 ahs) ->
    Forall (fun h => record_ok h = true) lhs ->
    exists found, verify_grounding api_data llm_claims = Ok found.
Proof.
  intros api_data llm_claims ahs lhs Hapi Hllm Hahs Hnamed Hlhs.
  unfold verify_grounding. rewrite Hllm; simpl. rewrite Hapi; simpl.
  destruct ahs as [| ah ahs']; simpl; [eauto |].
  unfold count_validation.
  destruct lhs as [| lh lhs']; simpl; [eauto |].
  destruct (build_api_hotel_map_ok (ah :: ahs') [] Hahs (Forall_nil _))
    as (m & Hm & Hvals).
  simpl in Hm. rewrite Hm; simpl.
  destruct (verify_hotels_ok (ah :: ahs') m (lh :: lhs') Hnamed Hvals Hlhs)
    as (l & Hl).
  simpl in Hl. rewrite Hl; simpl. eauto.
Qed.

Lemma verify_grounding_returns_witness :
  exists found, verify_grounding odd_api odd_claims = Ok found.
Proof.
  apply (verify_grounding_returns odd_api odd_claims
           [hotel "Grand Hotel Paris" [("price", PInt 150); ("rating", PStr "N/A")]]
           [hotel "Grand Hotel Paris" [("price", PStr "cheap"); ("rating", PStr "great")];
            PDict [("price", PList [])]]);
    [reflexivity | reflexivity | | |];
    repeat constructor.
Defined.

Example malformed_fields_degrade :
  verify_grounding odd_api odd_claims
  = Ok [Count_mismatch 2 1;
        Invalid_price_format "Grand Hotel Paris" (PStr "cheap") (PInt 150);
        Invalid_data_no_name].
Proof. vm_compute. reflexivity. Qed.

(** C9 at a claim whose name is JSON null: [lh.get("name", "")] is [None],
    the default standing only for a missing key, and [.strip()] of line 65
    raises [AttributeError], where the claim has a name that is not a string
    skipped or reported. *)
Theorem null_name_raises :
  verify_grounding one_api_hotel null_name_claim = Raise AttributeError.
Proof. vm_compute. reflexivity. Qed.

(** The message about a price that does not convert writes both prices: an
    integer of more than 4300 digits makes it raise [ValueError] inside the
    handler. As a rating, such an integer is skipped. *)
Example unwritable_price_raises :
  verify_grounding
    (top_hotels [hotel "Grand Hotel Paris" [("price", PInt unwritable)]])
    (top_hotels [hotel "Grand Hotel Paris" [("price", PStr "cheap")]])
  = Raise ValueError
  /\ verify_grounding
       (top_hotels [hotel "Grand Hotel Paris" [("rating", PFloat f4_5)]])
       (top_hotels [hotel "Grand Hotel Paris" [("rating", PInt unwritable)]])
     = Ok [].
Proof. vm_compute. split; reflexivity. Qed.

(** An API record without a name is left out of the index, but the message
    for a claim without a match joins the names of the first three API
    records, and [join] raises on the missing one. *)
Example nameless_api_hotel_raises :
  verify_grounding nameless_api_hotel unmatched_claim = Raise TypeError.
Proof. vm_compute. reflexivity. Qed.

(** ** C8 and C2: the orchestration of a turn *)

Lemma completions_app l1 l2 :
  completions (l1 ++ l2) = completions l1 ++ completions l2.
Proof. unfold completions. apply flat_map_app. Qed.

Lemma completions_printed {A : Type} (f : A -> print_line) (l : list A) :
  completions (map (fun x => Printed (f x)) l) = [].
Proof. induction l as [| x l IH]; simpl; [reflexivity | exact IH]. Qed.

Lemma verdicts_app l1 l2 :
  verdicts (l1 ++ l2) = verdicts l1 ++ verdicts l2.
Proof. unfold verdicts. apply flat_map_app. Qed.

Lemma verdicts_warnings (l : list issue) :
  verdicts (map (fun i => Printed (Warning_line i)) l) = [].
Proof. induction l as [| x l IH]; simpl; [reflexivity | exact IH]. Qed.

Lemma run_tool_completions w tc full :
  completions (fst (run_tool w tc full)) = []
  /\ verdicts (fst (run_tool w tc full)) = [].
Proof.
  unfold run_tool, bindM, lift, emit, ret.
  destruct (String.eqb (function_name tc) "search_hotels").
  - destruct (get1 _ "city") as [c |]; simpl; [| auto].
    destruct (get1 _ "check_in") as [ci |]; simpl; [| auto].
    destruct (get1 _ "check_out") as [co |]; simpl; [| auto].
    destruct (search_hotels w c ci co) as [[] |]; simpl; auto.
    destruct (lookup "hotels" d); simpl; auto.
    destruct (slice_to 5 p); simpl; auto.
  - simpl. auto.
Qed.

Lemma run_tools_completions w tcs :
  forall full messages,
    completions (fst (run_tools w tcs full messages)) = []
    /\ verdicts (fst (run_tools w tcs full messages)) = [].
Proof.
  induction tcs as [| tc rest IH]; simpl; intros full messages; [auto |].
  unfold bindM.
  pose proof (run_tool_completions w tc full) as [Hc Hv].
  destruct (run_tool w tc full) as [log [step | e]]; simpl in *; [| auto].
  specialize (IH (fst step) (messages ++ [snd step])). destruct IH as [IHc IHv].
  destruct (run_tools w rest (fst step) (messages ++ [snd step])) as [log' r].
  simpl in *. rewrite completions_app, verdicts_app, Hc, Hv, IHc, IHv. auto.
Qed.

Lemma critical_flag_nonempty api_data llm_claims response_text all_issues s :
  comprehensive_check api_data llm_claims response_text = Ok (all_issues, s) ->
  has_critical_issues s = true -> all_issues <> [].
Proof.
  unfold comprehensive_check. intros H Hs.
  bind_inv H. bind_inv H. bind_inv H. bind_inv H.
  inversion H; subst; clear H. simpl in Hs.
  apply count_of_pos in Hs. destruct x; [contradiction | discriminate].
Qed.

Lemma report_log_silent q valid fusion_issues s all_issues :
  completions (report_log q valid fusion_issues s all_issues) = []
  /\ verdicts (report_log q valid fusion_issues s all_issues) = [].
Proof.
  unfold report_log. rewrite completions_app, verdicts_app.
  destruct fusion_issues, all_issues; simpl;
    rewrite ?completions_printed, ?verdicts_warnings; auto.
Qed.

(** The log and the result of [grounded_response] once its checks are known
    to return: the completion call, the printed reports, then either the
    first answer or the correction round. *)
Lemma grounded_response_checked
  w messages full final_data llm_claims response_text all_issues s valid fusion_issues q :
  json_loads w (create w messages) = Some final_data ->
  get final_data "claims" (PDict []) = Ok llm_claims ->
  get final_data "response_to_user" (PStr "") = Ok response_text ->
  comprehensive_check full llm_claims response_text = Ok (all_issues, s) ->
  validate_fusion_quality full final_data = Ok (valid, fusion_issues) ->
  get_fusion_quality_score full final_data = Ok q ->
  let quoted := with_fusion_issues all_issues valid fusion_issues in
  let reports := report_log q valid fusion_issues s quoted in
  grounded_response w messages full
  = if has_critical_issues s
    then (Completion messages :: reports ++ fst (correct w messages full s quoted),
          snd (correct w messages full s quoted))
    else (Completion messages :: reports, Ok (create w messages)).
Proof.
  intros Hjson Hclaims Htext Hcheck Hvalid Hscore.
  unfold grounded_response, bindM, emit, emits, lift, ret.
  rewrite Hjson, Hclaims, Htext, Hcheck, Hvalid, Hscore.
  unfold with_fusion_issues, report_log.
  destruct (has_critical_issues s) eqn:Hs.
  - pose proof (critical_flag_nonempty _ _ _ _ _ Hcheck Hs) as Hne.
    destruct all_issues as [| i0 rest]; [contradiction |].
    destruct fusion_issues as [| f0 frest]; destruct valid; simpl;
      rewrite ?app_nil_r;
      match goal with
      | |- context [correct w messages full s ?l] =>
          destruct (correct w messages full s l) as [clog cr]
      end; simpl; rewrite <- ?app_assoc; reflexivity.
  - destruct fusion_issues as [| f0 frest];
      destruct valid; destruct all_issues as [| i0 rest]; simpl;
      rewrite ?app_nil_r, <- ?app_assoc; reflexivity.
Qed.

(** The correction round: one completion call on the messages extended with
    the directive; what it returns is the corrected text, whenever it
    returns. *)
Lemma correct_spec w messages full s quoted :
  let directive := Correction (total_issues s) (firstn 5 quoted) in
  let corrected_json := create w (messages ++ [directive]) in
  completions (fst (correct w messages full s quoted)) = [messages ++ [directive]]
  /\ (forall out, snd (correct w messages full s quoted) = Ok out ->
                  out = corrected_json)
  /\ (json_loads w corrected_json = None ->
      correct w messages full s quoted
      = ([Completion (messages ++ [directive])], Ok corrected_json))
  /\ (forall corrected_data corrected_claims corrected_text corrected_issues cs,
        json_loads w corrected_json = Some corrected_data ->
        get corrected_data "claims" (PDict []) = Ok corrected_claims ->
        get corrected_data "response_to_user" (PStr "") = Ok corrected_text ->
        comprehensive_check full corrected_claims corrected_text
        = Ok (corrected_issues, cs) ->
        correct w messages full s quoted
        = ([Completion (messages ++ [directive]);
            Printed (verdict_line corrected_issues)],
           Ok corrected_json)).
Proof.
  intros directive corrected_json.
  unfold correct, bindM, emit, lift, ret.
  fold directive. fold corrected_json.
  split; [| split; [| split]].
  - destruct (json_loads w corrected_json) as [cd |]; [| reflexivity].
    destruct (get cd "claims" (PDict [])) as [cc |]; [| reflexivity].
    destruct (get cd "response_to_user" (PStr "")) as [ct |]; [| reflexivity].
    destruct (comprehensive_check full cc ct) as [[ci cs] |]; reflexivity.
  - intros out.
    destruct (json_loads w corrected_json) as [cd |];
      [| simpl; intros H; now inversion H].
    destruct (get cd "claims" (PDict [])) as [cc |]; [| discriminate].
    destruct (get cd "response_to_user" (PStr "")) as [ct |]; [| discriminate].
    destruct (comprehensive_check full cc ct) as [[ci cs] |]; [| discriminate].
    simpl. intros H. now inversion H.
  - intros ->. reflexivity.
  - intros cd cc ct ci cs -> -> -> ->. reflexivity.
Qed.

Lemma chat_with_tools w user_input history tools_log full_api_data messages :
  tool_calls (create_with_tools w (opening w user_input history)) <> [] ->
  run_tools w (tool_calls (create_with_tools w (opening w user_input history))) []
    (opening w user_input history
       ++ [Assistant (create_with_tools w (opening w user_input history))])
  = (tools_log, Ok (full_api_data, messages)) ->
  chat w user_input history
  = (Completion_with_tools (opening w user_input history)
       :: tools_log ++ fst (grounded_response w messages (PDict full_api_data)),
     snd (grounded_response w messages (PDict full_api_data))).
Proof.
  intros Hcalls Htools. unfold chat, bindM, emit. fold (opening w user_input history).
  destruct (tool_calls (create_with_tools w (opening w user_input history)))
    as [| tc tcs] eqn:Htc; [contradiction |].
  rewrite Htools.
  destruct (grounded_response w messages (PDict full_api_data)) as [log r].
  reflexivity.
Qed.

(** A turn without critical issues: one completion call, and the first
    answer, whenever the turn returns. *)
Lemma grounded_response_clean
  w messages full final_data llm_claims response_text all_issues s :
  json_loads w (create w messages) = Some final_data ->
  get final_data "claims" (PDict []) = Ok llm_claims ->
  get final_data "response_to_user" (PStr "") = Ok response_text ->
  comprehensive_check full llm_claims response_text = Ok (all_issues, s) ->
  has_critical_issues s = false ->
  completions (fst (grounded_response w messages full)) = [messages]
  /\ verdicts (fst (grounded_response w messages full)) = []
  /\ (forall out, snd (grounded_response w messages full) = Ok out ->
                  out = create w messages)
  /\ (is_ok (get_fusion_quality_score full final_data) = true ->
      snd (grounded_response w messages full) = Ok (create w messages)).
Proof.
  intros Hjson Hclaims Htext Hcheck Hs.
  destruct (validate_fusion_quality full final_data) as [[valid fi] | e] eqn:Hv.
  - destruct (get_fusion_quality_score full final_data) as [q | e] eqn:Hq.
    + rewrite (grounded_response_checked _ _ _ _ _ _ _ _ _ _ _
                 Hjson Hclaims Htext Hcheck Hv Hq).
      rewrite Hs. simpl.
      destruct (report_log_silent q valid fi s (with_fusion_issues all_issues valid fi))
        as [-> ->].
      repeat split; try reflexivity. intros out H. now inversion H.
    + unfold grounded_response, bindM, emit, lift, ret.
      rewrite Hjson, Hclaims, Htext, Hcheck, Hv, Hq. simpl.
      repeat split; try reflexivity; discriminate.
  - assert (Hq : get_fusion_quality_score full final_data = Raise e).
    { unfold get_fusion_quality_score. now rewrite Hv. }
    unfold grounded_response, bindM, emit, lift, ret.
    rewrite Hjson, Hclaims, Htext, Hcheck, Hv, Hq. simpl.
    repeat split; try reflexivity; discriminate.
Qed.

(** C8, as the code has it. In a turn that called the tools, whose first
    answer parses and whose checks return a summary without the critical
    flag (the flag that any issue of the grounding verifier sets), the only
    completion call after the tools is the one that produced the first
    answer: no correction call is made. Whenever the turn returns, it
    returns the text of the first answer unchanged, and it does return
    whenever the fusion scorer returns. *)
Theorem clean_turn_returns_first_answer :
  forall w user_input history tools_log full_api_data messages
         final_data llm_claims response_text all_issues s,
    tool_calls (create_with_tools w (opening w user_input history)) <> [] ->
    run_tools w (tool_calls (create_with_tools w (opening w user_input history))) []
      (opening w user_input history
         ++ [Assistant (create_with_tools w (opening w user_input history))])
    = (tools_log, Ok (full_api_data, messages)) ->
    json_loads w (create w messages) = Some final_data ->
    get final_data "claims" (PDict []) = Ok llm_claims ->
    get final_data "response_to_user" (PStr "") = Ok response_text ->
    comprehensive_check (PDict full_api_data) llm_claims response_text
    = Ok (all_issues, s) ->
    has_critical_issues s = false ->
    completions (fst (chat w user_input history)) = [messages]
    /\ (forall out, snd (chat w user_input history) = Ok out ->
                    out = create w messages)
    /\ (is_ok (get_fusion_quality_score (PDict full_api_data) final_data) = true ->
        snd (chat w user_input history) = Ok (create w messages)).
Proof.
  intros w user_input history tools_log full_api_data messages
         final_data llm_claims response_text all_issues s
         Hcalls Htools Hjson Hclaims Htext Hcheck Hs.
  rewrite (chat_with_tools _ _ _ _ _ _ Hcalls Htools). simpl fst; simpl snd.
  destruct (grounded_response_clean _ _ _ _ _ _ _ _
              Hjson Hclaims Htext Hcheck Hs) as (Hc & _ & Hout & Hret).
  pose proof (run_tools_completions w
                (tool_calls (create_with_tools w (opening w user_input history))) []
                (opening w user_input history
                   ++ [Assistant (create_with_tools w (opening w user_input history))]))
    as [Htc _].
  rewrite Htools in Htc. simpl in Htc.
  split; [| split; assumption].
  change (completions (Completion_with_tools (opening w user_input history)
                         :: tools_log
                         ++ fst (grounded_response w messages (PDict full_api_data))))
    with (completions (tools_log
                         ++ fst (grounded_response w messages (PDict full_api_data)))).
  now rewrite completions_app, Htc, Hc.
Qed.

Lemma clean_turn_returns_first_answer_witness :
  completions (fst (chat clean_world "hotels in Paris" [])) = [paris_messages]
  /\ (forall out, snd (chat clean_world "hotels in Paris" []) = Ok out ->
                  out = create clean_world paris_messages)
  /\ (is_ok (get_fusion_quality_score (PDict paris_data) (answer 5)) = true ->
      snd (chat clean_world "hotels in Paris" [])
      = Ok (create clean_world paris_messages)).
Proof.
  apply (clean_turn_returns_first_answer clean_world "hotels in Paris" []
           [Search (PStr "Paris") PNone PNone] paris_data paris_messages
           (answer 5) (paris_claims 5) paris_text
           [Very_low_price f5_] (summary_of 0 0 1 0));
    solve [ discriminate | vm_compute; reflexivity ].
Defined.

(** C8 as stated fails: the first answer claims a hotel without a name. No
    issue of the merged checks, nor of the fusion validation, has a critical
    kind; the verifier's message about the missing name sets the flag all the
    same, a correction call is made, and the turn returns the corrected
    text, not the first answer. *)
Lemma blank_name_turn_is_corrected :
  comprehensive_check (PDict paris_data) nameless_claims paris_text
  = Ok ([Invalid_data_no_name; Missing_name_field 0; Very_low_price f5_],
        summary_of 1 1 1 0)
  /\ existsb is_critical
       [Invalid_data_no_name; Missing_name_field 0; Very_low_price f5_;
        Fusion_names_do_not_match; Fusion_lacks_facts] = false
  /\ create nameless_world paris_messages = json_dumps nameless_answer
  /\ completions (fst (chat nameless_world "hotels in Paris" []))
     = [paris_messages;
        paris_messages
          ++ [Correction 3
                [Invalid_data_no_name; Missing_name_field 0; Very_low_price f5_;
                 Fusion_names_do_not_match; Fusion_lacks_facts]]]
  /\ snd (chat nameless_world "hotels in Paris" []) = Ok (json_dumps (answer 5))
  /\ json_dumps (answer 5) <> json_dumps nameless_answer.
Proof. vm_compute. repeat split; try reflexivity. discriminate. Qed.

Lemma fusion_score_validity full final_data q :
  get_fusion_quality_score full final_data = Ok q ->
  validate_fusion_quality full final_data = Ok (is_valid q, issues q).
Proof.
  unfold get_fusion_quality_score. intros H.
  bind_inv H. destruct x as [valid found].
  bind_inv H. destruct x as [meaningful why].
  apply Ok_inj in H. subst q. exact E.
Qed.

(** The fusion validation runs before the correction is decided: when it
    raises, the turn ends there. *)
Lemma grounded_response_fusion_raises
  w messages full final_data llm_claims response_text all_issues s e :
  json_loads w (create w messages) = Some final_data ->
  get final_data "claims" (PDict []) = Ok llm_claims ->
  get final_data "response_to_user" (PStr "") = Ok response_text ->
  comprehensive_check full llm_claims response_text = Ok (all_issues, s) ->
  get_fusion_quality_score full final_data = Raise e ->
  grounded_response w messages full = ([Completion messages], Raise e).
Proof.
  intros Hjson Hclaims Htext Hcheck Hscore.
  unfold grounded_response, bindM, emit, lift, ret.
  rewrite Hjson, Hclaims, Htext, Hcheck.
  destruct (validate_fusion_quality full final_data) as [[valid fi] | e'] eqn:Hv.
  - rewrite Hscore. reflexivity.
  - unfold get_fusion_quality_score in Hscore. rewrite Hv in Hscore.
    cbn [bind] in Hscore. inversion Hscore; subst. reflexivity.
Qed.

(** C2, as the code has it. In a turn that called the tools, whose first
    answer parses and whose checks return with the critical flag set: when
    the fusion scoring that runs before the correction returns, the
    generator is called exactly once more, on the messages of the first call
    followed by a directive that quotes the issue count and up to five
    issues; whenever the turn returns, it returns the regenerated text; it
    returns it when that text does not parse, and when it parses and the
    full check suite [comprehensive_check], run again on it, returns,
    whatever issues remain; the line printed about the correction is decided
    by the issues of that full suite. When the fusion scoring raises, the
    turn raises the same exception and makes no correction call. *)
Theorem critical_turn_corrects_once :
  forall w user_input history tools_log full_api_data messages
         final_data llm_claims response_text all_issues s,
    tool_calls (create_with_tools w (opening w user_input history)) <> [] ->
    run_tools w (tool_calls (create_with_tools w (opening w user_input history))) []
      (opening w user_input history
         ++ [Assistant (create_with_tools w (opening w user_input history))])
    = (tools_log, Ok (full_api_data, messages)) ->
    json_loads w (create w messages) = Some final_data ->
    get final_data "claims" (PDict []) = Ok llm_claims ->
    get final_data "response_to_user" (PStr "") = Ok response_text ->
    comprehensive_check (PDict full_api_data) llm_claims response_text
    = Ok (all_issues, s) ->
    has_critical_issues s = true ->
    (forall q,
        get_fusion_quality_score (PDict full_api_data) final_data = Ok q ->
        let directive :=
          Correction (total_issues s)
            (firstn 5 (with_fusion_issues all_issues (is_valid q) (issues q))) in
        let corrected_json := create w (messages ++ [directive]) in
        completions (fst (chat w user_input history))
        = [messages; messages ++ [directive]]
        /\ (forall out, snd (chat w user_input history) = Ok out ->
                        out = corrected_json)
        /\ (json_loads w corrected_json = None ->
            snd (chat w user_input history) = Ok corrected_json)
        /\ (forall corrected_data corrected_claims corrected_text corrected_issues cs,
              json_loads w corrected_json = Some corrected_data ->
              get corrected_data "claims" (PDict []) = Ok corrected_claims ->
              get corrected_data "response_to_user" (PStr "") = Ok corrected_text ->
              comprehensive_check (PDict full_api_data) corrected_claims corrected_text
              = Ok (corrected_issues, cs) ->
              snd (chat w user_input history) = Ok corrected_json
              /\ verdicts (fst (chat w user_input history))
                 = [verdict_line corrected_issues]))
    /\ (forall e,
          get_fusion_quality_score (PDict full_api_data) final_data = Raise e ->
          completions (fst (chat w user_input history)) = [messages]
          /\ snd (chat w user_input history) = Raise e).
Proof.
  intros w user_input history tools_log full_api_data messages
         final_data llm_claims response_text all_issues s
         Hcalls Htools Hjson Hclaims Htext Hcheck Hs.
  pose proof (run_tools_completions w
                (tool_calls (create_with_tools w (opening w user_input history))) []
                (opening w user_input history
                   ++ [Assistant (create_with_tools w (opening w user_input history))]))
    as [Htc Htv].
  rewrite Htools in Htc, Htv. simpl in Htc, Htv.
  rewrite (chat_with_tools _ _ _ _ _ _ Hcalls Htools). simpl fst; simpl snd.
  split.
  - intros q Hscore directive corrected_json.
    pose proof (fusion_score_validity _ _ _ Hscore) as Hvalid.
    set (valid := is_valid q) in *. set (fusion_issues := issues q) in *.
    rewrite (grounded_response_checked _ _ _ _ _ _ _ _ _ _ _
               Hjson Hclaims Htext Hcheck Hvalid Hscore).
    rewrite Hs. simpl fst; simpl snd.
    set (quoted := with_fusion_issues all_issues valid fusion_issues) in *.
    destruct (report_log_silent q valid fusion_issues s quoted) as [Hrc Hrv].
    destruct (correct_spec w messages (PDict full_api_data) s quoted)
      as (Hcc & Hout & Hnone & Hsome).
    fold directive in Hcc, Hout, Hnone, Hsome.
    fold corrected_json in Hout, Hnone, Hsome.
    split; [| split; [exact Hout | split]].
    + change (completions
                (Completion_with_tools (opening w user_input history)
                   :: tools_log
                   ++ Completion messages
                   :: report_log q valid fusion_issues s quoted
                   ++ fst (correct w messages (PDict full_api_data) s quoted)))
        with (completions
                (tools_log
                   ++ [Completion messages]
                   ++ report_log q valid fusion_issues s quoted
                   ++ fst (correct w messages (PDict full_api_data) s quoted))).
      rewrite !completions_app, Htc, Hrc, Hcc. reflexivity.
    + intros Hn. now rewrite (Hnone Hn).
    + intros cd cc ct ci cs Hj Hc Ht Hk.
      rewrite (Hsome cd cc ct ci cs Hj Hc Ht Hk). simpl fst; simpl snd.
      split; [reflexivity |].
      change (verdicts
                (Completion_with_tools (opening w user_input history)
                   :: tools_log
                   ++ Completion messages
                   :: report_log q valid fusion_issues s quoted
                   ++ [Completion (messages ++ [directive]);
                       Printed (verdict_line ci)]))
        with (verdicts
                (tools_log
                   ++ [Completion messages]
                   ++ report_log q valid fusion_issues s quoted
                   ++ [Completion (messages ++ [directive]);
                       Printed (verdict_line ci)])).
      rewrite !verdicts_app, Htv, Hrv. simpl.
      destruct ci; reflexivity.
  - intros e Hscore.
    rewrite (grounded_response_fusion_raises _ _ _ _ _ _ _ _ _
               Hjson Hclaims Htext Hcheck Hscore).
    simpl fst; simpl snd. split; [| reflexivity].
    change (completions
              (Completion_with_tools (opening w user_input history)
                 :: tools_log ++ [Completion messages]))
      with (completions (tools_log ++ [Completion messages])).
    rewrite completions_app, Htc. reflexivity.
Qed.

Lemma critical_turn_corrects_once_witness :
  completions (fst (chat paris_world "hotels in Paris" []))
  = [paris_messages; paris_messages ++ [paris_directive]]
  /\ (forall out, snd (chat paris_world "hotels in Paris" []) = Ok out ->
                  out = create paris_world (paris_messages ++ [paris_directive]))
  /\ (json_loads paris_world (create paris_world (paris_messages ++ [paris_directive]))
      = None ->
      snd (chat paris_world "hotels in Paris" [])
      = Ok (create paris_world (paris_messages ++ [paris_directive])))
  /\ (forall corrected_data corrected_claims corrected_text corrected_issues cs,
        json_loads paris_world (create paris_world (paris_messages ++ [paris_directive]))
        = Some corrected_data ->
        get corrected_data "claims" (PDict []) = Ok corrected_claims ->
        get corrected_data "response_to_user" (PStr "") = Ok corrected_text ->
        comprehensive_check (PDict paris_data) corrected_claims corrected_text
        = Ok (corrected_issues, cs) ->
        snd (chat paris_world "hotels in Paris" [])
        = Ok (create paris_world (paris_messages ++ [paris_directive]))
        /\ verdicts (fst (chat paris_world "hotels in Paris" []))
           = [verdict_line corrected_issues]).
Proof.
  refine (proj1 (critical_turn_corrects_once paris_world "hotels in Paris" []
                   [Search (PStr "Paris") PNone PNone] paris_data paris_messages
                   (answer 50) (paris_claims 50) paris_text
                   [Price_hallucination "Budget Inn Paris" (PInt 50) (PInt 5) f45]
                   (summary_of 1 0 0 0) _ _ _ _ _ _ _)
            paris_quality _);
    solve [ discriminate | vm_compute; reflexivity ].
Defined.

(** The fusion validation reads the answer text as a string: an answer whose
    text is a number, with a price that contradicts the API, raises there,
    and the turn ends without a correction call. *)
Example fusion_failure_ends_the_turn :
  comprehensive_check (PDict paris_data) (paris_claims 50) (PInt 7)
  = Ok ([Price_hallucination "Budget Inn Paris" (PInt 50) (PInt 5) f45],
        summary_of 1 0 0 0)
  /\ get_fusion_quality_score (PDict paris_data) numeric_text_answer
     = Raise AttributeError
  /\ chat numeric_text_world "hotels in Paris" []
     = ([Completion_with_tools
           [System_prompt "2025-01-01"; Role_content "user" "hotels in Paris"];
         Search (PStr "Paris") PNone PNone;
         Completion paris_messages],
        Raise AttributeError).
Proof. vm_compute. repeat split; reflexivity. Qed.

(** C2 as stated fails: the corrected answer is checked by the full suite,
    not by the grounding verifier alone. Here the corrected claims agree with
    the API data, so [verify_grounding] finds nothing, and the turn still
    reports one remaining issue, the plausibility concern about the price. *)
Lemma correction_rechecked_by_full_suite :
  snd (chat paris_world "hotels in Paris" []) = Ok (json_dumps (answer 5))
  /\ verify_grounding (PDict paris_data) (paris_claims 5) = Ok []
  /\ comprehensive_check (PDict paris_data) (paris_claims 5) paris_text
     = Ok ([Very_low_price f5_], summary_of 0 0 1 0)
  /\ verdicts (fst (chat paris_world "hotels in Paris" []))
     = [Correction_still_has 1]
  /\ verdicts (fst (chat paris_world "hotels in Paris" []))
     <> [verdict_line []].
Proof. vm_compute. repeat split; try reflexivity. discriminate. Qed.

(** * Further properties of the checkers *)

(** ** How many issues [verify_grounding] reports *)

Lemma check_price_at_most_one llm_name lh match_ l :
  check_price llm_name lh match_ = Ok l -> (List.length l <= 1)%nat.
Proof.
  unfold check_price; intros H; break_ok H; split_ifs; simpl; lia.
Qed.

Lemma check_rating_at_most_one llm_name lh match_ l :
  check_rating llm_name lh match_ = Ok l -> (List.length l <= 1)%nat.
Proof.
  unfold check_rating; intros H; break_ok H; split_ifs; simpl; lia.
Qed.

Lemma verify_hotel_at_most_two api_hotels m lh l :
  verify_hotel api_hotels m lh = Ok l -> (List.length l <= 2)%nat.
Proof.
  assert (Hf : forall n h a x, field_checks n h a = Ok x -> (List.length x <= 2)%nat).
  { unfold field_checks. intros n h a fs Hfs.
    bind_inv Hfs. bind_inv Hfs. inversion Hfs; subst; clear Hfs.
    rewrite length_app.
    match goal with
    | E1 : check_price _ _ _ = Ok _, E2 : check_rating _ _ _ = Ok _ |- _ =>
        apply check_price_at_most_one in E1;
        apply check_rating_at_most_one in E2
    end. lia. }
  unfold verify_hotel, report_hallucinated; intros H; break_ok H;
    try (simpl; lia); eapply Hf; eassumption.
Qed.

Lemma verify_hotels_at_most api_hotels m lhs :
  forall l, verify_hotels api_hotels m lhs = Ok l ->
            (List.length l <= 2 * List.length lhs)%nat.
Proof.
  induction lhs as [| lh rest IH]; simpl; intros l H; break_ok H.
  - simpl. lia.
  - rewrite length_app.
    match goal with
    | E1 : verify_hotel _ _ _ = Ok _, E2 : verify_hotels _ _ _ = Ok _ |- _ =>
        apply verify_hotel_at_most_two in E1; apply IH in E2
    end. lia.
Qed.

Lemma count_validation_at_most_one llm_hotels api_hotels l :
  count_validation llm_hotels api_hotels = Ok l -> (List.length l <= 1)%nat.
Proof.
  unfold count_validation; intros H; break_ok H; split_ifs; simpl; lia.
Qed.

(** X1. [verify_grounding] reports nothing when no hotel is claimed, whatever the
    API data hold, and otherwise at most one issue for the whole claim and two
    for each claimed hotel. *)
Theorem verify_grounding_issue_bound :
  forall api_data llm_claims llm_hotels found,
    claimed_hotels llm_claims = Ok llm_hotels ->
    verify_grounding api_data llm_claims = Ok found ->
    (truthy llm_hotels = false -> found = [])
    /\ (forall lhs, iter llm_hotels = Ok lhs ->
                    (List.length found <= 1 + 2 * List.length lhs)%nat).
Proof.
  intros api_data llm_claims llm_hotels found Hc H.
  unfold verify_grounding in H. rewrite Hc in H. simpl in H.
  bind_inv H. rename x into api_hotels.
  destruct (truthy api_hotels); simpl in H.
  - bind_inv H. rename x into counted.
    destruct (truthy llm_hotels) eqn:Ht.
    + split; [discriminate |]. intros lhs Hl. rewrite Hl in H.
      bind_inv H. bind_inv H. simpl in H. bind_inv H.
      inversion H; subst; clear H. rewrite length_app.
      match goal with
      | E : verify_hotels _ _ _ = Ok _ |- _ => apply verify_hotels_at_most in E
      end.
      apply count_validation_at_most_one in E0.
      lia.
    + unfold count_validation in E0. rewrite Ht in E0.
      inversion E0; subst. inversion H; subst.
      split; [reflexivity | intros; simpl; lia].
  - inversion H; subst; clear H.
    destruct (truthy llm_hotels); split; try discriminate; try reflexivity;
      intros; simpl; lia.
Qed.

Lemma verify_grounding_issue_bound_witness :
  (truthy (PList [hotel "Grand Hotel Paris" [("price", PStr "cheap"); ("rating", PStr "great")];
                  PDict [("price", PList [])]]) = false ->
   [Count_mismatch 2 1;
    Invalid_price_format "Grand Hotel Paris" (PStr "cheap") (PInt 150);
    Invalid_data_no_name] = [])
  /\ (forall lhs,
        iter (PList [hotel "Grand Hotel Paris" [("price", PStr "cheap"); ("rating", PStr "great")];
                     PDict [("price", PList [])]]) = Ok lhs ->
        (List.length [Count_mismatch 2 1;
                      Invalid_price_format "Grand Hotel Paris" (PStr "cheap") (PInt 150);
                      Invalid_data_no_name]
         <= 1 + 2 * List.length lhs)%nat).
Proof.
  apply (verify_grounding_issue_bound odd_api odd_claims); vm_compute; reflexivity.
Defined.

(** ** The name index *)

Lemma lookup_setitem_same k v (m : dict) : lookup k (setitem k v m) = Some v.
Proof.
  induction m as [| [k' v'] m IH]; simpl.
  - now rewrite String.eqb_refl.
  - destruct (String.eqb k k') eqn:Hk; simpl.
    + now rewrite String.eqb_refl.
    + now rewrite Hk.
Qed.

Lemma lookup_setitem_other k k' v (m : dict) :
  String.eqb k k' = false -> lookup k (setitem k' v m) = lookup k m.
Proof.
  intros Hk. induction m as [| [k0 v0] m IH]; simpl.
  - now rewrite Hk.
  - destruct (String.eqb k' k0) eqn:Hk0; simpl.
    + apply String.eqb_eq in Hk0. subst k0. now rewrite Hk.
    + destruct (String.eqb k k0); [reflexivity | exact IH].
Qed.

Lemma nonempty_eqb k k' :
  nonempty k = false -> nonempty k' = true -> String.eqb k k' = false.
Proof. destruct k, k'; simpl; congruence. Qed.

Lemma build_api_hotel_map_lookup hs :
  forall m0 m k,
    build_api_hotel_map hs m0 = Ok m ->
    lookup k m =
    match (if nonempty k then last_with_key k hs else None) with
    | Some h => Some h
    | None => lookup k m0
    end.
Proof.
  induction hs as [| h rest IH]; simpl; intros m0 m k H.
  - inversion H; subst. now destruct (nonempty k).
  - bind_inv H. bind_inv H. rename x0 into s.
    assert (Hkey : index_key h = Some (strip (lower s))).
    { unfold index_key. rewrite E. destruct x; try discriminate.
      simpl in E0. now inversion E0. }
    rewrite (IH _ _ k H). rewrite Hkey.
    destruct (nonempty k) eqn:Hk.
    + destruct (last_with_key k rest); [reflexivity |].
      destruct (nonempty (strip (lower s))) eqn:Hs.
      * destruct (String.eqb k (strip (lower s))) eqn:He.
        -- apply String.eqb_eq in He. subst k. apply lookup_setitem_same.
        -- now apply lookup_setitem_other.
      * destruct (String.eqb k (strip (lower s))) eqn:He; [| reflexivity].
        apply String.eqb_eq in He. subst k. congruence.
    + destruct (nonempty (strip (lower s))) eqn:Hs; [| reflexivity].
      apply lookup_setitem_other. now apply nonempty_eqb.
Qed.

Lemma build_api_hotel_map_returns hs :
  forall m0,
    (exists m, build_api_hotel_map hs m0 = Ok m)
    <-> Forall (fun h => name_is_text h = true) hs.
Proof.
  induction hs as [| h rest IH]; simpl; intros m0.
  - split; [constructor | eauto].
  - unfold name_is_text at 1. split.
    + intros (m & H). bind_inv H. bind_inv H.
      constructor.
      * unfold name_is_text. rewrite E. destruct x; try discriminate. reflexivity.
      * eapply IH. eauto.
    + intros Hall. inversion Hall as [| ? ? Hh Hrest]; subst.
      destruct (name_is_text_get _ Hh) as (s & ->). simpl.
      now apply IH.
Qed.

(** X2. The index built over the API hotels returns, for a name as the index
    normalizes it, the last API hotel of that name; hotels with a blank name
    are not in it. It is built without raising exactly when every API
    record is a dictionary whose name, if present, is a string. *)
Theorem api_hotel_map_lookup :
  forall api_hotels,
    ((exists api_hotel_map, build_api_hotel_map api_hotels [] = Ok api_hotel_map)
     <-> Forall (fun h => name_is_text h = true) api_hotels)
    /\ (forall api_hotel_map k,
          build_api_hotel_map api_hotels [] = Ok api_hotel_map ->
          lookup k api_hotel_map
          = if nonempty k then last_with_key k api_hotels else None).
Proof.
  intros api_hotels. split; [apply build_api_hotel_map_returns |].
  intros m k H. rewrite (build_api_hotel_map_lookup _ _ _ k H).
  destruct (nonempty k); [| reflexivity].
  now destruct (last_with_key k api_hotels).
Qed.

Example index_keeps_last_duplicate :
  build_api_hotel_map
    [hotel "Grand Hotel" [("price", PInt 100)];
     hotel "" [("price", PInt 120)];
     hotel " GRAND hotel " [("price", PInt 200)]] []
  = Ok [("grand hotel", hotel " GRAND hotel " [("price", PInt 200)])].
Proof. vm_compute. reflexivity. Qed.

(** ** Facts verified against themselves *)

Lemma is_space_lower c : is_space (lower_char c) = is_space c.
Proof. destruct c as [[] [] [] [] [] [] [] []]; reflexivity. Qed.

Lemma lstrip_lower s : lstrip (lower s) = lower (lstrip s).
Proof.
  induction s as [| c s IH]; simpl; [reflexivity |].
  rewrite is_space_lower. destruct (is_space c); [exact IH | reflexivity].
Qed.

Lemma rstrip_lower s : rstrip (lower s) = lower (rstrip s).
Proof.
  induction s as [| c s IH]; simpl; [reflexivity |].
  rewrite IH, is_space_lower.
  destruct (rstrip s); simpl; [destruct (is_space c) |]; reflexivity.
Qed.

Lemma strip_lower s : strip (lower s) = lower (strip s).
Proof. unfold strip. now rewrite lstrip_lower, rstrip_lower. Qed.

(** A float less itself is zero or not a number, so no tolerance is
    exceeded. *)
Lemma fsub_self_small a c :
  fgt (fabs (fsub a a)) (S754_finite false c (-52)) = false
  /\ fgt (fabs (fsub a a)) (S754_finite false c (-56)) = false.
Proof.
  unfold fgt, fabs, fsub, SFsub.
  destruct a as [[] | [] | | s m e]; try (split; reflexivity).
  rewrite Z.sub_diag. split; reflexivity.
Qed.

Lemma last_with_key_in k hs h :
  last_with_key k hs = Some h -> In h hs /\ index_key h = Some k.
Proof.
  induction hs as [| h0 rest IH]; simpl; [discriminate |].
  destruct (last_with_key k rest) as [h' |].
  - intros H. inversion H; subst. destruct (IH eq_refl). auto.
  - destruct (index_key h0) as [k' |] eqn:Hk; [| discriminate].
    destruct (String.eqb k k') eqn:He; [| discriminate].
    apply String.eqb_eq in He. subst k'.
    intros H. inversion H; subst. auto.
Qed.

Lemma last_with_key_unique k hs h :
  NoDup (map index_key hs) -> In h hs -> index_key h = Some k ->
  last_with_key k hs = Some h.
Proof.
  induction hs as [| h0 rest IH]; simpl; intros Hnd Hin Hk; [contradiction |].
  inversion Hnd as [| ? ? Hnot Hrest]; subst.
  destruct Hin as [-> | Hin].
  - destruct (last_with_key k rest) as [h' |] eqn:Hl.
    + exfalso. apply last_with_key_in in Hl. destruct Hl as [Hin' Hk'].
      apply Hnot. rewrite Hk, <- Hk'. now apply in_map.
    + rewrite Hk, String.eqb_refl. reflexivity.
  - now rewrite (IH Hrest Hin Hk).
Qed.

Lemma clean_record_fields h :
  clean_record h = true ->
  exists d s,
    h = PDict d /\ lookup "name" d = Some (PStr s) /\ nonempty (strip s) = true
    /\ match lookup "price" d with
       | None | Some PNone => True
       | Some p => exists a, to_float p = Ok a
       end.
Proof.
  unfold clean_record. destruct h as [| | | | | | d]; try discriminate.
  intros H. apply andb_prop in H. destruct H as [Hn Hp].
  destruct (lookup "name" d) as [[] |] eqn:Hname; try discriminate.
  exists d, s. repeat split; try assumption.
  destruct (lookup "price" d) as [p |]; [| exact I].
  destruct p; try exact I;
    (destruct (to_float _) as [a |] eqn:Ha; [eauto | discriminate]).
Qed.

Lemma field_checks_self llm_name h :
  clean_record h = true -> field_checks llm_name h h = Ok [].
Proof.
  intros Hc. destruct (clean_record_fields h Hc) as (d & s & -> & Hn & Hs & Hp).
  assert (Hprice : check_price llm_name (PDict d) (PDict d) = Ok []).
  { destruct (lookup "price" d) as [p |] eqn:Hl.
    - assert (Hg : get1 (PDict d) "price" = Ok p)
        by (unfold get1, get; now rewrite Hl).
      destruct (is_none p) eqn:Hnone.
      + apply (check_price_absent _ _ _ p p Hg Hg). now rewrite Hnone.
      + rewrite (check_price_spec _ _ _ p p Hg Hg Hnone Hnone).
        assert (Ha : exists a, to_float p = Ok a)
          by (destruct p; try discriminate; exact Hp).
        destruct Ha as (a & ->).
        destruct (fsub_self_small a 4503599627370496) as [H1 _].
        unfold f1. now rewrite H1.
    - assert (Hg : get1 (PDict d) "price" = Ok PNone)
        by (unfold get1, get; now rewrite Hl).
      now apply (check_price_absent _ _ _ PNone PNone Hg Hg). }
  assert (Hrating : check_rating llm_name (PDict d) (PDict d) = Ok []).
  { erewrite check_rating_result by reflexivity.
    unfold ratings_contradict.
    destruct (rating_value _) as [a |]; [| now rewrite andb_false_r].
    destruct (fsub_self_small a 7205759403792794) as [_ H2].
    unfold f0_1. rewrite H2. now rewrite andb_false_r. }
  unfold field_checks. rewrite Hprice, Hrating. reflexivity.
Qed.

Lemma verify_hotel_self hs m h :
  build_api_hotel_map hs [] = Ok m ->
  NoDup (map index_key hs) -> In h hs -> clean_record h = true ->
  verify_hotel (PList hs) m h = Ok [].
Proof.
  intros Hm Hnd Hin Hc.
  destruct (clean_record_fields h Hc) as (d & s & -> & Hn & Hs & _).
  unfold verify_hotel, get. rewrite Hn. simpl. rewrite Hs. simpl.
  assert (Hk : index_key (PDict d) = Some (lower (strip s))).
  { unfold index_key, get. rewrite Hn. now rewrite strip_lower. }
  rewrite (build_api_hotel_map_lookup _ _ _ (lower (strip s)) Hm).
  assert (Hne : nonempty (lower (strip s)) = true).
  { destruct (strip s); [discriminate | reflexivity]. }
  rewrite Hne, (last_with_key_unique _ _ _ Hnd Hin Hk).
  assert (Ht : truthy (PDict d) = true).
  { destruct d; [discriminate | reflexivity]. }
  rewrite Ht. simpl. now apply field_checks_self.
Qed.

Lemma verify_hotels_self hs m lhs :
  build_api_hotel_map hs [] = Ok m ->
  NoDup (map index_key hs) ->
  (forall h, In h lhs -> In h hs /\ clean_record h = true) ->
  verify_hotels (PList hs) m lhs = Ok [].
Proof.
  intros Hm Hnd. induction lhs as [| h rest IH]; simpl; intros Hall.
  - reflexivity.
  - destruct (Hall h (or_introl eq_refl)) as [Hin Hc].
    rewrite (verify_hotel_self hs m h Hm Hnd Hin Hc). simpl.
    rewrite IH by (intros h' Hh'; apply Hall; now right). reflexivity.
Qed.

Lemma clean_record_name_is_text h : clean_record h = true -> name_is_text h = true.
Proof.
  intros Hc. destruct (clean_record_fields h Hc) as (d & s & -> & Hn & _).
  unfold name_is_text, get. now rewrite Hn.
Qed.

Lemma verify_grounding_self api_data llm_claims hotels :
  get api_data "top_hotels" (PList []) = Ok (PList hotels) ->
  claimed_hotels llm_claims = Ok (PList hotels) ->
  Forall (fun h => clean_record h = true) hotels ->
  NoDup (map index_key hotels) ->
  verify_grounding api_data llm_claims = Ok [].
Proof.
  intros Hapi Hllm Hclean Hnd.
  unfold verify_grounding. rewrite Hllm. unfold bind at 1. rewrite Hapi.
  unfold bind at 1.
  destruct hotels as [| h0 rest] eqn:Hh; [reflexivity |]. rewrite <- Hh in *.
  assert (Ht : truthy (PList hotels) = true) by (subst; reflexivity).
  rewrite Ht. unfold count_validation. rewrite Ht.
  cbn [negb bind length iter]. rewrite Z.ltb_irrefl. cbn [bind app].
  destruct (proj2 (build_api_hotel_map_returns hotels [])) as (m & Hm).
  { eapply Forall_impl; [| exact Hclean].
    intros h. apply clean_record_name_is_text. }
  rewrite Hm. cbn [bind].
  rewrite (verify_hotels_self hotels m hotels Hm Hnd).
  - reflexivity.
  - intros h Hin. split; [exact Hin |].
    rewrite Forall_forall in Hclean. now apply Hclean.
Qed.

(** X3. Claims that repeat the API hotels raise no grounding issue, when the
    hotels have distinct names (as the index normalizes them), none blank,
    and prices that convert to a float or are absent. *)
Theorem verify_grounding_of_the_facts :
  forall api_data llm_claims hotels,
    get api_data "top_hotels" (PList []) = Ok (PList hotels) ->
    claimed_hotels llm_claims = Ok (PList hotels) ->
    Forall (fun h => clean_record h = true) hotels ->
    NoDup (map index_key hotels) ->
    verify_grounding api_data llm_claims = Ok [].
Proof. intros api_data llm_claims hotels. apply verify_grounding_self. Qed.

Lemma verify_grounding_of_the_facts_witness :
  verify_grounding (top_hotels paris_mock) (top_hotels paris_mock) = Ok [].
Proof.
  apply (verify_grounding_of_the_facts
           (top_hotels paris_mock) (top_hotels paris_mock) paris_mock);
    [reflexivity | reflexivity | repeat constructor | ].
  repeat constructor; simpl; intuition discriminate.
Defined.

(** ** Duplicates and missing names in [check_consistency] *)

Lemma count_cons x y l :
  count x (y :: l) = (if String.eqb x y then 1 else 0) + count x l.
Proof.
  unfold count. cbn [filter]. destruct (String.eqb x y); cbn [List.length]; lia.
Qed.

Lemma count_nonneg x l : 0 <= count x l.
Proof. unfold count. lia. Qed.

Lemma count_zero x l : count x l = 0 <-> ~ In x l.
Proof.
  induction l as [| y l IH]; [unfold count; simpl; tauto |].
  rewrite count_cons. pose proof (count_nonneg x l).
  destruct (String.eqb x y) eqn:He.
  - apply String.eqb_eq in He. subst.
    split; [lia | intros Hn; exfalso; apply Hn; now left].
  - apply String.eqb_neq in He. rewrite Z.add_0_l, IH.
    split; [intros Hn [Hy | Hl]; [congruence | auto] |].
    intros Hn Hl. apply Hn. now right.
Qed.

Lemma repeated_iff_not_nodup l :
  filter (fun name => 1 <? count name l) l = [] <-> NoDup l.
Proof.
  split.
  - intros Hf.
    assert (Hone : forall x, In x l -> count x l <= 1).
    { intros x Hin. destruct (1 <? count x l) eqn:Hlt; [| now apply Z.ltb_ge].
      assert (Hx : In x (filter (fun name => 1 <? count name l) l))
        by (apply filter_In; auto).
      rewrite Hf in Hx. contradiction. }
    clear Hf. induction l as [| y l IH]; constructor.
    + intros Hin. specialize (Hone y (or_introl eq_refl)).
      rewrite count_cons, String.eqb_refl in Hone.
      assert (count y l = 0) by (pose proof (count_nonneg y l); lia).
      now apply count_zero in H.
    + apply IH. intros x Hin. specialize (Hone x (or_intror Hin)).
      rewrite count_cons in Hone. destruct (String.eqb x y); lia.
  - intros Hnd.
    assert (Hone : forall x, In x l -> count x l = 1).
    { induction Hnd as [| y l Hnot Hnd IH]; [contradiction |].
      intros x [-> | Hin]; rewrite count_cons.
      - rewrite String.eqb_refl. apply count_zero in Hnot. lia.
      - destruct (String.eqb x y) eqn:He.
        + apply String.eqb_eq in He. subst. contradiction.
        + rewrite (IH x Hin). reflexivity. }
    destruct (filter _ l) as [| x f] eqn:Hf; [reflexivity |].
    assert (Hx : In x (filter (fun name => 1 <? count name l) l))
      by (rewrite Hf; now left).
    apply filter_In in Hx. destruct Hx as [Hin Hlt].
    rewrite (Hone x Hin) in Hlt. discriminate.
Qed.

Lemma distinct_in x l : In x (distinct l) <-> In x l.
Proof.
  induction l as [| y l IH]; simpl; [tauto |].
  rewrite filter_In, IH. split.
  - intros [-> | [Hin _]]; auto.
  - intros [-> | Hin]; [now left |].
    destruct (String.eqb y x) eqn:He.
    + apply String.eqb_eq in He. now left.
    + right. split; [assumption | reflexivity].
Qed.

Lemma distinct_nodup l : NoDup (distinct l).
Proof.
  induction l as [| y l IH]; simpl; constructor.
  - rewrite filter_In. intros [_ H]. now rewrite String.eqb_refl in H.
  - now apply NoDup_filter.
Qed.

Lemma missing_names_no_duplicates hotels :
  forall i l, missing_names i hotels = Ok l -> existsb duplicate_report l = false.
Proof.
  induction hotels as [| h rest IH]; simpl; intros i l H; break_ok H.
  - reflexivity.
  - rewrite existsb_app.
    match goal with E : missing_names _ _ = Ok _ |- _ => rewrite (IH _ _ E) end.
    split_ifs; reflexivity.
Qed.

Lemma negative_price_shape hotel l :
  negative_price hotel = Ok l ->
  l = [] \/ exists name price, l = [Negative_price name price].
Proof. unfold negative_price; intros H; break_ok H; split_ifs; eauto. Qed.

Lemma rating_range_shape hotel l :
  rating_range hotel = Ok l ->
  l = [] \/ exists name rating, l = [Invalid_rating name rating].
Proof. unfold rating_range; intros H; break_ok H; split_ifs; eauto. Qed.

(** The issues of lines 253-281 are about prices and ratings only. *)
Lemma logical_inconsistencies_shape hotels :
  forall l, logical_inconsistencies hotels = Ok l ->
            Forall (fun i => (exists name price, i = Negative_price name price)
                             \/ (exists name rating, i = Invalid_rating name rating)) l.
Proof.
  induction hotels as [| h rest IH]; simpl; intros l H.
  - inversion H. constructor.
  - bind_inv H. bind_inv H. bind_inv H. inversion H; subst; clear H.
    apply Forall_app. split; [| apply Forall_app; split; [| now apply IH]].
    + destruct (negative_price_shape _ _ E) as [-> | (n & p & ->)];
        [constructor | constructor; [left; eauto | constructor]].
    + destruct (rating_range_shape _ _ E0) as [-> | (n & r & ->)];
        [constructor | constructor; [right; eauto | constructor]].
Qed.

Lemma logical_inconsistencies_no_duplicates hotels :
  forall l, logical_inconsistencies hotels = Ok l ->
            existsb duplicate_report l = false.
Proof.
  intros l H. apply logical_inconsistencies_shape in H.
  induction H as [| i l Hi Hl IH]; simpl; [reflexivity |].
  rewrite IH. destruct Hi as [(n & p & ->) | (n & r & ->)]; reflexivity.
Qed.

(** X4. [check_consistency] reports duplicates exactly when two claimed hotels
    with a true name share it, letter case apart; the report then names each
    repeated name once. *)
Theorem duplicates_reported :
  forall llm_claims hotels hs names found,
    claimed_hotels llm_claims = Ok hotels ->
    iter hotels = Ok hs ->
    lowered_names hs = Ok names ->
    check_consistency llm_claims = Ok found ->
    (NoDup names <-> existsb duplicate_report found = false)
    /\ (forall ds, In (Duplicate_entries ds) found ->
                   NoDup ds /\ forall n, In n ds <-> 1 < count n names).
Proof.
  intros llm_claims hotels hs names found Hc Hi Hn H.
  unfold check_consistency in H. rewrite Hc in H. simpl in H.
  rewrite Hi in H. simpl in H. rewrite Hn in H. simpl in H.
  bind_inv H. bind_inv H. inversion H; subst; clear H.
  pose proof (missing_names_no_duplicates _ _ _ E) as Hm.
  pose proof (logical_inconsistencies_no_duplicates _ _ E0) as Hl.
  pose proof (repeated_iff_not_nodup names) as Hrep.
  remember (filter (fun name => 1 <? count name names) names) as dups eqn:Hd.
  split.
  - rewrite !existsb_app, Hm, Hl, !orb_false_r. rewrite <- Hrep.
    destruct dups; simpl; split; congruence.
  - intros ds Hin. apply in_app_or in Hin. destruct Hin as [Hin | Hin].
    + assert (Hds : ds = distinct dups).
      { destruct dups; [contradiction |].
        destruct Hin as [Heq | []]. now inversion Heq. }
      subst ds. split; [apply distinct_nodup |].
      intros n. rewrite distinct_in, Hd, filter_In, Z.ltb_lt.
      split; [tauto |]. intros Hlt. split; [| assumption].
      destruct (in_dec string_dec n names) as [Hy | Hno]; [assumption |].
      apply count_zero in Hno. lia.
    + exfalso.
      assert (Hex : existsb duplicate_report (x ++ x0) = true).
      { apply existsb_exists. exists (Duplicate_entries ds). auto. }
      rewrite existsb_app, Hm, Hl in Hex. discriminate.
Qed.

Lemma duplicates_reported_witness :
  (NoDup ["grand hotel paris"; "grand hotel paris"; "luxury suites"]
   <-> existsb duplicate_report [Duplicate_entries ["grand hotel paris"]] = false)
  /\ (forall ds,
        In (Duplicate_entries ds) [Duplicate_entries ["grand hotel paris"]] ->
        NoDup ds
        /\ forall n, In n ds <->
                     1 < count n ["grand hotel paris"; "grand hotel paris"; "luxury suites"]).
Proof.
  apply (duplicates_reported
           (top_hotels [hotel "Grand Hotel Paris" []; hotel "GRAND hotel Paris" [];
                        hotel "Luxury Suites" []])
           (PList [hotel "Grand Hotel Paris" []; hotel "GRAND hotel Paris" [];
                   hotel "Luxury Suites" []])
           [hotel "Grand Hotel Paris" []; hotel "GRAND hotel Paris" [];
            hotel "Luxury Suites" []]);
    vm_compute; reflexivity.
Defined.

Lemma missing_names_indexes hotels :
  forall k l i,
    missing_names k hotels = Ok l ->
    (In (Missing_name_field i) l <->
     (k <= i)%nat /\ exists h, nth_error hotels (i - k) = Some h /\ nameless h = true).
Proof.
  induction hotels as [| h rest IH]; simpl; intros k l i H.
  - inversion H; subst. simpl. split; [contradiction |].
    intros (_ & h & Hn & _). destruct (i - k)%nat; discriminate.
  - bind_inv H. bind_inv H. inversion H; subst; clear H.
    rewrite in_app_iff, (IH _ _ i E0).
    assert (Hh : nameless h = negb (truthy x)) by (unfold nameless; now rewrite E).
    split.
    + intros [Hin | (Hle & h' & Hn & Hf)].
      * destruct (negb (truthy x)) eqn:Ht; [| contradiction].
        destruct Hin as [Heq | []]. inversion Heq; subst i.
        split; [lia |]. exists h. rewrite Nat.sub_diag. auto.
      * split; [lia |]. exists h'.
        replace (i - k)%nat with (S (i - S k)) by lia. auto.
    + intros (Hle & h' & Hn & Hf).
      destruct (Nat.eq_dec i k) as [-> | Hne].
      * left. rewrite Nat.sub_diag in Hn. inversion Hn; subst h'.
        rewrite <- Hh, Hf. now left.
      * right. split; [lia |]. exists h'.
        replace (i - k)%nat with (S (i - S k)) in Hn by lia. auto.
Qed.

(** X5. [check_consistency] reports a missing name at index [i] exactly when the
    claimed hotel at that index has no name, [None] or an empty one. *)
Theorem missing_name_reported :
  forall llm_claims hotels hs found i,
    claimed_hotels llm_claims = Ok hotels ->
    iter hotels = Ok hs ->
    check_consistency llm_claims = Ok found ->
    (In (Missing_name_field i) found <->
     exists h, nth_error hs i = Some h /\ nameless h = true).
Proof.
  intros llm_claims hotels hs found i Hc Hi H.
  unfold check_consistency in H. rewrite Hc in H. simpl in H.
  rewrite Hi in H. simpl in H.
  bind_inv H. bind_inv H. bind_inv H. inversion H; subst; clear H.
  rewrite !in_app_iff, (missing_names_indexes _ _ _ i E0), Nat.sub_0_r.
  split.
  - intros [Hd | [(_ & Hm) | Hl]]; [| exact Hm |].
    + destruct (filter _ x); simpl in Hd; intuition discriminate.
    + exfalso. apply logical_inconsistencies_shape in E1.
      rewrite Forall_forall in E1. apply E1 in Hl.
      destruct Hl as [(n & p & Hl) | (n & r & Hl)]; discriminate.
  - intros Hm. right. left. split; [lia | exact Hm].
Qed.

Lemma missing_name_reported_witness :
  In (Missing_name_field 1)
     [Missing_name_field 1; Missing_name_field 2]
  <-> exists h,
        nth_error [hotel "Grand Hotel Paris" []; hotel "" []; PDict [("price", PInt 90)]] 1
        = Some h /\ nameless h = true.
Proof.
  apply (missing_name_reported
           (top_hotels [hotel "Grand Hotel Paris" []; hotel "" [];
                        PDict [("price", PInt 90)]])
           (PList [hotel "Grand Hotel Paris" []; hotel "" [];
                   PDict [("price", PInt 90)]]));
    vm_compute; reflexivity.
Defined.

(** ** [detect_misinformation_patterns] *)

(** X6. The pattern detector is silent whenever the API data hold hotels, for any
    text; when it speaks, it reports at most one issue of each of its three
    kinds, in a fixed order. *)
Theorem misinformation_patterns_spec :
  forall response_text api_data top found,
    get1 api_data "top_hotels" = Ok top ->
    detect_misinformation_patterns response_text api_data = Ok found ->
    (truthy top = true -> found = [])
    /\ (List.length found <= 3)%nat
    /\ exists overconfident vague numbers,
         found = overconfident ++ vague ++ numbers
         /\ (overconfident = []
             \/ exists p, overconfident = [Overconfident_language p]
                          /\ In p overconfident_patterns)
         /\ (vague = []
             \/ exists p, vague = [Vague_claim p] /\ In p vague_data_patterns)
         /\ (numbers = []
             \/ exists ms, numbers = [Prices_without_data ms] /\ ms <> []).
Proof.
  intros response_text api_data top found Ht H.
  unfold detect_misinformation_patterns in H. rewrite Ht in H.
  cbn [bind] in H.
  destruct (truthy top); cbn [negb] in H.
  - inversion H; subst; clear H. split; [reflexivity |]. split; [simpl; lia |].
    exists [], [], []. repeat split; auto.
  - bind_inv H. rename x into text.
    split; [discriminate |].
    assert (Ho : forall ps, first_pattern ps text = None
                            \/ exists p, first_pattern ps text = Some p /\ In p ps).
    { intros ps. unfold first_pattern.
      destruct (find _ ps) as [p |] eqn:Hf; [right | now left].
      apply find_some in Hf. exists p. tauto. }
    apply Ok_inj in H. subst found.
    split.
    { rewrite !length_app.
      destruct (first_pattern overconfident_patterns text),
               (first_pattern vague_data_patterns text),
               (findall_prices None text); simpl; lia. }
    eexists _, _, _. split; [reflexivity |]. split; [| split].
    + destruct (Ho overconfident_patterns) as [-> | (p & -> & Hin)];
        [now left | right; eauto].
    + destruct (Ho vague_data_patterns) as [-> | (p & -> & Hin)];
        [now left | right; eauto].
    + destruct (findall_prices None text) as [| m ms];
        [now left | right; eexists; split; [reflexivity | discriminate]].
Qed.

Lemma misinformation_patterns_spec_witness :
  (truthy PNone = true ->
   [Overconfident_language "definitely"; Prices_without_data ["$90"]] = [])
  /\ (List.length [Overconfident_language "definitely"; Prices_without_data ["$90"]]
      <= 3)%nat
  /\ exists overconfident vague numbers,
       [Overconfident_language "definitely"; Prices_without_data ["$90"]]
       = overconfident ++ vague ++ numbers
       /\ (overconfident = []
           \/ exists p, overconfident = [Overconfident_language p]
                        /\ In p overconfident_patterns)
       /\ (vague = []
           \/ exists p, vague = [Vague_claim p] /\ In p vague_data_patterns)
       /\ (numbers = []
           \/ exists ms, numbers = [Prices_without_data ms] /\ ms <> []).
Proof.
  apply (misinformation_patterns_spec
           (PStr "It is DEFINITELY always $90 a night") (PDict []));
    vm_compute; reflexivity.
Defined.

(** ** The counters of the summary *)

(** X7. The counters of the summary add up to the length of the merged list;
    a summary of HIGH confidence has every counter at zero and no critical
    flag, and the critical flag comes with LOW confidence. *)
Theorem summary_counters :
  forall api_data llm_claims response_text all_issues s,
    comprehensive_check api_data llm_claims response_text = Ok (all_issues, s) ->
    total_issues s
    = grounding_issues s + consistency_issues s
      + plausibility_concerns s + misinformation_patterns s
    /\ 0 <= grounding_issues s /\ 0 <= consistency_issues s
    /\ 0 <= plausibility_concerns s /\ 0 <= misinformation_patterns s
    /\ (confidence s = HIGH ->
        all_issues = [] /\ has_critical_issues s = false
        /\ grounding_issues s = 0 /\ consistency_issues s = 0
        /\ plausibility_concerns s = 0 /\ misinformation_patterns s = 0)
    /\ (has_critical_issues s = true -> confidence s = LOW)
    /\ (truthy response_text = false -> misinformation_patterns s = 0).
Proof.
  intros api_data llm_claims response_text all_issues s H.
  unfold comprehensive_check in H.
  bind_inv H. bind_inv H. bind_inv H. bind_inv H.
  apply Ok_inj in H. inversion H; subst; clear H.
  cbn [total_issues grounding_issues consistency_issues plausibility_concerns
       misinformation_patterns has_critical_issues confidence].
  unfold count_of. rewrite !length_app, !Nat2Z.inj_add.
  split; [lia |]. split; [lia |]. split; [lia |]. split; [lia |]. split; [lia |].
  split; [| split].
  - destruct (_ =? 0) eqn:Hz; [intros _ | discriminate].
    apply Z.eqb_eq in Hz.
    destruct x; [| cbn [List.length] in Hz; lia].
    destruct x0; [| cbn [List.length] in Hz; lia].
    destruct x1; [| cbn [List.length] in Hz; lia].
    destruct x2; [| cbn [List.length] in Hz; lia].
    repeat split.
  - destruct x; [discriminate |]. intros _.
    destruct (_ =? 0) eqn:Hz; [| reflexivity].
    apply Z.eqb_eq in Hz. cbn [List.length] in Hz. lia.
  - intros Hf. rewrite Hf in E2. now inversion E2.
Qed.

Lemma summary_counters_witness :
  total_issues (summary_of 1 1 0 0)
  = grounding_issues (summary_of 1 1 0 0) + consistency_issues (summary_of 1 1 0 0)
    + plausibility_concerns (summary_of 1 1 0 0)
    + misinformation_patterns (summary_of 1 1 0 0)
  /\ 0 <= grounding_issues (summary_of 1 1 0 0)
  /\ 0 <= consistency_issues (summary_of 1 1 0 0)
  /\ 0 <= plausibility_concerns (summary_of 1 1 0 0)
  /\ 0 <= misinformation_patterns (summary_of 1 1 0 0)
  /\ (confidence (summary_of 1 1 0 0) = HIGH ->
      [Invalid_data_no_name; Missing_name_field 0] = []
      /\ has_critical_issues (summary_of 1 1 0 0) = false
      /\ grounding_issues (summary_of 1 1 0 0) = 0
      /\ consistency_issues (summary_of 1 1 0 0) = 0
      /\ plausibility_concerns (summary_of 1 1 0 0) = 0
      /\ misinformation_patterns (summary_of 1 1 0 0) = 0)
  /\ (has_critical_issues (summary_of 1 1 0 0) = true ->
      confidence (summary_of 1 1 0 0) = LOW)
  /\ (truthy (PStr "") = false -> misinformation_patterns (summary_of 1 1 0 0) = 0).
Proof.
  apply (summary_counters one_api_hotel blank_claim (PStr "")).
  vm_compute. reflexivity.
Defined.

(** ** The flag and the issues of [validate_fusion_quality] *)

Lemma flag_coherent v i : invalidating i = true -> coherent (flag v i).
Proof.
  intros Hi. unfold coherent, flag. simpl.
  rewrite existsb_app. simpl. rewrite Hi. now rewrite orb_true_r.
Qed.

Lemma note_coherent v i :
  invalidating i = false -> coherent v -> coherent (note v i).
Proof.
  intros Hi Hv. unfold coherent, note in *. simpl.
  rewrite existsb_app. simpl. rewrite Hi. now rewrite !orb_false_r.
Qed.

Lemma synthesis_check_coherent api_hotels llm_hotels response_text v v' :
  synthesis_check api_hotels llm_hotels response_text v = Ok v' ->
  coherent v -> coherent v'.
Proof.
  unfold synthesis_check. intros H Hv.
  bind_inv H. bind_inv H. bind_inv H. bind_inv H.
  set (v1 := if existsb _ _ then v else flag v Fusion_names_do_not_match) in H.
  assert (H1 : coherent v1)
    by (unfold v1; destruct (existsb _ _); [exact Hv | now apply flag_coherent]).
  clearbody v1.
  destruct (truthy response_text); [| apply Ok_inj in H; now subst].
  bind_inv H. rename x3 into text.
  set (v2 := if existsb _ x0 then v1 else flag v1 Fusion_no_api_hotel_mentioned) in H.
  assert (H2 : coherent v2)
    by (unfold v2; destruct (existsb _ x0); [exact H1 | now apply flag_coherent]).
  clearbody v2.
  destruct (negb (any_in value_indicators (lower text)));
    [| apply Ok_inj in H; now subst].
  bind_inv H. destruct (1 <? x3); apply Ok_inj in H; subst; [| exact H2].
  assert (H3 : coherent (note v2 Fusion_no_meaningful_synthesis))
    by now apply note_coherent.
  destruct (fst (note v2 Fusion_no_meaningful_synthesis)); [| exact H3].
  now apply note_coherent.
Qed.

Lemma accuracy_loop_coherent api_hotel_map llm_hotels :
  forall v v', accuracy_loop api_hotel_map llm_hotels v = Ok v' ->
               coherent v -> coherent v'.
Proof.
  induction llm_hotels as [| h rest IH]; simpl; intros v v' H Hv.
  - apply Ok_inj in H. now subst.
  - bind_inv H.
    destruct (truthy _); [| now apply (IH _ _ H)].
    bind_inv H. bind_inv H.
    destruct (negb (is_none x0) && negb (is_none x1)); [| now apply (IH _ _ H)].
    destruct (_ <- to_float x0 ;; _) as [[a b] | e].
    + destruct (fgt (fabs (fsub a b)) f1); [| now apply (IH _ _ H)].
      bind_inv H. apply (IH _ _ H). now apply flag_coherent.
    + destruct e; try discriminate; now apply (IH _ _ H).
Qed.

Lemma blending_check_coherent api_hotels response_text v v' :
  blending_check api_hotels response_text v = Ok v' ->
  coherent v -> coherent v'.
Proof.
  unfold blending_check. intros H Hv. bind_inv H. rename x into text.
  set (v1 := if any_in factual_indicators (lower text)
             then v else flag v Fusion_lacks_facts) in H.
  assert (H1 : coherent v1)
    by (unfold v1; destruct (any_in factual_indicators _);
        [exact Hv | now apply flag_coherent]).
  clearbody v1.
  destruct (negb (any_in reasoning_indicators (lower text)));
    [| apply Ok_inj in H; now subst].
  bind_inv H. apply Ok_inj in H. subst.
  destruct (1 <? x); [now apply note_coherent | exact H1].
Qed.

Lemma validate_fusion_quality_coherent api_data llm_response valid found :
  validate_fusion_quality api_data llm_response = Ok (valid, found) ->
  coherent (valid, found).
Proof.
  unfold validate_fusion_quality. intros H.
  bind_inv H. bind_inv H. bind_inv H. bind_inv H.
  rename x into text, x1 into api_hotels, x2 into llm_hotels.
  set (v0 := if truthy api_hotels && negb (truthy llm_hotels)
             then flag (true, []) Fusion_api_data_ignored else (true, [])) in H.
  assert (H0 : coherent v0)
    by (unfold v0; destruct (_ && _); [now apply flag_coherent | reflexivity]).
  clearbody v0.
  bind_inv H. rename x into v1.
  assert (H1 : coherent v1).
  { destruct (truthy api_hotels && truthy llm_hotels).
    - eapply synthesis_check_coherent; eassumption.
    - apply Ok_inj in E3. now subst. }
  bind_inv H. rename x into v2.
  assert (H2 : coherent v2).
  { destruct (truthy api_hotels && truthy llm_hotels).
    - bind_inv E4. bind_inv E4. bind_inv E4.
      eapply accuracy_loop_coherent; eassumption.
    - apply Ok_inj in E4. now subst. }
  destruct (truthy api_hotels && truthy text).
  - eapply blending_check_coherent; eassumption.
  - apply Ok_inj in H. now subst.
Qed.

(** X8. The flag of [validate_fusion_quality] is cleared exactly when the list
    holds an issue other than a warning, so an invalid fusion always comes
    with an issue that says why. *)
Theorem fusion_flag_matches_issues :
  forall api_data llm_response valid found,
    validate_fusion_quality api_data llm_response = Ok (valid, found) ->
    (valid = false <-> exists i, In i found /\ invalidating i = true)
    /\ (valid = false -> found <> []).
Proof.
  intros api_data llm_response valid found H.
  apply validate_fusion_quality_coherent in H. unfold coherent in H. simpl in H.
  assert (Hiff : valid = false <-> exists i, In i found /\ invalidating i = true).
  { rewrite H, negb_false_iff. apply existsb_exists. }
  split; [exact Hiff |].
  intros Hv. apply Hiff in Hv. destruct Hv as (i & Hin & _).
  intros ->. contradiction.
Qed.

Lemma fusion_flag_matches_issues_witness :
  (is_valid listing_quality = false <->
   exists i, In i (issues listing_quality) /\ invalidating i = true)
  /\ (is_valid listing_quality = false -> issues listing_quality <> []).
Proof.
  apply (fusion_flag_matches_issues two_hotels listing).
  vm_compute. reflexivity.
Defined.

(** ** Derived facts about the fusion score *)

(** X9. An invalid fusion scores at most 65 and is graded Needs Improvement; the
    score is 100 exactly when the fusion is valid and meaningful and has no
    issue; a grade of Excellent is given only to a valid and meaningful
    fusion. *)
Theorem fusion_score_by_validity :
  forall api_data llm_response q,
    get_fusion_quality_score api_data llm_response = Ok q ->
    (is_valid q = false -> score q <= 65 /\ grade q = Needs_Improvement)
    /\ (score q = 100 <->
        is_valid q = true /\ is_meaningful q = true /\ issues q = [])
    /\ (grade q = Excellent -> is_valid q = true /\ is_meaningful q = true).
Proof.
  intros api_data llm_response q H.
  unfold get_fusion_quality_score in H.
  bind_inv H. destruct x as [valid found].
  bind_inv H. destruct x as [meaningful why].
  apply Ok_inj in H. subst q.
  cbn [score is_valid is_meaningful issues grade].
  apply validate_fusion_quality_coherent in E. unfold coherent in E. simpl in E.
  rewrite fusion_score_penalties.
  pose proof (grade_of_spec
                (Z.max 0 (100 - penalties valid meaningful
                                  (Z.of_nat (List.length found)))))
    as (He & _ & Hi).
  assert (Hlen : valid = false -> 1 <= Z.of_nat (List.length found)).
  { intros Hv. rewrite Hv in E.
    destruct found; [discriminate | cbn [List.length]; lia]. }
  clear E.
  assert (Hn : 0 <= Z.of_nat (List.length found)) by lia.
  unfold penalties in *.
  split; [| split].
  - intros Hv. specialize (Hlen Hv). subst valid.
    assert (Hs : Z.max 0 (100 - (30 + (if meaningful then 0 else 20)
                                 + 5 * Z.of_nat (List.length found))) <= 65)
      by (destruct meaningful; lia).
    split; [exact Hs |]. apply Hi. lia.
  - split.
    + intros Hs. destruct valid, meaningful, found;
        cbn [List.length] in *; try lia; auto.
    + intros (-> & -> & ->). reflexivity.
  - intros Hg. apply He in Hg.
    destruct valid; [| specialize (Hlen eq_refl); destruct meaningful; lia].
    destruct meaningful; [auto | lia].
Qed.

Lemma fusion_score_by_validity_witness :
  (is_valid listing_quality = false ->
   score listing_quality <= 65 /\ grade listing_quality = Needs_Improvement)
  /\ (score listing_quality = 100 <->
      is_valid listing_quality = true /\ is_meaningful listing_quality = true
      /\ issues listing_quality = [])
  /\ (grade listing_quality = Excellent ->
      is_valid listing_quality = true /\ is_meaningful listing_quality = true).
Proof.
  apply (fusion_score_by_validity two_hotels listing).
  vm_compute. reflexivity.
Defined.

(** X10. Without API hotels there is nothing to fuse: when the answer is a
    dictionary whose claims are a dictionary, so that the reads of lines
    26-29 succeed, the fusion is valid and meaningful, has no issue, and
    scores 100, Excellent, whatever the text and the claimed hotels are. *)
Theorem fusion_score_without_api_hotels :
  forall api_data llm_response api_hotels response_text llm_claims llm_hotels,
    get api_data "top_hotels" (PList []) = Ok api_hotels ->
    truthy api_hotels = false ->
    get llm_response "response_to_user" (PStr "") = Ok response_text ->
    get llm_response "claims" (PDict []) = Ok llm_claims ->
    get llm_claims "top_hotels" (PList []) = Ok llm_hotels ->
    get_fusion_quality_score api_data llm_response
    = Ok {| score := 100;
            is_valid := true;
            is_meaningful := true;
            synthesis_quality := No_api_data;
            issues := [];
            grade := Excellent |}.
Proof.
  intros api_data llm_response api_hotels response_text llm_claims llm_hotels
         Ha Hf Ht Hc Hl.
  unfold get_fusion_quality_score, validate_fusion_quality,
    validate_meaningful_synthesis.
  rewrite Ht, Hc, Ha. cbn [bind]. rewrite Hl. cbn [bind].
  rewrite Hf. reflexivity.
Qed.

Lemma fusion_score_without_api_hotels_witness :
  get_fusion_quality_score (PDict [("error", PStr "Tool not found")])
    (PDict [("response_to_user", PInt 7); ("claims", top_hotels [PInt 3])])
  = Ok {| score := 100;
          is_valid := true;
          is_meaningful := true;
          synthesis_quality := No_api_data;
          issues := [];
          grade := Excellent |}.
Proof.
  apply (fusion_score_without_api_hotels
           (PDict [("error", PStr "Tool not found")])
           (PDict [("response_to_user", PInt 7); ("claims", top_hotels [PInt 3])])
           (PList []) (PInt 7) (top_hotels [PInt 3]) (PList [PInt 3]));
    reflexivity.
Defined.

(** The reads come first: claims that are JSON null make the scorer raise at
    line 29, with or without API hotels. *)
Example null_claims_raise_in_the_scorer :
  get_fusion_quality_score (top_hotels [])
    (PDict [("response_to_user", PStr "Nothing found."); ("claims", PNone)])
  = Raise AttributeError.
Proof. vm_compute. reflexivity. Qed.

(** * Further properties of a turn *)

Lemma tool_completions_app l1 l2 :
  tool_completions (l1 ++ l2) = tool_completions l1 ++ tool_completions l2.
Proof. unfold tool_completions. apply flat_map_app. Qed.

Lemma printed_app l1 l2 : printed (l1 ++ l2) = printed l1 ++ printed l2.
Proof. unfold printed. apply flat_map_app. Qed.

Lemma run_tool_no_tool_completion w tc full :
  tool_completions (fst (run_tool w tc full)) = []
  /\ printed (fst (run_tool w tc full)) = [].
Proof.
  unfold run_tool, bindM, lift, emit, ret.
  destruct (String.eqb (function_name tc) "search_hotels").
  - destruct (get1 _ "city") as [c |]; simpl; [| auto].
    destruct (get1 _ "check_in") as [ci |]; simpl; [| auto].
    destruct (get1 _ "check_out") as [co |]; simpl; [| auto].
    destruct (search_hotels w c ci co) as [[] |]; simpl; auto.
    destruct (lookup "hotels" d); simpl; auto.
    destruct (slice_to 5 p); simpl; auto.
  - simpl. auto.
Qed.

Lemma run_tools_no_tool_completion w tcs :
  forall full messages,
    tool_completions (fst (run_tools w tcs full messages)) = []
    /\ printed (fst (run_tools w tcs full messages)) = [].
Proof.
  induction tcs as [| tc rest IH]; simpl; intros full messages; [auto |].
  unfold bindM.
  pose proof (run_tool_no_tool_completion w tc full) as [Hc Hv].
  destruct (run_tool w tc full) as [log [step | e]]; simpl in *; [| auto].
  specialize (IH (fst step) (messages ++ [snd step])). destruct IH as [IHc IHv].
  destruct (run_tools w rest (fst step) (messages ++ [snd step])) as [log' r].
  simpl in *. rewrite tool_completions_app, printed_app, Hc, Hv, IHc, IHv. auto.
Qed.

(** The events of a correction round: its completion call, then at most the
    line about the corrected answer. *)
Lemma correct_log w messages full s quoted :
  exists tail,
    fst (correct w messages full s quoted)
    = Completion (messages ++ [Correction (total_issues s) (firstn 5 quoted)]) :: tail
    /\ (tail = [] \/ exists line, tail = [Printed line]).
Proof.
  unfold correct, bindM, emit, lift, ret.
  destruct (json_loads w _) as [cd |]; [| eexists; split; [reflexivity | now left]].
  destruct (get cd "claims" (PDict [])) as [cc |];
    [| eexists; split; [reflexivity | now left]].
  destruct (get cd "response_to_user" (PStr "")) as [ct |];
    [| eexists; split; [reflexivity | now left]].
  destruct (comprehensive_check full cc ct) as [[ci cs] |];
    eexists; (split; [reflexivity |]); [right; eexists; reflexivity | now left].
Qed.

Lemma report_log_no_tool_completion q valid fusion_issues s all_issues :
  tool_completions (report_log q valid fusion_issues s all_issues) = [].
Proof.
  unfold report_log. rewrite tool_completions_app.
  assert (Hw : forall l : list issue,
             tool_completions (map (fun i => Printed (Warning_line i)) l) = []).
  { induction l; simpl; auto. }
  destruct fusion_issues, all_issues; simpl; rewrite ?Hw; auto.
Qed.

(** The events of [grounded_response]: its completion call, then lines and at
    most one more completion call, none with the tool declaration. *)
Lemma grounded_response_log w messages full :
  exists tail,
    fst (grounded_response w messages full) = Completion messages :: tail
    /\ tool_completions tail = []
    /\ (List.length (completions tail) <= 1)%nat
    /\ (List.length (verdicts tail) <= 1)%nat.
Proof.
  assert (Hstop : forall r : result string,
             exists tail,
               fst ([Completion messages], r) = Completion messages :: tail
               /\ tool_completions tail = []
               /\ (List.length (completions tail) <= 1)%nat
               /\ (List.length (verdicts tail) <= 1)%nat).
  { intros r. exists []. simpl. auto. }
  destruct (json_loads w (create w messages)) as [fd |] eqn:Hj.
  2: { unfold grounded_response, bindM, emit, emits, lift, ret.
       rewrite Hj. apply Hstop. }
  destruct (get fd "claims" (PDict [])) as [cl |] eqn:Hc.
  2: { unfold grounded_response, bindM, emit, emits, lift, ret.
       rewrite Hj, Hc. apply Hstop. }
  destruct (get fd "response_to_user" (PStr "")) as [tx |] eqn:Ht.
  2: { unfold grounded_response, bindM, emit, emits, lift, ret.
       rewrite Hj, Hc, Ht. apply Hstop. }
  destruct (comprehensive_check full cl tx) as [[all s] |] eqn:Hk.
  2: { unfold grounded_response, bindM, emit, emits, lift, ret.
       rewrite Hj, Hc, Ht, Hk. apply Hstop. }
  destruct (validate_fusion_quality full fd) as [[valid fi] |] eqn:Hv.
  2: { unfold grounded_response, bindM, emit, emits, lift, ret.
       rewrite Hj, Hc, Ht, Hk, Hv. apply Hstop. }
  destruct (get_fusion_quality_score full fd) as [q |] eqn:Hq.
  2: { unfold grounded_response, bindM, emit, emits, lift, ret.
       rewrite Hj, Hc, Ht, Hk, Hv, Hq. apply Hstop. }
  rewrite (grounded_response_checked _ _ _ _ _ _ _ _ _ _ _ Hj Hc Ht Hk Hv Hq).
  set (quoted := with_fusion_issues all valid fi).
  destruct (report_log_silent q valid fi s quoted) as [Hrc Hrv].
  pose proof (report_log_no_tool_completion q valid fi s quoted) as Hrt.
  destruct (has_critical_issues s).
  - destruct (correct_log w messages full s quoted) as (tail & Hl & Htail).
    cbn [fst]. rewrite Hl. eexists. split; [reflexivity |].
    rewrite tool_completions_app, completions_app, verdicts_app, Hrc, Hrv, Hrt.
    destruct Htail as [-> | (line & ->)]; [simpl; auto |].
    destruct line; simpl; auto.
  - cbn [fst]. eexists. split; [reflexivity |]. rewrite Hrc, Hrv, Hrt. simpl. auto.
Qed.

(** X11. Every turn makes exactly one completion call with the tool declaration,
    its first event, at most two calls without it, and prints at most one
    line about a correction: no input makes the turn call the generator more
    than three times. *)
Theorem chat_call_bound :
  forall w user_input history,
  exists tail,
    fst (chat w user_input history)
    = Completion_with_tools (opening w user_input history) :: tail
    /\ tool_completions tail = []
    /\ (List.length (completions tail) <= 2)%nat
    /\ (List.length (verdicts tail) <= 1)%nat.
Proof.
  intros w user_input history.
  unfold chat, bindM, emit. fold (opening w user_input history).
  destruct (tool_calls (create_with_tools w (opening w user_input history)))
    as [| tc tcs].
  - exists []. simpl. repeat split; auto; lia.
  - set (ms := opening w user_input history ++ _).
    pose proof (run_tools_completions w (tc :: tcs) [] ms) as [Hc Hv].
    pose proof (run_tools_no_tool_completion w (tc :: tcs) [] ms) as [Ht _].
    destruct (run_tools w (tc :: tcs) [] ms) as [tlog [[full messages] | e]];
      cbn [fst] in Hc, Hv, Ht.
    + destruct (grounded_response_log w messages (PDict full))
        as (tail & Hl & Htt & Hcc & Hvv).
      destruct (grounded_response w messages (PDict full)) as [glog r].
      cbn [fst] in Hl. subst glog. cbn [fst app].
      eexists. split; [reflexivity |].
      rewrite tool_completions_app, completions_app, verdicts_app, Hc, Hv, Ht.
      simpl. rewrite Htt. repeat split; auto. lia.
    + cbn [fst app]. eexists. split; [reflexivity |].
      rewrite Hc, Hv, Ht. simpl. repeat split; auto; lia.
Qed.

(** X12. An answer that does not parse as JSON is returned as it is: after the
    tools, the turn makes the one completion call, runs no check, prints
    nothing and makes no correction call. *)
Theorem unparseable_answer_returned :
  forall w user_input history tools_log full_api_data messages,
    tool_calls (create_with_tools w (opening w user_input history)) <> [] ->
    run_tools w (tool_calls (create_with_tools w (opening w user_input history))) []
      (opening w user_input history
         ++ [Assistant (create_with_tools w (opening w user_input history))])
    = (tools_log, Ok (full_api_data, messages)) ->
    json_loads w (create w messages) = None ->
    chat w user_input history
    = (Completion_with_tools (opening w user_input history)
         :: tools_log ++ [Completion messages],
       Ok (create w messages))
    /\ printed (fst (chat w user_input history)) = [].
Proof.
  intros w user_input history tools_log full_api_data messages Hcalls Htools Hj.
  assert (Hchat : chat w user_input history
                  = (Completion_with_tools (opening w user_input history)
                       :: tools_log ++ [Completion messages],
                     Ok (create w messages))).
  { rewrite (chat_with_tools _ _ _ _ _ _ Hcalls Htools).
    unfold grounded_response, bindM, emit, ret. rewrite Hj. reflexivity. }
  split; [exact Hchat |]. rewrite Hchat. cbn [fst].
  pose proof (run_tools_no_tool_completion w
                (tool_calls (create_with_tools w (opening w user_input history))) []
                (opening w user_input history
                   ++ [Assistant (create_with_tools w (opening w user_input history))]))
    as [_ Hp].
  rewrite Htools in Hp. cbn [fst] in Hp.
  change (printed (Completion_with_tools (opening w user_input history)
                     :: tools_log ++ [Completion messages]))
    with (printed (tools_log ++ [Completion messages])).
  now rewrite printed_app, Hp.
Qed.

Lemma unparseable_answer_returned_witness :
  chat seven_world "hotels in Paris" []
  = (Completion_with_tools (opening seven_world "hotels in Paris" [])
       :: [Search (PStr "Paris") PNone PNone]
       ++ [Completion
             (opening seven_world "hotels in Paris" []
                ++ [Assistant {| content := ""; tool_calls := [paris_tool_call] |};
                    Tool_output "call_1" "search_hotels"
                      (PDict [("top_hotels", PList (firstn 5 seven_hotels));
                              ("city", PStr "Paris")])])],
     Ok (create seven_world
           (opening seven_world "hotels in Paris" []
              ++ [Assistant {| content := ""; tool_calls := [paris_tool_call] |};
                  Tool_output "call_1" "search_hotels"
                    (PDict [("top_hotels", PList (firstn 5 seven_hotels));
                            ("city", PStr "Paris")])])))
  /\ printed (fst (chat seven_world "hotels in Paris" [])) = [].
Proof.
  apply (unparseable_answer_returned seven_world "hotels in Paris" []
           [Search (PStr "Paris") PNone PNone]
           [("top_hotels", PList (firstn 5 seven_hotels)); ("city", PStr "Paris")]);
    solve [ discriminate | vm_compute; reflexivity ].
Defined.

(** ** What the tools leave in the API data *)

Lemma firstn_at_most {A : Type} n (l : list A) : (List.length (firstn n l) <= n)%nat.
Proof. rewrite length_firstn. lia. Qed.

(** X13. A search that returns hotels leaves at most five of them, the first
    five, under [top_hotels], with the city of the search result; the tool
    message carries the same capped data, and the other keys of the API data
    are as before. *)
Theorem search_results_capped :
  forall w tc full_api_data city check_in check_out d hotels,
    function_name tc = "search_hotels" ->
    get1 (function_args w tc) "city" = Ok city ->
    get1 (function_args w tc) "check_in" = Ok check_in ->
    get1 (function_args w tc) "check_out" = Ok check_out ->
    search_hotels w city check_in check_out = Ok (PDict d) ->
    lookup "hotels" d = Some (PList hotels) ->
    let found_city := match lookup "city" d with Some c => c | None => PNone end in
    let capped := [("top_hotels", PList (firstn 5 hotels)); ("city", found_city)] in
    run_tool w tc full_api_data
    = ([Search city check_in check_out],
       Ok (update full_api_data capped,
           Tool_output (id tc) "search_hotels" (PDict capped)))
    /\ lookup "top_hotels" (update full_api_data capped)
       = Some (PList (firstn 5 hotels))
    /\ lookup "city" (update full_api_data capped) = Some found_city
    /\ (List.length (firstn 5 hotels) <= 5)%nat
    /\ (forall k, k <> "top_hotels" -> k <> "city" ->
                  lookup k (update full_api_data capped) = lookup k full_api_data).
Proof.
  intros w tc full city check_in check_out d hotels Hn Hc Hi Ho Hs Hh
         found_city capped.
  split; [| split; [| split; [| split]]].
  - unfold run_tool, bindM, lift, emit, ret. fold (function_args w tc).
    rewrite Hn. cbn [String.eqb Ascii.eqb Bool.eqb andb].
    rewrite Hc, Hi, Ho. cbn [app fst snd]. rewrite Hs. cbn [app].
    rewrite Hh. reflexivity.
  - unfold update, capped. cbn [fold_left fst snd].
    rewrite lookup_setitem_other by reflexivity. apply lookup_setitem_same.
  - unfold update, capped. cbn [fold_left fst snd]. apply lookup_setitem_same.
  - apply firstn_at_most.
  - intros k Hk1 Hk2. unfold update, capped. cbn [fold_left fst snd].
    rewrite !lookup_setitem_other; [reflexivity | |];
      now apply String.eqb_neq.
Qed.

Lemma search_results_capped_witness :
  run_tool seven_world paris_tool_call [("error", PStr "Tool not found")]
  = ([Search (PStr "Paris") PNone PNone],
     Ok (update [("error", PStr "Tool not found")]
           [("top_hotels", PList (firstn 5 seven_hotels)); ("city", PStr "Paris")],
         Tool_output (id paris_tool_call) "search_hotels"
           (PDict [("top_hotels", PList (firstn 5 seven_hotels));
                   ("city", PStr "Paris")])))
  /\ lookup "top_hotels"
       (update [("error", PStr "Tool not found")]
          [("top_hotels", PList (firstn 5 seven_hotels)); ("city", PStr "Paris")])
     = Some (PList (firstn 5 seven_hotels))
  /\ lookup "city"
       (update [("error", PStr "Tool not found")]
          [("top_hotels", PList (firstn 5 seven_hotels)); ("city", PStr "Paris")])
     = Some (PStr "Paris")
  /\ (List.length (firstn 5 seven_hotels) <= 5)%nat
  /\ (forall k, k <> "top_hotels" -> k <> "city" ->
                lookup k
                  (update [("error", PStr "Tool not found")]
                     [("top_hotels", PList (firstn 5 seven_hotels));
                      ("city", PStr "Paris")])
                = lookup k [("error", PStr "Tool not found")]).
Proof.
  apply (search_results_capped seven_world paris_tool_call
           [("error", PStr "Tool not found")] (PStr "Paris") PNone PNone
           [("hotels", PList seven_hotels); ("city", PStr "Paris")] seven_hotels);
    reflexivity.
Defined.

(** ** The messages of the first call *)

Lemma last10_length {A : Type} (l : list A) :
  List.length (last10 l) = Nat.min 10 (List.length l).
Proof. unfold last10. rewrite length_skipn. lia. Qed.

Lemma last10_short {A : Type} (l : list A) :
  (List.length l <= 10)%nat -> last10 l = l.
Proof.
  intros H. unfold last10.
  replace (List.length l - 10)%nat with 0%nat by lia. reflexivity.
Qed.

Lemma last10_app {A : Type} (older recent : list A) :
  (10 <= List.length recent)%nat -> last10 (older ++ recent) = last10 recent.
Proof.
  intros H. unfold last10. rewrite length_app, skipn_app.
  replace (List.length older + List.length recent - 10 - List.length older)%nat
    with (List.length recent - 10)%nat by lia.
  rewrite skipn_all2 by lia. reflexivity.
Qed.

Lemma chat_same_window w user_input history history' :
  last10 history' = last10 history ->
  chat w user_input history' = chat w user_input history.
Proof. intros H. unfold chat. now rewrite H. Qed.

(** X14. A turn reads the history only through its last ten entries: two
    histories with the same last ten entries give the same turn, calls, log
    and result alike, so entries older than the tenth from the end change
    nothing. The first completion call of the turn is made on the system
    prompt, those entries in their order, and the user's input: at most
    twelve messages. *)
Theorem chat_history_window :
  forall w user_input history,
    (forall history',
        last10 history' = last10 history ->
        chat w user_input history' = chat w user_input history)
    /\ chat w user_input (last10 history) = chat w user_input history
    /\ (forall older,
          (10 <= List.length history)%nat ->
          chat w user_input (older ++ history) = chat w user_input history)
    /\ List.length (last10 history) = Nat.min 10 (List.length history)
    /\ (exists older, history = older ++ last10 history)
    /\ exists tail,
         fst (chat w user_input history)
         = Completion_with_tools
             (System_prompt (today w)
                :: last10 history ++ [Role_content "user" user_input])
           :: tail
         /\ (List.length
               (System_prompt (today w)
                  :: last10 history ++ [Role_content "user" user_input])
             <= 12)%nat.
Proof.
  intros w user_input history.
  pose proof (last10_length history) as Hlen.
  split; [intros history'; apply chat_same_window |].
  split; [apply chat_same_window, last10_short; rewrite Hlen; lia |].
  split; [intros older H; apply chat_same_window; now apply last10_app |].
  split; [exact Hlen |]. split.
  - exists (firstn (List.length history - 10) history).
    unfold last10. now rewrite firstn_skipn.
  - unfold chat, bindM, emit. cbn [app].
    destruct (tool_calls _).
    + eexists. split; [reflexivity |].
      cbn [List.length]. rewrite length_app, Hlen. cbn [List.length]. lia.
    + destruct (run_tools _ _ _ _) as [tlog [[full messages] | e]].
      * destruct (grounded_response w messages (PDict full)) as [glog r].
        eexists. split; [reflexivity |].
        cbn [List.length]. rewrite length_app, Hlen. cbn [List.length]. lia.
      * eexists. split; [reflexivity |].
        cbn [List.length]. rewrite length_app, Hlen. cbn [List.length]. lia.
Qed.

(** ** The hotel service *)

Lemma chars_length s : List.length (chars s) = String.length s.
Proof. induction s as [| c s IH]; simpl; congruence. Qed.

Lemma substring_at_most n s : (String.length (String.substring 0 n s) <= n)%nat.
Proof.
  revert s; induction n as [| n IH]; intros [| c s]; simpl; try lia.
  specialize (IH s). lia.
Qed.

Lemma mapM_length {A B : Type} (f : A -> result B) l ys :
  mapM f l = Ok ys -> List.length ys = List.length l.
Proof.
  revert ys; induction l as [| x l IH]; simpl; intros ys H.
  - apply Ok_inj in H. now subst.
  - bind_inv H. bind_inv H. apply Ok_inj in H. subst. simpl. f_equal. now apply IH.
Qed.

Lemma mapM_all {A B : Type} (f : A -> result B) (P : B -> bool) l ys :
  (forall x y, f x = Ok y -> P y = true) ->
  mapM f l = Ok ys -> forallb P ys = true.
Proof.
  intros Hf. revert ys; induction l as [| x l IH]; simpl; intros ys H.
  - apply Ok_inj in H. now subst.
  - bind_inv H. bind_inv H. apply Ok_inj in H. subst. simpl.
    rewrite (Hf _ _ E), (IH _ E0). reflexivity.
Qed.

Lemma slice_iter_at_most n v s l :
  slice_to n v = Ok s -> iter s = Ok l -> (List.length l <= n)%nat.
Proof.
  destruct v; simpl; intros H; try discriminate; apply Ok_inj in H; subst; simpl;
    intros H; apply Ok_inj in H; subst.
  - rewrite chars_length. apply substring_at_most.
  - apply firstn_at_most.
Qed.

Lemma link_of_truthy record city link :
  APIService.link_of record city = Ok link -> truthy link = true.
Proof.
  unfold APIService.link_of. intros H. binds_inv H.
  destruct (truthy _) eqn:Hl in H; cbn [negb] in H.
  - apply Ok_inj in H. now subst.
  - bind_inv H. apply Ok_inj in H. subst. reflexivity.
Qed.

Lemma hotel_of_property_is_hotel city prop h :
  APIService.hotel_of_property city prop = Ok h -> is_hotel h = true.
Proof.
  unfold APIService.hotel_of_property. intros H. binds_inv H.
  apply Ok_inj in H. subst. cbn.
  match goal with E : APIService.link_of _ _ = Ok _ |- _ =>
    apply link_of_truthy in E; exact E end.
Qed.

Lemma hotel_of_ad_is_hotel city ad h :
  APIService.hotel_of_ad city ad = Ok h -> is_hotel h = true.
Proof.
  unfold APIService.hotel_of_ad. intros H. binds_inv H.
  apply Ok_inj in H. subst. cbn.
  match goal with E : APIService.link_of _ _ = Ok _ |- _ =>
    apply link_of_truthy in E; exact E end.
Qed.

Lemma forallb_filter {A : Type} (P q : A -> bool) l :
  forallb P l = true -> forallb P (filter q l) = true.
Proof.
  induction l as [| x l IH]; simpl; [easy |].
  intros H. apply andb_prop in H as [Hx Hl].
  destruct (q x); simpl; [rewrite Hx |]; auto.
Qed.

Lemma filter_at_most {A : Type} (q : A -> bool) l :
  (List.length (filter q l) <= List.length l)%nat.
Proof. induction l as [| x l IH]; simpl; [lia |]. destruct (q x); simpl; lia. Qed.

Lemma parse_hotels_returns city data hotels :
  APIService.parse_hotels city data = Ok hotels ->
  (List.length hotels <= 5)%nat /\ forallb is_hotel hotels = true.
Proof.
  unfold APIService.parse_hotels. intros H.
  bind_inv H. bind_inv H.
  assert (Hlisted : (List.length x0 <= 5)%nat /\ forallb is_hotel x0 = true).
  { destruct x.
    - bind_inv E0. bind_inv E0. bind_inv E0. split.
      + rewrite (mapM_length _ _ _ E0). eapply slice_iter_at_most; eassumption.
      + eapply mapM_all; [| exact E0]. apply hotel_of_property_is_hotel.
    - apply Ok_inj in E0. subst. split; [simpl; lia | reflexivity]. }
  destruct Hlisted as [Hlen Hall].
  bind_inv H.
  destruct (x1 && _) eqn:Hads.
  - bind_inv H. bind_inv H. bind_inv H. bind_inv H. apply Ok_inj in H. subst.
    split.
    + rewrite length_app.
      pose proof (filter_at_most APIService.priced x5).
      pose proof (mapM_length _ _ _ E5).
      pose proof (slice_iter_at_most _ _ _ _ E3 E4). lia.
    + rewrite forallb_app, Hall. apply forallb_filter.
      eapply mapM_all; [| exact E5]. apply hotel_of_ad_is_hotel.
  - apply Ok_inj in H. subst. auto.
Qed.

Lemma ord_chars s : exists codes, mapM APIService.ord (chars s) = Ok codes.
Proof.
  induction s as [| c s [codes IH]]; simpl; [eauto |].
  rewrite IH. simpl. eauto.
Qed.

Lemma ord_sum_text s : exists n, APIService.ord_sum (PStr s) = Ok n.
Proof.
  unfold APIService.ord_sum. simpl. destruct (ord_chars s) as [codes ->].
  simpl. eauto.
Qed.

Lemma ord_sum_not_iterable v :
  not_iterable v = true -> APIService.ord_sum v = Raise TypeError.
Proof. destruct v; simpl; intros H; try discriminate; reflexivity. Qed.

Lemma mock_hotels_text city :
  exists hotels,
    APIService._get_mock_hotels (PStr city)
    = Ok (PDict [("hotels", PList hotels);
                 ("source", PStr simulated_source);
                 ("city", PStr city)])
    /\ List.length hotels = 3%nat
    /\ forallb is_hotel hotels = true.
Proof.
  unfold APIService._get_mock_hotels.
  destruct (ord_sum_text city) as [n ->]. cbn [bind].
  eexists. split; [reflexivity |]. split; reflexivity.
Qed.

(** X15. For a city that is a text, the search always returns: between one and
    five hotels, each a dictionary of the seven fields with a link, under the
    city asked for. The hotels are the provider's only when the service has a
    key and the request gave a body from which at least one hotel was read;
    in every other case (no key, a timeout, an error status, a body that is
    not as expected, no hotel in it) they are the three placeholder hotels. *)
Theorem search_hotels_on_a_city :
  forall serpapi_key outcome city,
  exists hotels source,
    APIService.search_hotels serpapi_key outcome (PStr city)
    = Ok (PDict [("hotels", PList hotels);
                 ("source", PStr source);
                 ("city", PStr city)])
    /\ (1 <= List.length hotels <= 5)%nat
    /\ forallb is_hotel hotels = true
    /\ (source = live_source
        /\ (exists key data,
               serpapi_key = Some key /\ key <> ""%string
               /\ outcome = APIService.Body data
               /\ APIService.parse_hotels (PStr city) data = Ok hotels)
        \/ source = simulated_source
           /\ APIService.search_hotels serpapi_key outcome (PStr city)
              = APIService._get_mock_hotels (PStr city)).
Proof.
  intros serpapi_key outcome city.
  destruct (mock_hotels_text city) as (mock & Hmock & Hlen & Hall).
  assert (Hfallback :
            APIService.search_hotels serpapi_key outcome (PStr city)
            = APIService._get_mock_hotels (PStr city) ->
            exists hotels source,
              APIService.search_hotels serpapi_key outcome (PStr city)
              = Ok (PDict [("hotels", PList hotels);
                           ("source", PStr source);
                           ("city", PStr city)])
              /\ (1 <= List.length hotels <= 5)%nat
              /\ forallb is_hotel hotels = true
              /\ (source = live_source
                  /\ (exists key data,
                         serpapi_key = Some key /\ key <> ""%string
                         /\ outcome = APIService.Body data
                         /\ APIService.parse_hotels (PStr city) data = Ok hotels)
                  \/ source = simulated_source
                     /\ APIService.search_hotels serpapi_key outcome (PStr city)
                        = APIService._get_mock_hotels (PStr city))).
  { intros Heq. exists mock, simulated_source.
    rewrite Heq, Hmock. repeat split; try lia; auto. }
  destruct serpapi_key as [[| c key] |]; try (apply Hfallback; reflexivity).
  destruct outcome as [| | | data]; try (apply Hfallback; reflexivity).
  destruct (APIService.parse_hotels (PStr city) data) as [[| h hs] | e] eqn:Hparse;
    try (apply Hfallback; simpl; rewrite Hparse; reflexivity).
  destruct (parse_hotels_returns _ _ _ Hparse) as [Hn Hh].
  exists (h :: hs), live_source. simpl. rewrite Hparse.
  split; [reflexivity |]. split; [simpl in *; lia |]. split; [exact Hh |].
  left. split; [reflexivity |].
  exists (String c key), data. repeat split; congruence.
Qed.

(** X16. For a city that cannot be iterated ([None], a number, a truth value), the
    search returns only the provider's hotels; whenever it would fall back on
    the placeholder data it raises [TypeError] instead. *)
Theorem search_hotels_without_a_city :
  forall serpapi_key outcome city,
    not_iterable city = true ->
    APIService.search_hotels serpapi_key outcome city = Raise TypeError
    \/ exists key data h hs,
         serpapi_key = Some key /\ key <> ""%string
         /\ outcome = APIService.Body data
         /\ APIService.parse_hotels city data = Ok (h :: hs)
         /\ APIService.search_hotels serpapi_key outcome city
            = Ok (PDict [("hotels", PList (h :: hs));
                         ("source", PStr live_source);
                         ("city", city)]).
Proof.
  intros serpapi_key outcome city Hcity.
  assert (Hmock : APIService._get_mock_hotels city = Raise TypeError).
  { unfold APIService._get_mock_hotels. now rewrite (ord_sum_not_iterable _ Hcity). }
  destruct serpapi_key as [[| c key] |]; try (left; exact Hmock).
  destruct outcome as [| | | data]; try (left; exact Hmock).
  destruct (APIService.parse_hotels city data) as [[| h hs] | e] eqn:Hparse.
  - left. simpl. now rewrite Hparse.
  - right. exists (String c key), data, h, hs. simpl. rewrite Hparse.
    repeat split; congruence.
  - left. simpl. now rewrite Hparse.
Qed.

Lemma search_hotels_without_a_city_witness :
  not_iterable PNone = true
  /\ (APIService.search_hotels None APIService.Timed_out PNone = Raise TypeError
      \/ exists key data h hs,
           None = Some key /\ key <> ""%string
           /\ APIService.Timed_out = APIService.Body data
           /\ APIService.parse_hotels PNone data = Ok (h :: hs)
           /\ APIService.search_hotels None APIService.Timed_out PNone
              = Ok (PDict [("hotels", PList (h :: hs));
                           ("source", PStr live_source);
                           ("city", PNone)])).
Proof.
  split; [reflexivity |].
  apply (search_hotels_without_a_city None APIService.Timed_out PNone). reflexivity.
Defined.

Lemma default_price_value seed :
  0 <= seed < 20 ->
  (tens <- float_of_int (seed * 10) ;; Ok (APIService.fadd APIService.f150 tens))
  = float_of_int (150 + seed * 10).
Proof.
  intros Hs.
  assert (Hcases : seed = 0 \/ seed = 1 \/ seed = 2 \/ seed = 3 \/ seed = 4
                   \/ seed = 5 \/ seed = 6 \/ seed = 7 \/ seed = 8 \/ seed = 9
                   \/ seed = 10 \/ seed = 11 \/ seed = 12 \/ seed = 13 \/ seed = 14
                   \/ seed = 15 \/ seed = 16 \/ seed = 17 \/ seed = 18 \/ seed = 19)
    by lia.
  repeat (destruct Hcases as [-> | Hcases]; [vm_compute; reflexivity |]).
  subst. vm_compute. reflexivity.
Qed.

(** X17. A record with none of the four price fields and a text for a name is
    priced from the name: 150 plus ten times the sum of its character codes
    modulo 20, a whole number of tens from 150 to 340. A record with no name
    gets 150. *)
Theorem extract_price_from_the_name :
  forall d name,
    lookup "rate_per_night" d = None ->
    lookup "total_rate" d = None ->
    lookup "extracted_price" d = None ->
    lookup "price" d = None ->
    get (PDict d) "name" (PStr "") = Ok (PStr name) ->
    exists total,
      APIService.ord_sum (PStr name) = Ok total
      /\ APIService._extract_price (PDict d) = float_of_int (150 + total mod 20 * 10)
      /\ 150 <= 150 + total mod 20 * 10 <= 340
      /\ (name = ""%string -> total = 0).
Proof.
  intros d name Hn Ht He Hp Hname.
  destruct (ord_sum_text name) as [total Htotal]. exists total.
  split; [exact Htotal |]. split; [| split].
  - unfold APIService._extract_price, APIService.extracted_lowest,
      APIService.direct_price, APIService.contains_key.
    rewrite Hn, Ht, He, Hp. cbn [bind].
    unfold APIService.default_price. rewrite Hname. cbn [bind].
    rewrite Htotal. cbn [bind].
    apply default_price_value. apply Z.mod_pos_bound. lia.
  - pose proof (Z.mod_pos_bound total 20). lia.
  - intros ->. vm_compute in Htotal. now apply Ok_inj in Htotal.
Qed.

Lemma extract_price_from_the_name_witness :
  exists total,
    APIService.ord_sum (PStr "Ritz") = Ok total
    /\ APIService._extract_price (PDict [("name", PStr "Ritz"); ("reviews", PInt 12)])
       = float_of_int (150 + total mod 20 * 10)
    /\ 150 <= 150 + total mod 20 * 10 <= 340
    /\ ("Ritz"%string = ""%string -> total = 0).
Proof.
  apply (extract_price_from_the_name
           [("name", PStr "Ritz"); ("reviews", PInt 12)] "Ritz"); reflexivity.
Defined.

(** X18. When the service has no key and the model asks for a search without a
    city (or with one that is a number or a truth value), the turn ends in
    [TypeError]: it is raised by the placeholder data, after the first
    completion and the search, and [chat] does not catch it. *)
Theorem search_without_city_fails :
  forall w serpapi_key request user_input history tc rest city check_in check_out,
    serpapi_key = None \/ serpapi_key = Some ""%string ->
    tool_calls (create_with_tools w (opening w user_input history)) = tc :: rest ->
    function_name tc = "search_hotels"%string ->
    get1 (function_args w tc) "city" = Ok city ->
    get1 (function_args w tc) "check_in" = Ok check_in ->
    get1 (function_args w tc) "check_out" = Ok check_out ->
    not_iterable city = true ->
    chat (with_service w serpapi_key request) user_input history
    = ([Completion_with_tools (opening w user_input history);
        Search city check_in check_out],
       Raise TypeError).
Proof.
  intros w serpapi_key request user_input history tc rest city check_in check_out
    Hkey Htc Hname Hcity Hin Hout Hnot.
  unfold chat. cbn [with_service today create_with_tools].
  fold (opening w user_input history). rewrite Htc.
  cbn [run_tools]. unfold run_tool. cbn [with_service json_loads search_hotels].
  fold (function_args w tc). rewrite Hname, Hcity, Hin, Hout.
  assert (Hs : APIService.search_hotels serpapi_key (request city check_in check_out) city
               = Raise TypeError).
  { assert (Hmock : APIService._get_mock_hotels city = Raise TypeError).
    { unfold APIService._get_mock_hotels. now rewrite (ord_sum_not_iterable _ Hnot). }
    destruct Hkey as [-> | ->]; exact Hmock. }
  rewrite String.eqb_refl. unfold lift at 1 2 3. cbn [bindM ret emit app].
  rewrite Hs. reflexivity.
Qed.

Lemma search_without_city_fails_witness :
  chat cityless_world "a hotel please" []
  = ([Completion_with_tools [System_prompt "2025-01-01"; Role_content "user" "a hotel please"];
      Search PNone PNone PNone],
     Raise TypeError).
Proof.
  apply (search_without_city_fails
           {| today := "2025-01-01";
              create_with_tools := fun _ => {| content := ""; tool_calls := [cityless_tool_call] |};
              create := fun _ => "{}";
              search_hotels := fun _ _ _ => Raise KeyError;
              json_loads := fun text => if String.eqb text "{}" then Some (PDict []) else None |}
           None (fun _ _ _ => APIService.Timed_out) "a hotel please" []
           cityless_tool_call [] PNone PNone PNone);
    try reflexivity.
  left; reflexivity.
Defined.

(** ** The placeholder hotels under the checks *)

Lemma append_assoc (a b c : string) : ((a ++ b) ++ c = a ++ (b ++ c))%string.
Proof. induction a as [| x a IH]; simpl; congruence. Qed.

Lemma append_length (a b : string) :
  String.length (a ++ b) = (String.length a + String.length b)%nat.
Proof. induction a as [| x a IH]; simpl; congruence. Qed.

Lemma substring_all b : String.substring 0 (String.length b) b = b.
Proof. induction b as [| x b IH]; simpl; congruence. Qed.

Lemma substring_skip a b :
  String.substring (String.length a) (String.length b) (a ++ b) = b.
Proof. induction a as [| x a IH]; simpl; [apply substring_all | exact IH]. Qed.

Lemma last_chars_app a b : last_chars (String.length b) (a ++ b) = b.
Proof.
  unfold last_chars. rewrite append_length.
  replace (String.length a + String.length b - String.length b)%nat
    with (String.length a) by lia.
  apply substring_skip.
Qed.

Lemma differ_by_ending a b u v :
  String.length u = String.length v -> u <> v -> (a ++ u)%string <> (b ++ v)%string.
Proof.
  intros Hlen Hneq Heq.
  apply (f_equal (last_chars (String.length u))) in Heq.
  rewrite last_chars_app, Hlen, last_chars_app in Heq. contradiction.
Qed.

Lemma lower_app a b : lower (a ++ b) = (lower a ++ lower b)%string.
Proof. induction a as [| x a IH]; simpl; congruence. Qed.

Lemma rstrip_app_keep a w :
  rstrip w = w -> w <> ""%string -> rstrip (a ++ w) = (a ++ w)%string.
Proof.
  intros Hw Hne. induction a as [| x a IH]; simpl; [exact Hw |].
  rewrite IH. destruct (a ++ w)%string eqn:Haw; [| reflexivity].
  destruct a; simpl in Haw; [contradiction | discriminate].
Qed.

Lemma lstrip_app_keep a w :
  lstrip w = w -> exists a', lstrip (a ++ w) = (a' ++ w)%string.
Proof.
  intros Hw. induction a as [| x a [a' IH]]; simpl.
  - exists ""%string. exact Hw.
  - destruct (is_space x); [eauto |]. now exists (String x a).
Qed.

Lemma strip_app_keep a w :
  lstrip w = w -> rstrip w = w -> w <> ""%string ->
  exists a', strip (a ++ w) = (a' ++ w)%string.
Proof.
  intros Hl Hr Hne. unfold strip.
  destruct (lstrip_app_keep a w Hl) as [a' ->].
  exists a'. now apply rstrip_app_keep.
Qed.

Lemma nonempty_app a w : w <> ""%string -> nonempty (a ++ w) = true.
Proof.
  intros Hne. destruct a; simpl; [| reflexivity].
  destruct w; [contradiction | reflexivity].
Qed.

Lemma missing_names_none hs :
  Forall (fun h => nameless h = false /\ exists name, get1 h "name" = Ok name) hs ->
  forall k, missing_names k hs = Ok [].
Proof.
  induction 1 as [| h hs [Hn [name Hname]] _ IH]; simpl; intros k; [reflexivity |].
  unfold nameless in Hn. rewrite Hname in *. cbn [bind].
  rewrite IH. cbn [bind]. apply negb_false_iff in Hn. rewrite Hn. reflexivity.
Qed.

Lemma check_consistency_clean llm_claims hs names :
  claimed_hotels llm_claims = Ok (PList hs) ->
  lowered_names hs = Ok names ->
  NoDup names ->
  Forall (fun h => nameless h = false /\ exists name, get1 h "name" = Ok name) hs ->
  logical_inconsistencies hs = Ok [] ->
  check_consistency llm_claims = Ok [].
Proof.
  intros Hc Hn Hnd Hnames Hlog. unfold check_consistency.
  rewrite Hc. cbn [bind iter]. rewrite Hn. cbn [bind].
  rewrite (proj2 (repeated_iff_not_nodup names) Hnd).
  rewrite (missing_names_none hs Hnames). cbn [bind]. rewrite Hlog. reflexivity.
Qed.

(** The three placeholder names, split before their last three letters. *)
Lemma grand_royale_ending c :
  ("The " ++ c ++ " Grand Royale" = ("The " ++ c ++ " Grand Roy") ++ "ale")%string.
Proof. rewrite !append_assoc. reflexivity. Qed.

Lemma business_boutique_ending c :
  (c ++ " Business Boutique" = (c ++ " Business Bouti") ++ "que")%string.
Proof. rewrite !append_assoc. reflexivity. Qed.

Lemma comfort_inn_ending c :
  (c ++ " Comfort Inn" = (c ++ " Comfort ") ++ "Inn")%string.
Proof. rewrite !append_assoc. reflexivity. Qed.

Lemma placeholder_names c :
  exists a1 a2 a3 b1 b2 b3,
    ("The " ++ c ++ " Grand Royale" = a1 ++ "ale"
     /\ c ++ " Business Boutique" = a2 ++ "que"
     /\ c ++ " Comfort Inn" = a3 ++ "Inn"
     /\ strip ("The " ++ c ++ " Grand Royale") = b1 ++ "ale"
     /\ strip (c ++ " Business Boutique") = b2 ++ "que"
     /\ strip (c ++ " Comfort Inn") = b3 ++ "Inn")%string.
Proof.
  destruct (strip_app_keep ("The " ++ c ++ " Grand Roy") "ale") as [b1 H1];
    try reflexivity; try discriminate.
  destruct (strip_app_keep (c ++ " Business Bouti") "que") as [b2 H2];
    try reflexivity; try discriminate.
  destruct (strip_app_keep (c ++ " Comfort ") "Inn") as [b3 H3];
    try reflexivity; try discriminate.
  rewrite <- grand_royale_ending in H1.
  rewrite <- business_boutique_ending in H2.
  rewrite <- comfort_inn_ending in H3.
  exists ("The " ++ c ++ " Grand Roy")%string, (c ++ " Business Bouti")%string,
    (c ++ " Comfort ")%string, b1, b2, b3.
  repeat split; auto using grand_royale_ending, business_boutique_ending,
    comfort_inn_ending.
Qed.

Lemma three_endings_differ (a1 a2 a3 : string) :
  NoDup [lower (a1 ++ "ale"); lower (a2 ++ "que"); lower (a3 ++ "Inn")].
Proof.
  rewrite !lower_app. change (lower "ale") with "ale"%string.
  change (lower "que") with "que"%string. change (lower "Inn") with "inn"%string.
  repeat constructor; simpl; intros H;
    repeat (destruct H as [H | H];
            [revert H; apply differ_by_ending; [reflexivity | discriminate] |]);
    contradiction.
Qed.

Lemma mock_hotel_clean name price rating type address reviews city :
  nonempty (strip name) = true -> is_ok (float_of_int price) = true ->
  clean_record (APIService.mock_hotel name price rating type address reviews city) = true.
Proof. intros Hn Hp. unfold clean_record. simpl. rewrite Hn. exact Hp. Qed.

Lemma mock_hotel_index_key name price rating type address reviews city :
  index_key (APIService.mock_hotel name price rating type address reviews city)
  = Some (lower (strip name)).
Proof. unfold index_key. simpl. now rewrite strip_lower. Qed.

Lemma mock_hotel_named name price rating type address reviews city :
  nonempty name = true ->
  (fun h => nameless h = false /\ exists v, get1 h "name" = Ok v)
    (APIService.mock_hotel name price rating type address reviews city).
Proof.
  intros Hn. split; [| now exists (PStr name)].
  unfold nameless. simpl. now rewrite Hn.
Qed.

Lemma check_plausibility_of_claims c1 c2 :
  claimed_hotels c1 = claimed_hotels c2 -> check_plausibility c1 = check_plausibility c2.
Proof. intros H. unfold check_plausibility. now rewrite H. Qed.

(** The prices and ratings of the placeholder hotels raise no concern. *)
Lemma placeholder_numbers seed n1 n2 n3 a1 a2 a3 city :
  0 <= seed < 20 ->
  let price_base := 150 + seed * 10 in
  let hs :=
    [APIService.mock_hotel n1 price_base "4.5" "Luxury" a1 1200 city;
     APIService.mock_hotel n2 (price_base - 70) "4.2" "Business" a2 850 city;
     APIService.mock_hotel n3 (price_base - 100) "4.0" "Mid-range" a3 650 city] in
  check_plausibility (top_hotels hs) = Ok []
  /\ logical_inconsistencies hs = Ok []
  /\ is_ok (float_of_int price_base) = true
  /\ is_ok (float_of_int (price_base - 70)) = true
  /\ is_ok (float_of_int (price_base - 100)) = true.
Proof.
  intros Hs. unfold APIService.mock_hotel.
  generalize (APIService.search_link (PStr n1) city),
    (APIService.search_link (PStr n2) city), (APIService.search_link (PStr n3) city).
  intros l1 l2 l3.
  assert (Hcases : seed = 0 \/ seed = 1 \/ seed = 2 \/ seed = 3 \/ seed = 4
                   \/ seed = 5 \/ seed = 6 \/ seed = 7 \/ seed = 8 \/ seed = 9
                   \/ seed = 10 \/ seed = 11 \/ seed = 12 \/ seed = 13 \/ seed = 14
                   \/ seed = 15 \/ seed = 16 \/ seed = 17 \/ seed = 18 \/ seed = 19)
    by lia.
  repeat (destruct Hcases as [-> | Hcases]; [vm_compute; auto |]).
  subst. vm_compute. auto.
Qed.

Lemma get_of_get1 v k x xs :
  get1 v k = Ok (PList (x :: xs)) -> get v k (PList []) = Ok (PList (x :: xs)).
Proof.
  destruct v; simpl; try discriminate.
  destruct (lookup k d); [auto | discriminate].
Qed.

Lemma lookup_head k v (d : dict) : lookup k ((k, v) :: d) = Some v.
Proof. simpl. now rewrite String.eqb_refl. Qed.

(** X19. The placeholder hotels, repeated by the model as they were given, pass
    the whole suite for every city and any answer text: no issue, high
    confidence, no correction asked for. *)
Theorem placeholder_hotels_pass_the_checks :
  forall city d hotels api_data llm_claims response_text,
    APIService._get_mock_hotels (PStr city) = Ok (PDict d) ->
    lookup "hotels" d = Some (PList hotels) ->
    get1 api_data "top_hotels" = Ok (PList hotels) ->
    claimed_hotels llm_claims = Ok (PList hotels) ->
    exists s,
      comprehensive_check api_data llm_claims response_text = Ok ([], s)
      /\ total_issues s = 0
      /\ has_critical_issues s = false
      /\ confidence s = HIGH.
Proof.
  intros city d hotels api_data llm_claims response_text Hmock Hd Hapi Hllm.
  destruct (ord_sum_text city) as [n Hn].
  pose proof (Z.mod_pos_bound n 20 ltac:(lia)) as Hseed.
  destruct (placeholder_names city)
    as (a1 & a2 & a3 & b1 & b2 & b3 & N1 & N2 & N3 & S1 & S2 & S3).
  destruct (placeholder_numbers (n mod 20)
              ("The " ++ city ++ " Grand Royale") (city ++ " Business Boutique")
              (city ++ " Comfort Inn") ("Downtown " ++ city) ("City Center, " ++ city)
              ("Near Airport, " ++ city) (PStr city) Hseed)
    as (Hplausible & Hlogical & P1 & P2 & P3).
  cbv zeta in Hplausible, Hlogical, P1, P2, P3.
  set (hs := [APIService.mock_hotel _ _ _ _ _ _ _; _; _]) in *.
  assert (Hvalue : APIService._get_mock_hotels (PStr city)
                   = Ok (PDict [("hotels", PList hs);
                                ("source", PStr simulated_source);
                                ("city", PStr city)])).
  { unfold APIService._get_mock_hotels. rewrite Hn. reflexivity. }
  rewrite Hvalue in Hmock. apply Ok_inj in Hmock.
  assert (Hdict : d = [("hotels", PList hs);
                       ("source", PStr simulated_source);
                       ("city", PStr city)]) by congruence.
  rewrite Hdict, lookup_head in Hd.
  assert (Hhotels : hotels = hs) by congruence.
  rewrite Hhotels in *. clear Hmock Hdict Hd Hhotels Hvalue.
  assert (Hgrounding : verify_grounding api_data llm_claims = Ok []).
  { apply (verify_grounding_self api_data llm_claims hs).
    - now apply get_of_get1.
    - exact Hllm.
    - subst hs. repeat constructor; apply mock_hotel_clean; try assumption.
      + rewrite S1. apply nonempty_app. discriminate.
      + rewrite S2. apply nonempty_app. discriminate.
      + rewrite S3. apply nonempty_app. discriminate.
    - subst hs. cbn [map]. rewrite !mock_hotel_index_key, S1, S2, S3.
      pose proof (three_endings_differ b1 b2 b3) as Hnd.
      inversion Hnd as [| ? ? H1 Hnd1]; subst.
      inversion Hnd1 as [| ? ? H2 Hnd2]; subst.
      repeat constructor; simpl in *; intuition congruence. }
  assert (Hconsistency : check_consistency llm_claims = Ok []).
  { apply (check_consistency_clean llm_claims hs
             [lower ("The " ++ city ++ " Grand Royale");
              lower (city ++ " Business Boutique");
              lower (city ++ " Comfort Inn")]).
    - exact Hllm.
    - subst hs. cbn [lowered_names APIService.mock_hotel get1 get lookup String.eqb
                       Ascii.eqb Bool.eqb bind truthy as_str].
      rewrite N1, N2, N3, !nonempty_app by discriminate. reflexivity.
    - rewrite N1, N2, N3. apply three_endings_differ.
    - subst hs.
      constructor;
        [apply mock_hotel_named; rewrite N1; apply nonempty_app; discriminate |].
      constructor;
        [apply mock_hotel_named; rewrite N2; apply nonempty_app; discriminate |].
      constructor;
        [apply mock_hotel_named; rewrite N3; apply nonempty_app; discriminate |].
      constructor.
    - exact Hlogical. }
  assert (Hplausibility : check_plausibility llm_claims = Ok []).
  { rewrite <- Hplausible. apply check_plausibility_of_claims. now rewrite Hllm. }
  unfold comprehensive_check.
  rewrite Hgrounding, Hconsistency, Hplausibility. cbn [bind].
  assert (Hmis : (if truthy response_text
                  then detect_misinformation_patterns response_text api_data
                  else Ok []) = Ok []).
  { destruct (truthy response_text); [| reflexivity].
    unfold detect_misinformation_patterns. rewrite Hapi. reflexivity. }
  rewrite Hmis. cbn [bind app]. eexists. split; [reflexivity |]. repeat split.
Qed.

Lemma placeholder_hotels_pass_the_checks_witness :
  exists d hotels,
    APIService._get_mock_hotels (PStr "Paris") = Ok (PDict d)
    /\ lookup "hotels" d = Some (PList hotels)
    /\ exists s,
         comprehensive_check
           (PDict [("top_hotels", PList hotels); ("city", PStr "Paris")])
           (PDict [("city", PStr "Paris"); ("top_hotels", PList hotels)])
           (PStr "Definitely the best hotel, only $99!")
         = Ok ([], s)
         /\ total_issues s = 0
         /\ has_critical_issues s = false
         /\ confidence s = HIGH.
Proof.
  eexists. eexists. split; [reflexivity |]. split; [reflexivity |].
  eapply (placeholder_hotels_pass_the_checks "Paris"); reflexivity.
Defined.

(** ** The key of the completion service *)

Lemma rstrip_idempotent s : rstrip (rstrip s) = rstrip s.
Proof.
  induction s as [| c s IH]; simpl; [reflexivity |].
  destruct (rstrip s) as [| x r] eqn:Hr.
  - destruct (is_space c) eqn:Hc; simpl; [reflexivity | now rewrite Hc].
  - cbn [rstrip]. cbn [rstrip] in IH. rewrite IH. reflexivity.
Qed.

Lemma lstrip_rstrip_lstrip s : lstrip (rstrip (lstrip s)) = rstrip (lstrip s).
Proof.
  induction s as [| c s IH]; simpl; [reflexivity |].
  destruct (is_space c) eqn:Hc; [exact IH |].
  cbn [rstrip]. destruct (rstrip s); rewrite ?Hc; cbn [lstrip]; now rewrite Hc.
Qed.

Lemma strip_idempotent s : strip (strip s) = strip s.
Proof. unfold strip. now rewrite lstrip_rstrip_lstrip, rstrip_idempotent. Qed.

(** X20. The key is read from [OPEN_AI_API_KEY] whenever that variable is set and
    not empty, and only otherwise from [OPENAI_API_KEY]; so a first variable
    that is blank hides the second. The value read is stripped; [ValueError]
    is raised when nothing is left or neither variable is set. A key that is
    returned is not empty and has no white space around it. *)
Theorem api_key_selection :
  forall first second,
    (forall k, first = Some k -> k <> ""%string ->
               __init__ first second = __init__ (Some k) None)
    /\ (first = None \/ first = Some ""%string ->
        __init__ first second = __init__ second None)
    /\ (forall k, __init__ (Some k) None
                  = if nonempty (strip k) then Ok (strip k) else Raise ValueError)
    /\ __init__ None None = Raise ValueError
    /\ (forall key, __init__ first second = Ok key ->
                    key <> ""%string /\ strip key = key).
Proof.
  intros first second.
  assert (Hone : forall k, __init__ (Some k) None
                           = if nonempty (strip k) then Ok (strip k) else Raise ValueError).
  { intros [| c k]; [reflexivity |]. unfold __init__.
    destruct (strip (String c k)); reflexivity. }
  assert (Hkey : forall k key, __init__ (Some k) None = Ok key ->
                               key <> ""%string /\ strip key = key).
  { intros k key H. rewrite Hone in H.
    destruct (strip k) as [| x r] eqn:Hs; simpl in H; [discriminate |].
    apply Ok_inj in H. subst key. split; [discriminate |].
    rewrite <- Hs. apply strip_idempotent. }
  assert (Hsecond : first = None \/ first = Some ""%string ->
                    __init__ first second = __init__ second None).
  { intros [-> | ->]; destruct second as [[| c k] |]; reflexivity. }
  split; [| split; [exact Hsecond | split; [exact Hone | split; [reflexivity |]]]].
  - intros k -> Hk. destruct k; [contradiction | reflexivity].
  - intros key H. destruct first as [[| c k] |].
    + rewrite Hsecond in H by auto.
      destruct second as [k |]; [now apply (Hkey k) | discriminate].
    + apply (Hkey (String c k)). exact H.
    + rewrite Hsecond in H by auto.
      destruct second as [k |]; [now apply (Hkey k) | discriminate].
Qed.

(** A blank [OPEN_AI_API_KEY] makes the engine refuse to start although
    [OPENAI_API_KEY] holds a key. *)
Example blank_key_hides_the_other :
  __init__ (Some "  ") (Some "sk-live") = Raise ValueError
  /\ __init__ (Some "") (Some " sk-live ") = Ok "sk-live"%string.
Proof. split; reflexivity. Qed.

(** ** A search served by the hotel service *)

Lemma check_price_has_results llm_name lh match_ l :
  check_price llm_name lh match_ = Ok l -> existsb no_results_message l = false.
Proof. unfold check_price; intros H; break_ok H; split_ifs; reflexivity. Qed.

Lemma check_rating_has_results llm_name lh match_ l :
  check_rating llm_name lh match_ = Ok l -> existsb no_results_message l = false.
Proof. unfold check_rating; intros H; break_ok H; split_ifs; reflexivity. Qed.

Lemma field_checks_has_results llm_name lh match_ l :
  field_checks llm_name lh match_ = Ok l -> existsb no_results_message l = false.
Proof.
  unfold field_checks; intros H; break_ok H.
  rewrite existsb_app.
  erewrite check_price_has_results, check_rating_has_results by eassumption.
  reflexivity.
Qed.

Lemma verify_hotel_has_results api_hotels api_hotel_map lh l :
  verify_hotel api_hotels api_hotel_map lh = Ok l ->
  existsb no_results_message l = false.
Proof.
  unfold verify_hotel, report_hallucinated; intros H; break_ok H;
    solve [ reflexivity | eapply field_checks_has_results; eassumption ].
Qed.

Lemma verify_hotels_has_results api_hotels api_hotel_map lhs :
  forall l, verify_hotels api_hotels api_hotel_map lhs = Ok l ->
            existsb no_results_message l = false.
Proof.
  induction lhs as [| lh rest IH]; simpl; intros l H; break_ok H.
  - reflexivity.
  - rewrite existsb_app. erewrite verify_hotel_has_results by eassumption.
    now rewrite IH.
Qed.

Lemma count_validation_has_results llm_hotels api_hotels l :
  count_validation llm_hotels api_hotels = Ok l ->
  existsb no_results_message l = false.
Proof. unfold count_validation; intros H; break_ok H; split_ifs; reflexivity. Qed.

Lemma verify_grounding_has_results api_data llm_claims top l :
  get api_data "top_hotels" (PList []) = Ok top ->
  truthy top = true ->
  verify_grounding api_data llm_claims = Ok l ->
  existsb no_results_message l = false.
Proof.
  intros Hget Htop. unfold verify_grounding. intros H.
  bind_inv H. rewrite Hget in H. cbn [bind] in H. rewrite Htop in H.
  cbn [negb] in H. bind_inv H.
  destruct (truthy x).
  - bind_inv H. bind_inv H. bind_inv H. bind_inv H. apply Ok_inj in H. subst l.
    rewrite existsb_app.
    erewrite count_validation_has_results, verify_hotels_has_results by eassumption.
    reflexivity.
  - apply Ok_inj in H. subst l. eapply count_validation_has_results; eassumption.
Qed.

Lemma service_search_text serpapi_key outcome city :
  exists hotels source,
    APIService.search_hotels serpapi_key outcome (PStr city)
    = Ok (PDict [("hotels", PList hotels);
                 ("source", PStr source);
                 ("city", PStr city)])
    /\ (1 <= List.length hotels <= 5)%nat.
Proof.
  destruct (mock_hotels_text city) as (mock & Hmock & Hlen & _).
  assert (Hfallback :
            APIService.search_hotels serpapi_key outcome (PStr city)
            = APIService._get_mock_hotels (PStr city) ->
            exists hotels source,
              APIService.search_hotels serpapi_key outcome (PStr city)
              = Ok (PDict [("hotels", PList hotels);
                           ("source", PStr source);
                           ("city", PStr city)])
              /\ (1 <= List.length hotels <= 5)%nat).
  { intros ->. exists mock, simulated_source. split; [exact Hmock | lia]. }
  destruct serpapi_key as [[| c key] |]; try (apply Hfallback; reflexivity).
  destruct outcome as [| | | data]; try (apply Hfallback; reflexivity).
  destruct (APIService.parse_hotels (PStr city) data) as [[| h hs] | e] eqn:Hparse;
    try (apply Hfallback; simpl; rewrite Hparse; reflexivity).
  destruct (parse_hotels_returns _ _ _ Hparse) as [Hn _].
  exists (h :: hs), live_source. simpl. rewrite Hparse.
  split; [reflexivity | simpl in *; lia].
Qed.

(** X21. A search for a city given as a text, served by the hotel service, always
    succeeds and leaves between one and five hotels under [top_hotels],
    whatever the provider did and whether or not there is a key. So after
    it, grounding never reports that the API gave no results, and the
    pattern detector, which only speaks when there are no API hotels, is
    silent for every text. *)
Theorem served_search_has_results :
  forall w serpapi_key request tc full_api_data city check_in check_out,
    function_name tc = "search_hotels"%string ->
    get1 (function_args w tc) "city" = Ok (PStr city) ->
    get1 (function_args w tc) "check_in" = Ok check_in ->
    get1 (function_args w tc) "check_out" = Ok check_out ->
    exists hotels full' output,
      run_tool (with_service w serpapi_key request) tc full_api_data
      = ([Search (PStr city) check_in check_out], Ok (full', output))
      /\ lookup "top_hotels" full' = Some (PList hotels)
      /\ (1 <= List.length hotels <= 5)%nat
      /\ lookup "city" full' = Some (PStr city)
      /\ (forall llm_claims found,
             verify_grounding (PDict full') llm_claims = Ok found ->
             existsb no_results_message found = false)
      /\ (forall response_text,
             detect_misinformation_patterns response_text (PDict full') = Ok []).
Proof.
  intros w serpapi_key request tc full city check_in check_out Hn Hc Hi Ho.
  destruct (service_search_text serpapi_key (request (PStr city) check_in check_out) city)
    as (hotels & source & Hs & Hlen).
  set (capped := [("top_hotels", PList (firstn 5 hotels)); ("city", PStr city)]).
  assert (Htop : lookup "top_hotels" (update full capped) = Some (PList (firstn 5 hotels))).
  { unfold update, capped. cbn [fold_left fst snd].
    rewrite lookup_setitem_other by reflexivity. apply lookup_setitem_same. }
  assert (Hfive : firstn 5 hotels = hotels) by (apply firstn_all2; lia).
  exists hotels, (update full capped),
    (Tool_output (id tc) "search_hotels" (PDict capped)).
  split; [| split; [| split; [| split; [| split]]]].
  - unfold run_tool, bindM, lift, emit, ret.
    cbn [with_service json_loads search_hotels]. fold (function_args w tc).
    rewrite Hn. cbn [String.eqb Ascii.eqb Bool.eqb andb].
    rewrite Hc, Hi, Ho. cbn [app fst snd]. rewrite Hs. cbn [app].
    rewrite lookup_head. reflexivity.
  - now rewrite Htop, Hfive.
  - exact Hlen.
  - unfold update, capped. cbn [fold_left fst snd]. apply lookup_setitem_same.
  - intros llm_claims found.
    apply (verify_grounding_has_results _ _ (PList hotels)).
    + unfold get. now rewrite Htop, Hfive.
    + destruct hotels; [simpl in Hlen; lia | reflexivity].
  - intros response_text. unfold detect_misinformation_patterns, get1, get.
    rewrite Htop, Hfive. cbn [bind].
    destruct hotels; [simpl in Hlen; lia | reflexivity].
Qed.

Lemma served_search_has_results_witness :
  exists hotels full' output,
    run_tool (with_service paris_world None (fun _ _ _ => APIService.Failed))
      paris_tool_call [("error", PStr "Tool not found")]
    = ([Search (PStr "Paris") PNone PNone], Ok (full', output))
    /\ lookup "top_hotels" full' = Some (PList hotels)
    /\ (1 <= List.length hotels <= 5)%nat
    /\ lookup "city" full' = Some (PStr "Paris")
    /\ (forall llm_claims found,
           verify_grounding (PDict full') llm_claims = Ok found ->
           existsb no_results_message found = false)
    /\ (forall response_text,
           detect_misinformation_patterns response_text (PDict full') = Ok []).
Proof.
  apply (served_search_has_results paris_world None (fun _ _ _ => APIService.Failed)
           paris_tool_call [("error", PStr "Tool not found")] "Paris" PNone PNone);
    reflexivity.
Defined.
